(** * Face-Gender-Recognition: the orchestration and overlay core

    A shallow embedding of the client-side logic of the React front end:
    - [MediaDisplay.tsx]: the scale computation and the face overlays;
    - [CameraView.tsx]: frame capture, the live analysis loop, the toolbar;
    - [BatchAnalyzer.tsx]: file selection and the three-worker batch run;
    - [App.tsx]: the roster of known people.

    React state ([useState]) and refs ([useRef]) become fields of a record,
    event handlers become functions on that record, and the browser's event
    loop becomes a list of events folded over the state. *)

From Stdlib Require Import List Bool Arith ZArith QArith Qminmax Lia Lqa.
From Stdlib Require Import String Ascii DecimalString DecimalPos DecimalZ.
From Stdlib Require Import PrimFloat.
Import ListNotations.

Set Implicit Arguments.

(* ===================================================================== *)
(** * types.ts *)
(* ===================================================================== *)

(** A JavaScript [number] is left abstract in the records: the geometry is
    instantiated both with exact rationals and with binary64 floats. *)

Module Types.

Record BoundingBox (num : Type) := mkBox {
  x : num;
  y : num;
  width : num;
  height : num
}.

Record DetectedFace (num : Type) := mkFace {
  box : BoundingBox num;
  name : string;
  gender : option string;
  confidence : num
}.

Record KnownPerson := mkPerson {
  person_id : string;
  person_name : string;
  person_image : string
}.

Record RecognitionOptions := mkOptions {
  recognizeGender : bool;
  countPeople : bool
}.

(** What [detectAndRecognizeFaces] resolves to. *)
Record RecognitionResult (num : Type) := mkResult {
  faces : list (DetectedFace num);
  personCount : Z
}.

End Types.
Import Types.

(* ===================================================================== *)
(** * The arithmetic of JavaScript numbers *)
(* ===================================================================== *)

(** The operations [MediaDisplay] uses on numbers. *)
Class JsNumber (num : Type) := {
  js_zero : num;
  js_one : num;
  js_hundred : num;
  js_mul : num -> num -> num;
  js_div : num -> num -> num;
  js_gt : num -> num -> bool;
  Math_min : num -> num -> num
}.

(** Exact arithmetic: the numbers as the specification reads them. *)
#[export] Instance Q_number : JsNumber Q := {|
  js_zero := 0%Q;
  js_one := 1%Q;
  js_hundred := 100%Q;
  js_mul := Qmult;
  js_div := Qdiv;
  js_gt := fun a b => negb (Qle_bool a b);
  Math_min := Qmin
|}.

(** ECMAScript's [Math.min] on binary64: NaN if an argument is NaN, and
    [-0] counts as smaller than [+0]. *)
Definition Math_min_f64 (a b : float) : float :=
  if (is_nan a || is_nan b)%bool then nan
  else if PrimFloat.ltb a b then a
  else if PrimFloat.ltb b a then b
  else if (is_zero a && get_sign a)%bool then a else b.

(** IEEE-754 binary64: the numbers as the browser computes them. *)
#[export] Instance f64_number : JsNumber float := {|
  js_zero := 0%float;
  js_one := 1%float;
  js_hundred := 100%float;
  js_mul := PrimFloat.mul;
  js_div := PrimFloat.div;
  js_gt := fun a b => PrimFloat.ltb b a;
  Math_min := Math_min_f64
|}.

(* ===================================================================== *)
(** * components/MediaDisplay.tsx *)
(* ===================================================================== *)

Module MediaDisplay.

(** [containerRef.current]'s [clientWidth] and [clientHeight]. *)
Record Container (num : Type) := mkContainer {
  clientWidth : num;
  clientHeight : num
}.

(** The four percentages of an overlay's inline style. *)
Record OverlayStyle (num : Type) := mkStyle {
  left_percent : num;
  top_percent : num;
  width_percent : num;
  height_percent : num
}.

(** An overlay once laid out, in CSS pixels relative to the overlay layer. *)
Record Rect (num : Type) := mkRect {
  rect_left : num;
  rect_top : num;
  rect_width : num;
  rect_height : num
}.

Section Geometry.
Context {num : Type} `{JsNumber num}.

(** [useState(1)]. *)
Definition initialScale : num := js_one.

(** [calculateScale]: the value of the [scale] state after the call, given
    its value before.  Nothing is set unless the container is mounted and
    both intrinsic dimensions are positive. *)
Definition calculateScale (containerRef : option (Container num))
    (naturalWidth naturalHeight : num) (scale : num) : num :=
  match containerRef with
  | Some c =>
      if (js_gt naturalWidth js_zero && js_gt naturalHeight js_zero)%bool
      then
        let scaleX := js_div (clientWidth c) naturalWidth in
        let scaleY := js_div (clientHeight c) naturalHeight in
        Math_min scaleX scaleY
      else scale
  | None => scale
  end.

Definition scaledWidth (naturalWidth scale : num) : num :=
  js_mul naturalWidth scale.

Definition scaledHeight (naturalHeight scale : num) : num :=
  js_mul naturalHeight scale.

(** The inline style of one face's overlay: each component times 100,
    as a percentage. *)
Definition overlayStyle (face : DetectedFace num) : OverlayStyle num :=
  let b := box face in
  {| left_percent := js_mul (x b) js_hundred;
     top_percent := js_mul (y b) js_hundred;
     width_percent := js_mul (width b) js_hundred;
     height_percent := js_mul (height b) js_hundred |}.

(** [face.name.toLowerCase() === 'unknown'] is decided on strings and does
    not touch the geometry; it is not modelled here. *)

(** CSS resolves a percentage against the matching dimension of the
    containing block, here the absolutely positioned layer that the
    component sizes to [scaledWidth] by [scaledHeight].  [overlayRect] is
    the rectangle that the inline style asks for: the used values of
    [left], [top], [width] and [height].  The box painted for it is
    [borderBox] below. *)
Definition resolvePercent (percent basis : num) : num :=
  js_mul (js_div percent js_hundred) basis.

Definition overlayRect (sw sh : num) (face : DetectedFace num) : Rect num :=
  let s := overlayStyle face in
  {| rect_left := resolvePercent (left_percent s) sw;
     rect_top := resolvePercent (top_percent s) sh;
     rect_width := resolvePercent (width_percent s) sw;
     rect_height := resolvePercent (height_percent s) sh |}.

(** [faces.map(...)]: one overlay per face, in order. *)
Definition overlays (sw sh : num) (fs : list (DetectedFace num))
    : list (Rect num) :=
  map (overlayRect sw sh) fs.

End Geometry.

(** ** Predicates of the claims, over exact arithmetic *)





Definition faceOfBox (b : BoundingBox Q) : DetectedFace Q :=
  {| box := b; name := "Unknown"; gender := None; confidence := 1%Q |}.

(** ** The box painted *)



End MediaDisplay.

(* ===================================================================== *)
(** * components/CameraView.tsx *)
(* ===================================================================== *)

Module CameraView.

(** What the component reads of the [<video>] element. *)
Record HTMLVideoElement := mkVideo {
  videoWidth : Z;
  videoHeight : Z;
  paused : bool;
  ended : bool
}.

Record Canvas := mkCanvas {
  canvas_width : Z;
  canvas_height : Z
}.

(** The two canvas calls whose outcome the page does not control: whether
    [getContext('2d')] hands out a context, and the JPEG data URL of a
    bitmap that has pixels. *)
Record Browser := mkBrowser {
  getContext2d : Canvas -> bool;
  encodeJpeg : HTMLVideoElement -> Canvas -> string
}.

(** [canvas.toDataURL('image/jpeg')] after [drawImage(video, ...)].  By the
    HTML standard a bitmap with no pixels (a zero width or height)
    serialises to the string [data:,]. *)
Definition toDataURL (b : Browser) (video : HTMLVideoElement) (c : Canvas)
    : string :=
  if ((canvas_width c =? 0) || (canvas_height c =? 0))%Z
  then "data:,"
  else encodeJpeg b video c.

(** [captureFrame]: [None] is JavaScript's [null]. *)
Definition captureFrame (b : Browser) (videoRef : option HTMLVideoElement)
    : option string :=
  match videoRef with
  | None => None
  | Some video =>
      let canvas := {| canvas_width := videoWidth video;
                       canvas_height := videoHeight video |} in
      if getContext2d b canvas
      then Some (toDataURL b video canvas)
      else None
  end.

(** [!frameDataUrl]: [null] and the empty string are the falsy values a
    [string | null] can take. *)
Definition falsy (frame : option string) : bool :=
  match frame with
  | None => true
  | Some EmptyString => true
  | Some _ => false
  end.

(** The element is not ready: not attached, or without intrinsic
    dimensions, or no 2D context to be had for its canvas. *)
Definition notReady (b : Browser) (videoRef : option HTMLVideoElement)
    : Prop :=
  match videoRef with
  | None => True
  | Some video =>
      videoWidth video = 0%Z \/ videoHeight video = 0%Z \/
      getContext2d b {| canvas_width := videoWidth video;
                        canvas_height := videoHeight video |} = false
  end.

(** ** What [captureFrame] can throw *)

(** How a call ends: it returns, or it throws. *)
Inductive Completion (A : Type) : Type :=
| Returns (a : A)
| Throws (exn : string).

Arguments Returns {A} a.
Arguments Throws {A} exn.

(** [captureFrame] has no [try] and no [throw] of its own.  Of the DOM
    calls it makes, [createElement], the two assignments and [getContext]
    do not throw; [drawImage] and [toDataURL] are specified with
    exceptions ([InvalidStateError] for an image source in a broken state,
    [SecurityError] for a canvas that is not origin-clean).  [None]: the
    call completes. *)
Record DomExceptions := mkDomExceptions {
  drawImage_throws : HTMLVideoElement -> Canvas -> option string;
  toDataURL_throws : HTMLVideoElement -> Canvas -> option string
}.

(** The HTML standard for a video element fed by a camera stream:
    [drawImage] draws the current frame, or nothing when there is none,
    and the canvas drawn from it stays origin-clean. *)
Definition cameraDom : DomExceptions :=
  {| drawImage_throws := fun _ _ => None;
     toDataURL_throws := fun _ _ => None |}.

(** [captureFrame], with the exceptions of its DOM calls passing through
    it. *)
Definition captureFrameCompletion (b : Browser) (dom : DomExceptions)
    (videoRef : option HTMLVideoElement) : Completion (option string) :=
  match videoRef with
  | None => Returns None
  | Some video =>
      let canvas := {| canvas_width := videoWidth video;
                       canvas_height := videoHeight video |} in
      if getContext2d b canvas
      then
        match drawImage_throws dom video canvas with
        | Some exn => Throws exn
        | None =>
            match toDataURL_throws dom video canvas with
            | Some exn => Throws exn
            | None => Returns (Some (toDataURL b video canvas))
            end
        end
      else Returns None
  end.

(** [MediaRecorder.state], as far as the component tests it. *)
Inductive RecorderState := inactive | recording.

(** One call of [detectAndRecognizeFaces]. *)
Record Invocation := mkInvocation {
  inv_frame : string;
  inv_knownPeople : list KnownPerson;
  inv_options : RecognitionOptions
}.

Section Component.
Variable num : Type.
Variable browser : Browser.

(** The state of one mounted component.  The text field of the registration
    dialog with its Save and Cancel buttons, and the copy of the camera
    error into [error], are left out: a saved registration reaches this
    component as a change of its props. *)
Record State := mkState {
  (* useState *)
  detectedFaces : list (DetectedFace num);
  personCount : Z;
  error : option string;
  isRegistering : bool;
  snapshot : option string;
  naturalSize : Z * Z;
  isAnalyzing : bool;
  isRecording : bool;
  (* useRef; [mediaRecorderRef] holds the recorder's [state] *)
  videoRef : option HTMLVideoElement;
  analysisIntervalRef : option nat;
  isProcessingFrame : bool;
  mediaRecorderRef : option RecorderState;
  (* useCamera and props *)
  stream : bool;
  knownPeople : list KnownPerson;
  options : RecognitionOptions;
  (* the browser: live interval handles, the next handle, calls pending *)
  timers : list nat;
  nextHandle : nat;
  inFlight : nat;
  (* what the component did: frames asked for, collaborator calls *)
  captures : nat;
  invocations : list Invocation
}.

Definition set_detectedFaces (v : list (DetectedFace num)) (s : State) : State :=
  {| detectedFaces := v; personCount := personCount s; error := error s;
     isRegistering := isRegistering s; snapshot := snapshot s;
     naturalSize := naturalSize s; isAnalyzing := isAnalyzing s;
     isRecording := isRecording s; videoRef := videoRef s;
     analysisIntervalRef := analysisIntervalRef s;
     isProcessingFrame := isProcessingFrame s;
     mediaRecorderRef := mediaRecorderRef s; stream := stream s;
     knownPeople := knownPeople s; options := options s; timers := timers s;
     nextHandle := nextHandle s; inFlight := inFlight s;
     captures := captures s; invocations := invocations s |}.

Definition set_personCount (v : Z) (s : State) : State :=
  {| detectedFaces := detectedFaces s; personCount := v; error := error s;
     isRegistering := isRegistering s; snapshot := snapshot s;
     naturalSize := naturalSize s; isAnalyzing := isAnalyzing s;
     isRecording := isRecording s; videoRef := videoRef s;
     analysisIntervalRef := analysisIntervalRef s;
     isProcessingFrame := isProcessingFrame s;
     mediaRecorderRef := mediaRecorderRef s; stream := stream s;
     knownPeople := knownPeople s; options := options s; timers := timers s;
     nextHandle := nextHandle s; inFlight := inFlight s;
     captures := captures s; invocations := invocations s |}.

Definition set_error (v : option string) (s : State) : State :=
  {| detectedFaces := detectedFaces s; personCount := personCount s;
     error := v; isRegistering := isRegistering s; snapshot := snapshot s;
     naturalSize := naturalSize s; isAnalyzing := isAnalyzing s;
     isRecording := isRecording s; videoRef := videoRef s;
     analysisIntervalRef := analysisIntervalRef s;
     isProcessingFrame := isProcessingFrame s;
     mediaRecorderRef := mediaRecorderRef s; stream := stream s;
     knownPeople := knownPeople s; options := options s; timers := timers s;
     nextHandle := nextHandle s; inFlight := inFlight s;
     captures := captures s; invocations := invocations s |}.

Definition set_isRegistering (v : bool) (s : State) : State :=
  {| detectedFaces := detectedFaces s; personCount := personCount s;
     error := error s; isRegistering := v; snapshot := snapshot s;
     naturalSize := naturalSize s; isAnalyzing := isAnalyzing s;
     isRecording := isRecording s; videoRef := videoRef s;
     analysisIntervalRef := analysisIntervalRef s;
     isProcessingFrame := isProcessingFrame s;
     mediaRecorderRef := mediaRecorderRef s; stream := stream s;
     knownPeople := knownPeople s; options := options s; timers := timers s;
     nextHandle := nextHandle s; inFlight := inFlight s;
     captures := captures s; invocations := invocations s |}.

Definition set_snapshot (v : option string) (s : State) : State :=
  {| detectedFaces := detectedFaces s; personCount := personCount s;
     error := error s; isRegistering := isRegistering s; snapshot := v;
     naturalSize := naturalSize s; isAnalyzing := isAnalyzing s;
     isRecording := isRecording s; videoRef := videoRef s;
     analysisIntervalRef := analysisIntervalRef s;
     isProcessingFrame := isProcessingFrame s;
     mediaRecorderRef := mediaRecorderRef s; stream := stream s;
     knownPeople := knownPeople s; options := options s; timers := timers s;
     nextHandle := nextHandle s; inFlight := inFlight s;
     captures := captures s; invocations := invocations s |}.

Definition set_naturalSize (v : Z * Z) (s : State) : State :=
  {| detectedFaces := detectedFaces s; personCount := personCount s;
     error := error s; isRegistering := isRegistering s;
     snapshot := snapshot s; naturalSize := v; isAnalyzing := isAnalyzing s;
     isRecording := isRecording s; videoRef := videoRef s;
     analysisIntervalRef := analysisIntervalRef s;
     isProcessingFrame := isProcessingFrame s;
     mediaRecorderRef := mediaRecorderRef s; stream := stream s;
     knownPeople := knownPeople s; options := options s; timers := timers s;
     nextHandle := nextHandle s; inFlight := inFlight s;
     captures := captures s; invocations := invocations s |}.

Definition set_isAnalyzing (v : bool) (s : State) : State :=
  {| detectedFaces := detectedFaces s; personCount := personCount s;
     error := error s; isRegistering := isRegistering s;
     snapshot := snapshot s; naturalSize := naturalSize s; isAnalyzing := v;
     isRecording := isRecording s; videoRef := videoRef s;
     analysisIntervalRef := analysisIntervalRef s;
     isProcessingFrame := isProcessingFrame s;
     mediaRecorderRef := mediaRecorderRef s; stream := stream s;
     knownPeople := knownPeople s; options := options s; timers := timers s;
     nextHandle := nextHandle s; inFlight := inFlight s;
     captures := captures s; invocations := invocations s |}.

Definition set_isRecording (v : bool) (s : State) : State :=
  {| detectedFaces := detectedFaces s; personCount := personCount s;
     error := error s; isRegistering := isRegistering s;
     snapshot := snapshot s; naturalSize := naturalSize s;
     isAnalyzing := isAnalyzing s; isRecording := v; videoRef := videoRef s;
     analysisIntervalRef := analysisIntervalRef s;
     isProcessingFrame := isProcessingFrame s;
     mediaRecorderRef := mediaRecorderRef s; stream := stream s;
     knownPeople := knownPeople s; options := options s; timers := timers s;
     nextHandle := nextHandle s; inFlight := inFlight s;
     captures := captures s; invocations := invocations s |}.

Definition set_videoRef (v : option HTMLVideoElement) (s : State) : State :=
  {| detectedFaces := detectedFaces s; personCount := personCount s;
     error := error s; isRegistering := isRegistering s;
     snapshot := snapshot s; naturalSize := naturalSize s;
     isAnalyzing := isAnalyzing s; isRecording := isRecording s;
     videoRef := v; analysisIntervalRef := analysisIntervalRef s;
     isProcessingFrame := isProcessingFrame s;
     mediaRecorderRef := mediaRecorderRef s; stream := stream s;
     knownPeople := knownPeople s; options := options s; timers := timers s;
     nextHandle := nextHandle s; inFlight := inFlight s;
     captures := captures s; invocations := invocations s |}.

Definition set_analysisIntervalRef (v : option nat) (s : State) : State :=
  {| detectedFaces := detectedFaces s; personCount := personCount s;
     error := error s; isRegistering := isRegistering s;
     snapshot := snapshot s; naturalSize := naturalSize s;
     isAnalyzing := isAnalyzing s; isRecording := isRecording s;
     videoRef := videoRef s; analysisIntervalRef := v;
     isProcessingFrame := isProcessingFrame s;
     mediaRecorderRef := mediaRecorderRef s; stream := stream s;
     knownPeople := knownPeople s; options := options s; timers := timers s;
     nextHandle := nextHandle s; inFlight := inFlight s;
     captures := captures s; invocations := invocations s |}.

Definition set_isProcessingFrame (v : bool) (s : State) : State :=
  {| detectedFaces := detectedFaces s; personCount := personCount s;
     error := error s; isRegistering := isRegistering s;
     snapshot := snapshot s; naturalSize := naturalSize s;
     isAnalyzing := isAnalyzing s; isRecording := isRecording s;
     videoRef := videoRef s; analysisIntervalRef := analysisIntervalRef s;
     isProcessingFrame := v; mediaRecorderRef := mediaRecorderRef s;
     stream := stream s; knownPeople := knownPeople s; options := options s;
     timers := timers s; nextHandle := nextHandle s; inFlight := inFlight s;
     captures := captures s; invocations := invocations s |}.

Definition set_mediaRecorderRef (v : option RecorderState) (s : State) : State :=
  {| detectedFaces := detectedFaces s; personCount := personCount s;
     error := error s; isRegistering := isRegistering s;
     snapshot := snapshot s; naturalSize := naturalSize s;
     isAnalyzing := isAnalyzing s; isRecording := isRecording s;
     videoRef := videoRef s; analysisIntervalRef := analysisIntervalRef s;
     isProcessingFrame := isProcessingFrame s; mediaRecorderRef := v;
     stream := stream s; knownPeople := knownPeople s; options := options s;
     timers := timers s; nextHandle := nextHandle s; inFlight := inFlight s;
     captures := captures s; invocations := invocations s |}.

Definition set_stream (v : bool) (s : State) : State :=
  {| detectedFaces := detectedFaces s; personCount := personCount s;
     error := error s; isRegistering := isRegistering s;
     snapshot := snapshot s; naturalSize := naturalSize s;
     isAnalyzing := isAnalyzing s; isRecording := isRecording s;
     videoRef := videoRef s; analysisIntervalRef := analysisIntervalRef s;
     isProcessingFrame := isProcessingFrame s;
     mediaRecorderRef := mediaRecorderRef s; stream := v;
     knownPeople := knownPeople s; options := options s; timers := timers s;
     nextHandle := nextHandle s; inFlight := inFlight s;
     captures := captures s; invocations := invocations s |}.

Definition set_knownPeople (v : list KnownPerson) (s : State) : State :=
  {| detectedFaces := detectedFaces s; personCount := personCount s;
     error := error s; isRegistering := isRegistering s;
     snapshot := snapshot s; naturalSize := naturalSize s;
     isAnalyzing := isAnalyzing s; isRecording := isRecording s;
     videoRef := videoRef s; analysisIntervalRef := analysisIntervalRef s;
     isProcessingFrame := isProcessingFrame s;
     mediaRecorderRef := mediaRecorderRef s; stream := stream s;
     knownPeople := v; options := options s; timers := timers s;
     nextHandle := nextHandle s; inFlight := inFlight s;
     captures := captures s; invocations := invocations s |}.

Definition set_options (v : RecognitionOptions) (s : State) : State :=
  {| detectedFaces := detectedFaces s; personCount := personCount s;
     error := error s; isRegistering := isRegistering s;
     snapshot := snapshot s; naturalSize := naturalSize s;
     isAnalyzing := isAnalyzing s; isRecording := isRecording s;
     videoRef := videoRef s; analysisIntervalRef := analysisIntervalRef s;
     isProcessingFrame := isProcessingFrame s;
     mediaRecorderRef := mediaRecorderRef s; stream := stream s;
     knownPeople := knownPeople s; options := v; timers := timers s;
     nextHandle := nextHandle s; inFlight := inFlight s;
     captures := captures s; invocations := invocations s |}.

Definition set_timers (v : list nat) (s : State) : State :=
  {| detectedFaces := detectedFaces s; personCount := personCount s;
     error := error s; isRegistering := isRegistering s;
     snapshot := snapshot s; naturalSize := naturalSize s;
     isAnalyzing := isAnalyzing s; isRecording := isRecording s;
     videoRef := videoRef s; analysisIntervalRef := analysisIntervalRef s;
     isProcessingFrame := isProcessingFrame s;
     mediaRecorderRef := mediaRecorderRef s; stream := stream s;
     knownPeople := knownPeople s; options := options s; timers := v;
     nextHandle := nextHandle s; inFlight := inFlight s;
     captures := captures s; invocations := invocations s |}.

Definition set_nextHandle (v : nat) (s : State) : State :=
  {| detectedFaces := detectedFaces s; personCount := personCount s;
     error := error s; isRegistering := isRegistering s;
     snapshot := snapshot s; naturalSize := naturalSize s;
     isAnalyzing := isAnalyzing s; isRecording := isRecording s;
     videoRef := videoRef s; analysisIntervalRef := analysisIntervalRef s;
     isProcessingFrame := isProcessingFrame s;
     mediaRecorderRef := mediaRecorderRef s; stream := stream s;
     knownPeople := knownPeople s; options := options s; timers := timers s;
     nextHandle := v; inFlight := inFlight s; captures := captures s;
     invocations := invocations s |}.

Definition set_inFlight (v : nat) (s : State) : State :=
  {| detectedFaces := detectedFaces s; personCount := personCount s;
     error := error s; isRegistering := isRegistering s;
     snapshot := snapshot s; naturalSize := naturalSize s;
     isAnalyzing := isAnalyzing s; isRecording := isRecording s;
     videoRef := videoRef s; analysisIntervalRef := analysisIntervalRef s;
     isProcessingFrame := isProcessingFrame s;
     mediaRecorderRef := mediaRecorderRef s; stream := stream s;
     knownPeople := knownPeople s; options := options s; timers := timers s;
     nextHandle := nextHandle s; inFlight := v; captures := captures s;
     invocations := invocations s |}.

Definition set_captures (v : nat) (s : State) : State :=
  {| detectedFaces := detectedFaces s; personCount := personCount s;
     error := error s; isRegistering := isRegistering s;
     snapshot := snapshot s; naturalSize := naturalSize s;
     isAnalyzing := isAnalyzing s; isRecording := isRecording s;
     videoRef := videoRef s; analysisIntervalRef := analysisIntervalRef s;
     isProcessingFrame := isProcessingFrame s;
     mediaRecorderRef := mediaRecorderRef s; stream := stream s;
     knownPeople := knownPeople s; options := options s; timers := timers s;
     nextHandle := nextHandle s; inFlight := inFlight s; captures := v;
     invocations := invocations s |}.

Definition set_invocations (v : list Invocation) (s : State) : State :=
  {| detectedFaces := detectedFaces s; personCount := personCount s;
     error := error s; isRegistering := isRegistering s;
     snapshot := snapshot s; naturalSize := naturalSize s;
     isAnalyzing := isAnalyzing s; isRecording := isRecording s;
     videoRef := videoRef s; analysisIntervalRef := analysisIntervalRef s;
     isProcessingFrame := isProcessingFrame s;
     mediaRecorderRef := mediaRecorderRef s; stream := stream s;
     knownPeople := knownPeople s; options := options s; timers := timers s;
     nextHandle := nextHandle s; inFlight := inFlight s;
     captures := captures s; invocations := v |}.

(** The component as first mounted: the camera stream not yet granted. *)
Definition mount (people : list KnownPerson) (opts : RecognitionOptions)
    : State :=
  {| detectedFaces := []; personCount := 0%Z; error := None;
     isRegistering := false; snapshot := None; naturalSize := (0, 0)%Z;
     isAnalyzing := false; isRecording := false;
     videoRef := None; analysisIntervalRef := None;
     isProcessingFrame := false; mediaRecorderRef := None;
     stream := false; knownPeople := people; options := opts;
     timers := []; nextHandle := 1; inFlight := 0;
     captures := 0; invocations := [] |}.

(** [if (analysisIntervalRef.current)]: a handle is a number, truthy unless
    zero. *)
Definition truthyHandle (r : option nat) : bool :=
  match r with
  | Some (S _) => true
  | _ => false
  end.

Definition clearInterval (h : nat) (s : State) : State :=
  set_timers (remove Nat.eq_dec h (timers s)) s.

(** [window.setInterval(analyzeRealtimeFrame, 1500)] stored in the ref. *)
Definition setInterval (s : State) : State :=
  let h := nextHandle s in
  set_analysisIntervalRef (Some h)
    (set_timers (h :: timers s) (set_nextHandle (S h) s)).

(** The cleanup returned by the interval effect. *)
Definition effectCleanup (s : State) : State :=
  match analysisIntervalRef s with
  | Some h => if truthyHandle (Some h) then clearInterval h s else s
  | None => s
  end.

(** The body of the interval effect. *)
Definition effectBody (s : State) : State :=
  if isAnalyzing s then setInterval s
  else
    match analysisIntervalRef s with
    | Some h =>
        if truthyHandle (Some h)
        then set_analysisIntervalRef None (clearInterval h s)
        else s
    | None => s
    end.

(** A commit in which [isAnalyzing] or [analyzeRealtimeFrame] changed:
    React runs the previous cleanup, then the effect again. *)
Definition rerunEffect (s : State) : State :=
  effectBody (effectCleanup s).

(** [analyzeRealtimeFrame] up to its [await]. *)
Definition analyzeRealtimeFrame (s : State) : State :=
  match videoRef s with
  | None => s
  | Some video =>
      if (isProcessingFrame s || paused video || ended video)%bool then s
      else
        let frameDataUrl := captureFrame browser (videoRef s) in
        let s1 := set_captures (S (captures s)) s in
        match frameDataUrl with
        | Some frame =>
            if falsy frameDataUrl then s1
            else
              set_invocations
                (invocations s1 ++
                 [{| inv_frame := frame;
                     inv_knownPeople := knownPeople s1;
                     inv_options := options s1 |}])
                (set_inFlight (S (inFlight s1))
                   (set_isProcessingFrame true s1))
        | None => s1
        end
  end.

(** [analyzeRealtimeFrame] from the [await] on, when the call resolves. *)
Definition analyzeResolved (r : RecognitionResult num) (s : State) : State :=
  let s1 := set_inFlight (pred (inFlight s)) s in
  let s2 :=
    if truthyHandle (analysisIntervalRef s1)
    then set_personCount (Types.personCount r) (set_detectedFaces (faces r) s1)
    else s1 in
  set_isProcessingFrame false s2.

(** The same when the call rejects: [message] is [err.message] when the
    value thrown is an [Error]. *)
Definition analyzeRejected (message : option string) (s : State) : State :=
  let s1 := set_inFlight (pred (inFlight s)) s in
  let text :=
    match message with
    | Some m => m
    | None => "An analysis error occurred."%string
    end in
  set_isProcessingFrame false (set_error (Some text) s1).

Definition handleToggleAnalysis (s : State) : State :=
  let wasAnalyzing := isAnalyzing s in
  let s1 := set_isAnalyzing (negb (isAnalyzing s)) s in
  if wasAnalyzing
  then set_personCount 0%Z (set_detectedFaces [] s1)
  else s1.

Definition handleMetadataLoaded (s : State) : State :=
  match videoRef s with
  | Some video => set_naturalSize (videoWidth video, videoHeight video) s
  | None => s
  end.

Definition handleRegisterClick (s : State) : State :=
  let frame := captureFrame browser (videoRef s) in
  let s1 := set_captures (S (captures s)) s in
  if falsy frame then s1
  else set_isRegistering true (set_snapshot frame s1).

(** The download that [onstop] assembles leaves the component's state
    alone and is left out. *)
Definition handleStartRecording (s : State) : State :=
  if stream s
  then set_isRecording true (set_mediaRecorderRef (Some recording) s)
  else s.

Definition handleStopRecording (s : State) : State :=
  match mediaRecorderRef s with
  | Some recording =>
      set_isRecording false (set_mediaRecorderRef (Some inactive) s)
  | _ => s
  end.

(** The [disabled] attributes of the three toolbar buttons. *)
Definition registerDisabled (s : State) : bool :=
  (negb (stream s) || isAnalyzing s || isRecording s)%bool.

Definition recordDisabled (s : State) : bool :=
  (negb (stream s) || isAnalyzing s)%bool.

Definition analyzeDisabled (s : State) : bool :=
  (negb (stream s) || isRecording s)%bool.

(** What the event loop can deliver to the mounted component. *)
Inductive Event :=
| Tick (handle : nat)
| Resolved (r : RecognitionResult num)
| Rejected (message : option string)
| ClickAnalyze
| ClickRecord
| ClickRegister
| StreamGranted
| VideoChanged (v : option HTMLVideoElement)
| MetadataLoaded
| PropsChanged (people : list KnownPerson) (opts : RecognitionOptions)
| RecorderEnded.

(** One turn of the event loop.  An event that cannot happen in the state
    (a timer already cleared, no call pending, a disabled button) leaves
    it as it is.  A click whose handler changes [isAnalyzing], and a change
    of props, commit with the interval effect run again: React renders the
    update of a click and flushes its effects before the next task, so no
    timer or result comes in between. *)
Definition step (s : State) (e : Event) : State :=
  match e with
  | Tick h =>
      if in_dec Nat.eq_dec h (timers s) then analyzeRealtimeFrame s else s
  | Resolved r =>
      match inFlight s with
      | O => s
      | S _ => analyzeResolved r s
      end
  | Rejected m =>
      match inFlight s with
      | O => s
      | S _ => analyzeRejected m s
      end
  | ClickAnalyze =>
      if analyzeDisabled s then s
      else rerunEffect (handleToggleAnalysis s)
  | ClickRecord =>
      if recordDisabled s then s
      else if isRecording s then handleStopRecording s
      else handleStartRecording s
  | ClickRegister =>
      if registerDisabled s then s else handleRegisterClick s
  | StreamGranted => set_stream true s
  | VideoChanged v => set_videoRef v s
  | MetadataLoaded => handleMetadataLoaded s
  | PropsChanged people opts =>
      rerunEffect (set_options opts (set_knownPeople people s))
  | RecorderEnded =>
      match mediaRecorderRef s with
      | Some recording => set_mediaRecorderRef (Some inactive) s
      | _ => s
      end
  end.

Definition run (s : State) (evs : list Event) : State :=
  fold_left step evs s.

Definition reachable (s : State) : Prop :=
  exists people opts evs, s = run (mount people opts) evs.

Definition isTick (e : Event) : bool :=
  match e with
  | Tick _ => true
  | _ => false
  end.

Definition isClickAnalyze (e : Event) : bool :=
  match e with
  | ClickAnalyze => true
  | _ => false
  end.

(** The number of timer events in a trace. *)
Definition ticks (evs : list Event) : nat :=
  List.length (filter isTick evs).

End Component.

End CameraView.

(* ===================================================================== *)
(** * components/BatchAnalyzer.tsx *)
(* ===================================================================== *)

Module BatchAnalyzer.

(** What the component reads of a [File]. *)
Record File := mkFile {
  file_name : string;
  lastModified : Z
}.

Inductive Status := pending | processing | done | error.

Definition CONCURRENCY_LIMIT : nat := 3.

(** A number inside a template literal.  [lastModified] is a time in
    milliseconds, an integer far below 2^53 in absolute value, and such a
    number prints as its decimal digits; beyond that range JavaScript
    prints the nearest double (in exponent form from 1e21), which this
    definition does not follow. *)
Definition numberToString (z : Z) : string :=
  NilZero.string_of_int (Z.to_int z).

Section Component.
Variable num : Type.
(** [URL.createObjectURL]. *)
Variable createObjectURL : File -> string.

Record ImageFileState := mkImage {
  id : string;
  file : File;
  url : string;
  status : Status;
  result : option (RecognitionResult num);
  naturalSize : Z * Z
}.

Definition set_status (v : Status) (f : ImageFileState) : ImageFileState :=
  {| id := id f; file := file f; url := url f; status := v;
     result := result f; naturalSize := naturalSize f |}.

Definition set_result (v : option (RecognitionResult num))
    (f : ImageFileState) : ImageFileState :=
  {| id := id f; file := file f; url := url f; status := status f;
     result := v; naturalSize := naturalSize f |}.

Definition set_naturalSize (v : Z * Z) (f : ImageFileState)
    : ImageFileState :=
  {| id := id f; file := file f; url := url f; status := status f;
     result := result f; naturalSize := v |}.

(** The component's state, and with it the closure of the run in
    progress: the shared [queue], what each of the workers awaits ([None]
    once its loop has ended), and the files handed to the collaborator. *)
Record State := mkState {
  imageFiles : list ImageFileState;
  selectedImageId : option string;
  isBatchLoading : bool;
  queue : list ImageFileState;
  workers : list (option ImageFileState);
  invocations : list ImageFileState
}.

Definition set_imageFiles (v : list ImageFileState) (s : State) : State :=
  {| imageFiles := v; selectedImageId := selectedImageId s;
     isBatchLoading := isBatchLoading s; queue := queue s;
     workers := workers s; invocations := invocations s |}.

Definition set_selectedImageId (v : option string) (s : State) : State :=
  {| imageFiles := imageFiles s; selectedImageId := v;
     isBatchLoading := isBatchLoading s; queue := queue s;
     workers := workers s; invocations := invocations s |}.

Definition set_isBatchLoading (v : bool) (s : State) : State :=
  {| imageFiles := imageFiles s; selectedImageId := selectedImageId s;
     isBatchLoading := v; queue := queue s;
     workers := workers s; invocations := invocations s |}.

Definition set_queue (v : list ImageFileState) (s : State) : State :=
  {| imageFiles := imageFiles s; selectedImageId := selectedImageId s;
     isBatchLoading := isBatchLoading s; queue := v;
     workers := workers s; invocations := invocations s |}.

Definition set_workers (v : list (option ImageFileState)) (s : State)
    : State :=
  {| imageFiles := imageFiles s; selectedImageId := selectedImageId s;
     isBatchLoading := isBatchLoading s; queue := queue s;
     workers := v; invocations := invocations s |}.

Definition set_invocations (v : list ImageFileState) (s : State) : State :=
  {| imageFiles := imageFiles s; selectedImageId := selectedImageId s;
     isBatchLoading := isBatchLoading s; queue := queue s;
     workers := workers s; invocations := v |}.

Definition mount : State :=
  {| imageFiles := []; selectedImageId := None; isBatchLoading := false;
     queue := []; workers := []; invocations := [] |}.

(** [prev.map(f => f.id === target ? change(f) : f)]. *)
Definition updateById (target : string)
    (change : ImageFileState -> ImageFileState)
    (l : list ImageFileState) : list ImageFileState :=
  map (fun f => if String.eqb (id f) target then change f else f) l.

(** The entry built for one chosen file. *)
Definition newFileState (f : File) : ImageFileState :=
  {| id := (file_name f ++ "-" ++ numberToString (lastModified f))%string;
     file := f;
     url := createObjectURL f;
     status := pending;
     result := None;
     naturalSize := (0, 0)%Z |}.

(** [handleFileChange]: [files] is [event.target.files]. *)
Definition handleFileChange (files : option (list File)) (s : State)
    : State :=
  match files with
  | Some (first :: rest) =>
      let newFiles := map newFileState (first :: rest) in
      set_selectedImageId (Some (id (newFileState first)))
        (set_imageFiles newFiles s)
  | _ => s
  end.

(** [img.onload] of the image created for the entry [target]. *)
Definition imageLoaded (target : string) (size : Z * Z) (s : State)
    : State :=
  set_imageFiles (updateById target (set_naturalSize size) (imageFiles s)) s.

(** [f.status === 'pending' || f.status === 'error']. *)
Definition toProcess (f : ImageFileState) : bool :=
  match status f with
  | pending | error => true
  | _ => false
  end.

(** Write [v] into slot [w]. *)
Fixpoint setSlot (w : nat) (v : option ImageFileState)
    (l : list (option ImageFileState)) : list (option ImageFileState) :=
  match l, w with
  | [], _ => []
  | _ :: t, O => v :: t
  | h :: t, S w' => h :: setSlot w' v t
  end.

(** [process], up to its [await]: mark the entry, call the collaborator. *)
Definition processStart (fileState : ImageFileState) (s : State) : State :=
  set_invocations (invocations s ++ [fileState])
    (set_imageFiles
       (updateById (id fileState) (set_status processing) (imageFiles s)) s).

(** [process], after its [await]: [Some result] when the call resolved,
    [None] when it threw. *)
Definition processEnd (fileState : ImageFileState)
    (outcome : option (RecognitionResult num)) (s : State) : State :=
  match outcome with
  | Some r =>
      set_imageFiles
        (updateById (id fileState)
           (fun f => set_result (Some r) (set_status done f))
           (imageFiles s)) s
  | None =>
      set_imageFiles
        (updateById (id fileState) (set_status error) (imageFiles s)) s
  end.

(** One turn of a worker's [while] loop, up to the [await]: take the head
    of the queue and start on it, or end. *)
Definition workerLoop (w : nat) (s : State) : State :=
  match queue s with
  | [] => set_workers (setSlot w None (workers s)) s
  | fileToProcess :: rest =>
      set_workers (setSlot w (Some fileToProcess) (workers s))
        (processStart fileToProcess (set_queue rest s))
  end.

Definition isNone (o : option ImageFileState) : bool :=
  match o with
  | None => true
  | Some _ => false
  end.

(** [await Promise.all(workers); setIsBatchLoading(false)]. *)
Definition join (s : State) : State :=
  if forallb isNone (workers s) then set_isBatchLoading false s else s.

(** [handleAnalyzeBatch] until every worker has reached its first [await]
    or ended. *)
Definition handleAnalyzeBatch (s : State) : State :=
  let filesToProcess := filter toProcess (imageFiles s) in
  let s1 :=
    set_workers (repeat None CONCURRENCY_LIMIT)
      (set_queue filesToProcess (set_isBatchLoading true s)) in
  join (fold_left (fun st w => workerLoop w st) (seq 0 CONCURRENCY_LIMIT) s1).

(** The call awaited by worker [w] settles: the rest of [process], then the
    worker's loop again. *)
Definition settle (w : nat) (outcome : option (RecognitionResult num))
    (s : State) : State :=
  match nth_error (workers s) w with
  | Some (Some fileState) => join (workerLoop w (processEnd fileState outcome s))
  | _ => s
  end.

Inductive Event :=
| FilesChosen (files : option (list File))
| ImageLoaded (target : string) (size : Z * Z)
| Select (target : string)
| ClickProcess
| Settled (w : nat) (outcome : option (RecognitionResult num)).

(** The "Process Batch" button exists once the list is non-empty and is
    disabled while a run is in progress. *)
Definition processDisabled (s : State) : bool :=
  match imageFiles s with
  | [] => true
  | _ => isBatchLoading s
  end.

Definition step (s : State) (e : Event) : State :=
  match e with
  | FilesChosen files => handleFileChange files s
  | ImageLoaded target size => imageLoaded target size s
  | Select target => set_selectedImageId (Some target) s
  | ClickProcess => if processDisabled s then s else handleAnalyzeBatch s
  | Settled w outcome => settle w outcome s
  end.

Definition run (s : State) (evs : list Event) : State :=
  fold_left step evs s.

(** The calls that settle along a trace: a [Settled] event is the
    settlement of a call when its worker is awaiting one. *)
Definition awaiting (s : State) (w : nat) : bool :=
  match nth_error (workers s) w with
  | Some (Some _) => true
  | _ => false
  end.

Fixpoint settledCalls (s : State) (evs : list Event) : nat :=
  match evs with
  | [] => 0
  | e :: rest =>
      match e with
      | Settled w _ => if awaiting s w then 1 else 0
      | _ => 0
      end + settledCalls (step s e) rest
  end.

(** Events that leave the list of files and the run alone: no new
    selection, no second click. *)
Definition quiet (e : Event) : bool :=
  match e with
  | FilesChosen _ | ClickProcess => false
  | _ => true
  end.

(** Done with a result, or failed. *)
Definition settled (f : ImageFileState) : Prop :=
  (status f = done /\ result f <> None) \/ status f = error.

End Component.

End BatchAnalyzer.

(* ===================================================================== *)
(** * App.tsx: the roster *)
(* ===================================================================== *)

Module App.

(** [knownPeople], the [knownPeople] item of [localStorage] (the stored
    JSON text is identified with the roster it serialises), and whether
    the storage takes the text of a given roster: [setItem] throws a
    [QuotaExceededError], and stores nothing, when it does not. *)
Record State := mkState {
  knownPeople : list KnownPerson;
  localStorage : option (list KnownPerson);
  storageAccepts : list KnownPerson -> bool
}.

(** A storage with room for every roster. *)
Definition roomy (people : list KnownPerson) : bool := true.

Definition mount (accepts : list KnownPerson -> bool) : State :=
  {| knownPeople := []; localStorage := None; storageAccepts := accepts |}.

(** [updateKnownPeople]: [setKnownPeople(people)], then
    [localStorage.setItem], outside any [try].  The state update is queued
    before [setItem] runs and is applied whether or not it throws. *)
Definition updateKnownPeople (people : list KnownPerson) (s : State)
    : State :=
  {| knownPeople := people;
     localStorage :=
       if storageAccepts s people then Some people else localStorage s;
     storageAccepts := storageAccepts s |}.

(** Whether that call throws, out of [setItem], into its caller. *)
Definition updateThrows (people : list KnownPerson) (s : State) : bool :=
  negb (storageAccepts s people).

(** The id built from [Date.now()]. *)
Definition personId (now : Z) : string :=
  ("person_" ++ NilZero.string_of_int (Z.to_int now))%string.

Definition newPerson (now : Z) (name image : string) : KnownPerson :=
  {| person_id := personId now; person_name := name;
     person_image := image |}.

(** [addPerson]; [now] is the value of [Date.now()]. *)
Definition addPerson (now : Z) (name image : string) (s : State) : State :=
  updateKnownPeople (knownPeople s ++ [newPerson now name image]) s.

Definition addPersonThrows (now : Z) (name image : string) (s : State)
    : bool :=
  updateThrows (knownPeople s ++ [newPerson now name image]) s.

Definition removePerson (id : string) (s : State) : State :=
  updateKnownPeople
    (filter (fun p => negb (String.eqb (person_id p) id)) (knownPeople s)) s.

Definition removePersonThrows (id : string) (s : State) : bool :=
  updateThrows
    (filter (fun p => negb (String.eqb (person_id p) id)) (knownPeople s)) s.

(** [list()]: the roster handed to the panels. *)
Definition list_people (s : State) : list KnownPerson := knownPeople s.

Definition ids (s : State) : list string :=
  map person_id (knownPeople s).

(** [addPerson] appends exactly one person, of the given name and image,
    whose id no entry of the roster had, and stores the new roster. *)
Definition addsFreshPerson (now : Z) (name image : string) (s : State)
    : Prop :=
  exists p,
    knownPeople (addPerson now name image s) = knownPeople s ++ [p] /\
    person_name p = name /\ person_image p = image /\
    ~ In (person_id p) (ids s) /\
    localStorage (addPerson now name image s)
      = Some (knownPeople (addPerson now name image s)).

End App.

(* ===================================================================== *)
(** * The geometry of the overlays *)
(* ===================================================================== *)

Module GeometryFacts.
Import MediaDisplay.

Lemma js_gt_Q_true (a : Q) : (0 < a)%Q -> js_gt a js_zero = true.
Proof.
  intros Ha. simpl.
  destruct (Qle_bool a 0) eqn:E; [|reflexivity].
  apply Qle_bool_iff in E. lra.
Qed.

Lemma calculateScale_Q (c : Container Q) (nw nh sc : Q) :
  (0 < nw)%Q -> (0 < nh)%Q ->
  calculateScale (Some c) nw nh sc
  = Qmin (clientWidth c / nw) (clientHeight c / nh).
Proof.
  intros Hw Hh. unfold calculateScale.
  rewrite (js_gt_Q_true Hw), (js_gt_Q_true Hh). reflexivity.
Qed.

Lemma mul_div_cancel (a n : Q) : (0 < n)%Q -> (n * (a / n) == a)%Q.
Proof. intros Hn. field. lra. Qed.

Lemma scaled_le (a n m : Q) :
  (0 < n)%Q -> (m <= a / n)%Q -> (n * m <= a)%Q.
Proof.
  intros Hn Hm.
  rewrite <- (mul_div_cancel a Hn).
  apply Qmult_le_l; assumption.
Qed.



(** C5, in exact arithmetic: with a mounted container and both intrinsic
    dimensions positive, [calculateScale] sets the scale to
    [min (clientWidth / naturalWidth) (clientHeight / naturalHeight)]; the
    scaled width and height do not exceed the client width and height, and
    one of them equals its bound. *)
Theorem scale_fits_container_exact
    (c : Container Q) (naturalWidth naturalHeight previous : Q) :
  (0 < naturalWidth)%Q -> (0 < naturalHeight)%Q ->
  let scale := calculateScale (Some c) naturalWidth naturalHeight previous in
  (scale == Qmin (clientWidth c / naturalWidth)
                 (clientHeight c / naturalHeight))%Q /\
  (scaledWidth naturalWidth scale <= clientWidth c)%Q /\
  (scaledHeight naturalHeight scale <= clientHeight c)%Q /\
  ((scaledWidth naturalWidth scale == clientWidth c)%Q \/
   (scaledHeight naturalHeight scale == clientHeight c)%Q).
Proof.
  intros Hw Hh scale. subst scale.
  rewrite (calculateScale_Q c previous Hw Hh).
  unfold scaledWidth, scaledHeight. simpl.
  set (sx := (clientWidth c / naturalWidth)%Q).
  set (sy := (clientHeight c / naturalHeight)%Q).
  split; [|split; [|split]].
  - reflexivity.
  - apply scaled_le; [assumption | apply Q.le_min_l].
  - apply scaled_le; [assumption | apply Q.le_min_r].
  - destruct (Q.min_spec sx sy) as [[_ E] | [_ E]]; rewrite E.
    + left. apply mul_div_cancel; assumption.
    + right. apply mul_div_cancel; assumption.
Qed.

(** The example of C5: client 800 x 600 around 1600 x 900 media gives the
    scale 1/2 and the scaled size 800 x 450, tight in the width. *)
Lemma scale_fits_container_exact_witness :
  let c := {| clientWidth := 800%Q; clientHeight := 600%Q |} in
  let scale := calculateScale (Some c) 1600%Q 900%Q initialScale in
  (scale == 1 # 2)%Q /\
  (scaledWidth 1600%Q scale == 800)%Q /\
  (scaledHeight 900%Q scale == 450)%Q /\
  (scaledWidth 1600%Q scale <= clientWidth c)%Q /\
  (scaledHeight 900%Q scale <= clientHeight c)%Q.
Proof.
  intros c scale.
  assert (Hw : (0 < 1600)%Q) by reflexivity.
  assert (Hh : (0 < 900)%Q) by reflexivity.
  destruct (scale_fits_container_exact c initialScale Hw Hh)
    as (Hs & Hlw & Hlh & _).
  fold scale in Hs, Hlw, Hlh.
  split; [rewrite Hs; reflexivity|].
  split; [reflexivity|]. split; [reflexivity|].
  split; assumption.
Defined.

(** The same example evaluated in binary64: the numbers are exact there
    too. *)
Example scale_example_f64 :
  let c := {| clientWidth := 800%float; clientHeight := 600%float |} in
  let scale := calculateScale (Some c) 1600%float 900%float initialScale in
  (PrimFloat.eqb scale 0.5 &&
   PrimFloat.eqb (scaledWidth 1600%float scale) 800 &&
   PrimFloat.eqb (scaledHeight 900%float scale) 450)%bool = true.
Proof. vm_compute. reflexivity. Qed.

(** C5 as it is stated, decided on the numbers the component computes:
    neither scaled dimension exceeds the client dimension, and one of them
    equals it. *)
Definition fitsContainer_f64 (c : Container float)
    (naturalWidth naturalHeight : float) : bool :=
  let scale :=
    calculateScale (Some c) naturalWidth naturalHeight initialScale in
  let sw := scaledWidth naturalWidth scale in
  let sh := scaledHeight naturalHeight scale in
  (PrimFloat.leb sw (clientWidth c) && PrimFloat.leb sh (clientHeight c) &&
   (PrimFloat.eqb sw (clientWidth c) || PrimFloat.eqb sh (clientHeight c)))%bool.

(** In binary64, an 11 x 8 image in an 800 x 600 container gets a scaled
    width above 800 (by one unit in the last place), and neither scaled
    dimension equals the client dimension. *)
Lemma scale_overflows_f64 :
  let c := {| clientWidth := 800%float; clientHeight := 600%float |} in
  let scale := calculateScale (Some c) 11%float 8%float initialScale in
  fitsContainer_f64 c 11 8 = false /\
  PrimFloat.ltb 800 (scaledWidth 11%float scale) = true /\
  PrimFloat.eqb (scaledHeight 8%float scale) 600 = false.
Proof. vm_compute. repeat split; reflexivity. Qed.






End GeometryFacts.

(* ===================================================================== *)
(** * Frame capture and the live analysis loop *)
(* ===================================================================== *)

Module CameraFacts.
Import CameraView.
Local Open Scope nat_scope.

Section Loop.
Variable num : Type.
Variable browser : Browser.

Abbreviation State := (State num).
Abbreviation Event := (Event num).
Abbreviation step := (@step num browser).
Abbreviation run := (@run num browser).
Abbreviation reachable := (@reachable num browser).

(** What holds between two events of a mounted component: the interval
    whose handle is in the ref is the only live one and exists exactly
    while [isAnalyzing]; handles are positive; a button that needs the
    stream was only ever pressed with it; recording excludes analysis; and
    [isProcessingFrame] is set exactly while a call is pending. *)
Record Inv (s : State) : Prop := mkInv {
  inv_timers :
    timers s = match analysisIntervalRef s with
               | Some h => [h]
               | None => []
               end;
  inv_armed :
    isAnalyzing s = match analysisIntervalRef s with
                    | Some _ => true
                    | None => false
                    end;
  inv_handle :
    1 <= nextHandle s /\
    forall h, analysisIntervalRef s = Some h -> 1 <= h;
  inv_stream :
    (isAnalyzing s || isRecording s)%bool = true -> stream s = true;
  inv_exclusive : (isAnalyzing s && isRecording s)%bool = false;
  inv_pending : inFlight s = if isProcessingFrame s then 1 else 0
}.

Ltac break_state s :=
  destruct s as [faces0 count0 err0 reg0 snap0 size0 ana0 rec0 vid0 ref0
                 proc0 mr0 str0 kp0 op0 tim0 next0 fl0 cap0 invs0].

Lemma remove_single (h : nat) : remove Nat.eq_dec h [h] = [].
Proof. simpl. destruct (Nat.eq_dec h h); congruence. Qed.

Lemma Inv_mount people opts : Inv (mount num people opts).
Proof.
  constructor; simpl; try reflexivity; try discriminate.
  split; [lia | discriminate].
Qed.

(** The three ways a tick can end: nothing done; a frame asked for and
    none usable; a frame captured and submitted. *)
Lemma analyzeRealtimeFrame_cases (s : State) :
  analyzeRealtimeFrame browser s = s \/
  analyzeRealtimeFrame browser s = set_captures (S (captures s)) s \/
  (isProcessingFrame s = false /\
   exists frame,
     analyzeRealtimeFrame browser s
     = set_invocations
         (invocations s ++
          [{| inv_frame := frame; inv_knownPeople := knownPeople s;
              inv_options := options s |}])
         (set_inFlight (S (inFlight s))
            (set_isProcessingFrame true (set_captures (S (captures s)) s)))).
Proof.
  unfold analyzeRealtimeFrame.
  destruct (videoRef s) as [video|]; [|left; reflexivity].
  destruct (isProcessingFrame s) eqn:Epr; [left; reflexivity|].
  destruct (paused video); [left; reflexivity|].
  destruct (ended video); [left; reflexivity|].
  cbn [orb].
  destruct (captureFrame browser (Some video)) as [frame|];
    [|right; left; reflexivity].
  destruct (falsy (Some frame)); [right; left; reflexivity|].
  right; right. split; [reflexivity|]. exists frame.
  break_state s. reflexivity.
Qed.

Ltac side :=
  simpl in *; try assumption; try (intros; assumption);
  try solve [repeat match goal with b : bool |- _ => destruct b end;
             simpl in *; intuition congruence].

Ltac finish_effect :=
  repeat split; try reflexivity; try lia; try discriminate;
  try (let h := fresh "h" in let E := fresh "E" in
       intros h E; inversion E; lia).

Lemma Inv_rerunEffect (s : State) :
  timers s = match analysisIntervalRef s with
             | Some h => [h]
             | None => []
             end ->
  (1 <= nextHandle s /\ forall h, analysisIntervalRef s = Some h -> 1 <= h) ->
  let s' := rerunEffect s in
  timers s' = match analysisIntervalRef s' with
              | Some h => [h]
              | None => []
              end /\
  isAnalyzing s' = match analysisIntervalRef s' with
                   | Some _ => true
                   | None => false
                   end /\
  (1 <= nextHandle s' /\
   forall h, analysisIntervalRef s' = Some h -> 1 <= h) /\
  isAnalyzing s' = isAnalyzing s /\ isRecording s' = isRecording s /\
  stream s' = stream s /\ inFlight s' = inFlight s /\
  isProcessingFrame s' = isProcessingFrame s /\
  detectedFaces s' = detectedFaces s /\ personCount s' = personCount s /\
  invocations s' = invocations s /\ captures s' = captures s.
Proof.
  break_state s. simpl. intros Ht [Hn Hh].
  unfold rerunEffect, effectCleanup, effectBody, setInterval, clearInterval.
  destruct ref0 as [h|]; simpl in *.
  - assert (1 <= h) as Hpos by (apply Hh; reflexivity).
    destruct h as [|h']; [lia|]. subst tim0. simpl.
    destruct (Nat.eq_dec h' h') as [_|Hne]; [simpl|congruence].
    destruct ana0; simpl.
    + finish_effect.
    + destruct (Nat.eq_dec h' h') as [_|Hne]; [simpl|congruence].
      finish_effect.
  - subst tim0. destruct ana0; simpl; finish_effect.
Qed.

Lemma Inv_step (s : State) (e : Event) : Inv s -> Inv (step s e).
Proof.
  intros [Ht Ha Hh Hs Hx Hp].
  destruct e; unfold step.
  - (* Tick *)
    destruct (in_dec Nat.eq_dec handle (timers s)); [|constructor; assumption].
    destruct (analyzeRealtimeFrame_cases s) as [E | [E | (Epr & frame & E)]];
      rewrite E; clear E.
    + constructor; assumption.
    + break_state s. simpl in *. constructor; simpl; assumption.
    + break_state s. simpl in *. constructor; simpl; try assumption.
      subst proc0. subst fl0. reflexivity.
  - (* Resolved *)
    destruct (inFlight s) as [|k] eqn:Ef;
      [constructor; try assumption; rewrite Ef; assumption|].
    unfold analyzeResolved.
    break_state s. simpl in *.
    destruct (truthyHandle ref0); constructor; simpl; try assumption;
      destruct proc0; simpl in *; lia.
  - (* Rejected *)
    destruct (inFlight s) as [|k] eqn:Ef;
      [constructor; try assumption; rewrite Ef; assumption|].
    unfold analyzeRejected.
    break_state s. simpl in *.
    constructor; simpl; try assumption. destruct proc0; simpl in *; lia.
  - (* ClickAnalyze *)
    destruct (analyzeDisabled s) eqn:Ed; [constructor; assumption|].
    unfold analyzeDisabled in Ed. apply orb_false_elim in Ed.
    destruct Ed as [Estr Erec]. apply negb_false_iff in Estr.
    set (s1 := handleToggleAnalysis s).
    assert (Ht1 : timers s1 = match analysisIntervalRef s1 with
                              | Some h => [h] | None => [] end).
    { unfold s1, handleToggleAnalysis. break_state s. simpl in *.
      destruct ana0; simpl; assumption. }
    assert (Hh1 : 1 <= nextHandle s1 /\
                  forall h, analysisIntervalRef s1 = Some h -> 1 <= h).
    { unfold s1, handleToggleAnalysis. break_state s. simpl in *.
      destruct ana0; simpl; assumption. }
    destruct (Inv_rerunEffect s1 Ht1 Hh1)
      as (T & A & H & Ea & Er & Es & Ef & Ep & _).
    assert (isRecording s1 = false /\ stream s1 = true /\
            inFlight s1 = inFlight s /\
            isProcessingFrame s1 = isProcessingFrame s) as (R1 & S1 & F1 & P1).
    { unfold s1, handleToggleAnalysis. break_state s. simpl in *.
      destruct ana0; simpl; auto. }
    constructor; try assumption.
    + intros _. rewrite Es. assumption.
    + rewrite Er, R1. apply andb_false_r.
    + rewrite Ef, Ep, F1, P1. assumption.
  - (* ClickRecord *)
    destruct (recordDisabled s) eqn:Ed; [constructor; assumption|].
    unfold recordDisabled in Ed. apply orb_false_elim in Ed.
    destruct Ed as [Estr Eana]. apply negb_false_iff in Estr.
    destruct (isRecording s) eqn:Erec.
    + unfold handleStopRecording.
      destruct (mediaRecorderRef s) as [[|]|];
        try (constructor; try assumption; rewrite Erec; assumption).
      break_state s. constructor; side.
    + unfold handleStartRecording. rewrite Estr.
      break_state s. constructor; side.
  - (* ClickRegister *)
    destruct (registerDisabled s); [constructor; assumption|].
    unfold handleRegisterClick.
    destruct (falsy (captureFrame browser (videoRef s)));
      break_state s; simpl in *; constructor; simpl; assumption.
  - (* StreamGranted *)
    break_state s. simpl in *. constructor; simpl; try assumption.
    reflexivity.
  - (* VideoChanged *)
    break_state s. simpl in *. constructor; simpl; assumption.
  - (* MetadataLoaded *)
    unfold handleMetadataLoaded.
    destruct (videoRef s); [|constructor; assumption].
    break_state s. simpl in *. constructor; simpl; assumption.
  - (* PropsChanged *)
    set (s1 := set_options opts (set_knownPeople people s)).
    assert (Ht1 : timers s1 = match analysisIntervalRef s1 with
                              | Some h => [h] | None => [] end)
      by (unfold s1; break_state s; simpl in *; assumption).
    assert (Hh1 : 1 <= nextHandle s1 /\
                  forall h, analysisIntervalRef s1 = Some h -> 1 <= h)
      by (unfold s1; break_state s; simpl in *; assumption).
    destruct (Inv_rerunEffect s1 Ht1 Hh1)
      as (T & A & H & Ea & Er & Es & Ef & Ep & _).
    assert (isAnalyzing s1 = isAnalyzing s /\ isRecording s1 = isRecording s /\
            stream s1 = stream s /\ inFlight s1 = inFlight s /\
            isProcessingFrame s1 = isProcessingFrame s)
      as (A1 & R1 & S1 & F1 & P1)
      by (unfold s1; break_state s; simpl; auto).
    constructor; try assumption.
    + rewrite Ea, Er, Es, A1, R1, S1. assumption.
    + rewrite Ea, Er, A1, R1. assumption.
    + rewrite Ef, Ep, F1, P1. assumption.
  - (* RecorderEnded *)
    destruct (mediaRecorderRef s) as [[|]|]; constructor; assumption.
Qed.

Lemma Inv_run (evs : list Event) (s : State) : Inv s -> Inv (run s evs).
Proof.
  revert s. induction evs as [|e evs IH]; intros s Hs; simpl.
  - assumption.
  - apply IH. apply Inv_step. assumption.
Qed.

Lemma reachable_Inv (s : State) : reachable s -> Inv s.
Proof.
  intros (people & opts & evs & ->). apply Inv_run. apply Inv_mount.
Qed.

Lemma run_app (s : State) (evs1 evs2 : list Event) :
  run s (evs1 ++ evs2) = run (run s evs1) evs2.
Proof. unfold CameraView.run. apply fold_left_app. Qed.

Lemma run_cons (s : State) (e : Event) (evs : list Event) :
  run s (e :: evs) = run (step s e) evs.
Proof. reflexivity. Qed.

Lemma reachable_run (s : State) (evs : list Event) :
  reachable s -> reachable (run s evs).
Proof.
  intros (people & opts & evs0 & ->).
  exists people, opts, (evs0 ++ evs). symmetry. apply run_app.
Qed.

(** The interval effect touches nothing but the ref and the timers. *)
Lemma rerunEffect_frame (s : State) :
  let s' := rerunEffect s in
  isAnalyzing s' = isAnalyzing s /\ isRecording s' = isRecording s /\
  detectedFaces s' = detectedFaces s /\ personCount s' = personCount s /\
  invocations s' = invocations s.
Proof.
  break_state s.
  unfold rerunEffect, effectCleanup, effectBody, setInterval, clearInterval.
  destruct ref0 as [[|h]|], ana0; simpl; repeat split; reflexivity.
Qed.

(** Only a timer event can call the collaborator. *)
Lemma step_invocations_other (s : State) (e : Event) :
  isTick e = false -> invocations (step s e) = invocations s.
Proof.
  destruct e; simpl; try discriminate; intros _.
  - destruct (inFlight s); [reflexivity|].
    unfold analyzeResolved. break_state s. simpl.
    destruct (truthyHandle ref0); reflexivity.
  - destruct (inFlight s); reflexivity.
  - destruct (analyzeDisabled s); [reflexivity|].
    destruct (rerunEffect_frame (handleToggleAnalysis s))
      as (_ & _ & _ & _ & E).
    rewrite E. unfold handleToggleAnalysis.
    destruct (isAnalyzing s); reflexivity.
  - destruct (recordDisabled s); [reflexivity|].
    destruct (isRecording s).
    + unfold handleStopRecording.
      destruct (mediaRecorderRef s) as [[|]|]; reflexivity.
    + unfold handleStartRecording. destruct (stream s); reflexivity.
  - destruct (registerDisabled s); [reflexivity|].
    unfold handleRegisterClick.
    destruct (falsy (captureFrame browser (videoRef s))); reflexivity.
  - reflexivity.
  - reflexivity.
  - unfold handleMetadataLoaded. destruct (videoRef s); reflexivity.
  - destruct (rerunEffect_frame (set_options opts (set_knownPeople people s)))
      as (_ & _ & _ & _ & E).
    rewrite E. reflexivity.
  - destruct (mediaRecorderRef s) as [[|]|]; reflexivity.
Qed.

Lemma step_invocations_le (s : State) (e : Event) :
  List.length (invocations (step s e))
  <= List.length (invocations s) + (if isTick e then 1 else 0).
Proof.
  destruct (isTick e) eqn:Et.
  - destruct e; try discriminate. simpl.
    destruct (in_dec Nat.eq_dec handle (timers s)); [|lia].
    destruct (analyzeRealtimeFrame_cases s) as [E | [E | (_ & frame & E)]];
      rewrite E; simpl; try lia.
    rewrite length_app. simpl. lia.
  - rewrite (step_invocations_other s e Et). lia.
Qed.

Lemma ticks_cons (e : Event) (evs : list Event) :
  ticks (e :: evs) = (if isTick e then 1 else 0) + ticks evs.
Proof. unfold ticks. simpl. destruct (isTick e); reflexivity. Qed.

Lemma ticks_app (evs1 evs2 : list Event) :
  ticks (evs1 ++ evs2) = ticks evs1 + ticks evs2.
Proof.
  unfold ticks. rewrite filter_app, length_app. reflexivity.
Qed.

(** A trace calls the collaborator at most once per timer event. *)
Lemma run_invocations_le (evs : list Event) (s : State) :
  List.length (invocations (run s evs))
  <= List.length (invocations s) + ticks evs.
Proof.
  revert s. induction evs as [|e evs IH]; intros s.
  - simpl. lia.
  - rewrite run_cons, ticks_cons.
    specialize (IH (step s e)).
    pose proof (step_invocations_le s e). lia.
Qed.

Lemma run_invocations_no_tick (evs : list Event) (s : State) :
  ticks evs = 0 -> invocations (run s evs) = invocations s.
Proof.
  revert s. induction evs as [|e evs IH]; intros s Ht; [reflexivity|].
  rewrite ticks_cons in Ht. rewrite run_cons.
  destruct (isTick e) eqn:Et; [discriminate|].
  rewrite IH by assumption.
  apply step_invocations_other. assumption.
Qed.

(** The reentrancy guard: with [isProcessingFrame] set, a tick returns at
    once. *)
Lemma tick_while_processing (s : State) (h : nat) :
  isProcessingFrame s = true -> step s (Tick num h) = s.
Proof.
  intros Hp. simpl.
  destruct (in_dec Nat.eq_dec h (timers s)); [|reflexivity].
  unfold analyzeRealtimeFrame. rewrite Hp.
  destruct (videoRef s); reflexivity.
Qed.

Lemma pending_processing (s : State) :
  Inv s -> 0 < inFlight s -> isProcessingFrame s = true.
Proof.
  intros HI Hf. pose proof (inv_pending HI) as E.
  destruct (isProcessingFrame s); [reflexivity | lia].
Qed.

(** C1: in every state the component can reach at most one recognition
    call is pending; a tick that arrives while one is pending changes
    nothing at all (no frame is captured, no call made, nothing is put
    aside for later), and the result arriving later starts no call either;
    so a trace with three ticks, one of which arrives while a call is
    pending, makes at most two calls. *)
Theorem live_loop_single_flight (s : State) :
  reachable s ->
  inFlight s <= 1 /\
  (forall h, 0 < inFlight s -> step s (Tick num h) = s) /\
  (forall r, invocations (step s (Resolved r)) = invocations s) /\
  (forall pre h post,
     0 < inFlight (run s pre) ->
     ticks (pre ++ Tick num h :: post) = 3 ->
     List.length (invocations (run s (pre ++ Tick num h :: post)))
     <= List.length (invocations s) + 2).
Proof.
  intros Hr. pose proof (reachable_Inv Hr) as HI.
  split; [|split; [|split]].
  - rewrite (inv_pending HI). destruct (isProcessingFrame s); lia.
  - intros h Hf. apply tick_while_processing.
    apply pending_processing; assumption.
  - intros r. apply step_invocations_other. reflexivity.
  - intros pre h post Hf Ht.
    rewrite run_app, run_cons.
    assert (HIp : Inv (run s pre)) by (apply Inv_run; assumption).
    rewrite (tick_while_processing (run s pre) h
               (pending_processing HIp Hf)).
    rewrite ticks_app, ticks_cons in Ht. simpl in Ht.
    pose proof (run_invocations_le post (run s pre)) as Hpost.
    pose proof (run_invocations_le pre s) as Hpre.
    lia.
Qed.

(** The state analysis leaves behind once switched off. *)
Record Stopped (s : State) : Prop := mkStopped {
  stopped_inv : Inv s;
  stopped_idle : isAnalyzing s = false;
  stopped_faces : detectedFaces s = [];
  stopped_count : personCount s = 0%Z
}.

Lemma stopped_ref (s : State) :
  Stopped s -> analysisIntervalRef s = None /\ timers s = [].
Proof.
  intros [HI Ha _ _].
  pose proof (inv_armed HI) as E. pose proof (inv_timers HI) as T.
  rewrite Ha in E. destruct (analysisIntervalRef s); [discriminate|].
  split; [reflexivity | assumption].
Qed.

Lemma stopped_step (s : State) (e : Event) :
  Stopped s -> isClickAnalyze e = false ->
  Stopped (step s e) /\ invocations (step s e) = invocations s.
Proof.
  intros HS He. pose proof (stopped_ref HS) as [Href Htim].
  destruct HS as [HI Ha Hf Hc].
  assert (HI' : Inv (step s e)) by (apply Inv_step; assumption).
  destruct e; try discriminate.
  - (* Tick: no interval is live *)
    simpl in *. rewrite Htim in *. simpl in *.
    split; [constructor; assumption | reflexivity].
  - split; [|apply step_invocations_other; reflexivity].
    simpl in *. destruct (inFlight s); [constructor; assumption|].
    constructor; try assumption;
      unfold analyzeResolved; break_state s; simpl in *; subst ref0;
      simpl; assumption.
  - split; [|apply step_invocations_other; reflexivity].
    simpl in *. destruct (inFlight s); [constructor; assumption|].
    constructor; try assumption;
      unfold analyzeRejected; break_state s; simpl in *; assumption.
  - split; [|apply step_invocations_other; reflexivity].
    simpl in *. destruct (recordDisabled s); [constructor; assumption|].
    destruct (isRecording s).
    + unfold handleStopRecording in *.
      destruct (mediaRecorderRef s) as [[|]|]; constructor; assumption.
    + unfold handleStartRecording in *.
      destruct (stream s); constructor; assumption.
  - split; [|apply step_invocations_other; reflexivity].
    simpl in *. destruct (registerDisabled s); [constructor; assumption|].
    unfold handleRegisterClick in *.
    destruct (falsy (captureFrame browser (videoRef s)));
      constructor; assumption.
  - split; [constructor; assumption | reflexivity].
  - split; [constructor; assumption | reflexivity].
  - split; [|apply step_invocations_other; reflexivity].
    simpl in *. unfold handleMetadataLoaded in *.
    destruct (videoRef s); constructor; assumption.
  - split; [|apply step_invocations_other; reflexivity].
    simpl in *.
    destruct (rerunEffect_frame (set_options opts (set_knownPeople people s)))
      as (Ea & _ & Ef & Ec & _).
    constructor; [assumption | rewrite Ea | rewrite Ef | rewrite Ec];
      assumption.
  - split; [|apply step_invocations_other; reflexivity].
    simpl in *.
    destruct (mediaRecorderRef s) as [[|]|]; constructor; assumption.
Qed.

Definition noToggle (evs : list Event) : bool :=
  forallb (fun e => negb (isClickAnalyze e)) evs.

Lemma stopped_run (evs : list Event) (s : State) :
  Stopped s -> noToggle evs = true ->
  Stopped (run s evs) /\ invocations (run s evs) = invocations s.
Proof.
  revert s. induction evs as [|e evs IH]; intros s HS Hn.
  - split; [assumption | reflexivity].
  - simpl in Hn. apply andb_true_iff in Hn. destruct Hn as [He Hn].
    apply negb_true_iff in He.
    destruct (stopped_step e HS He) as [HS' E'].
    destruct (IH (step s e) HS' Hn) as [HS'' E''].
    rewrite run_cons. split; [assumption|].
    rewrite E''. assumption.
Qed.

(** Pressing "Stop" while analysis is on. *)
Lemma toggle_off (s : State) :
  Inv s -> isAnalyzing s = true ->
  Stopped (step s (ClickAnalyze num)) /\
  invocations (step s (ClickAnalyze num)) = invocations s.
Proof.
  intros HI Ha.
  assert (HI' : Inv (step s (ClickAnalyze num)))
    by (apply Inv_step; assumption).
  split; [|apply step_invocations_other; reflexivity].
  assert (Hs : stream s = true)
    by (apply (inv_stream HI); rewrite Ha; reflexivity).
  assert (Hr : isRecording s = false).
  { pose proof (inv_exclusive HI) as X. rewrite Ha in X. exact X. }
  simpl in *. unfold analyzeDisabled in *. rewrite Hs, Hr in *.
  simpl in *.
  destruct (rerunEffect_frame (handleToggleAnalysis s))
    as (Ea & _ & Ef & Ec & _).
  constructor; [assumption | rewrite Ea | rewrite Ef | rewrite Ec];
    unfold handleToggleAnalysis; rewrite Ha; reflexivity.
Qed.

(** C2: when analysis is on and "Stop" is pressed, the face list and the
    person count are empty at once and stay empty through every later
    event short of another press of the button: no interval is left to
    fire, no call is made, and the result of a call still pending is
    dropped.  If no tick had fired before the press, no call was ever
    made. *)
Theorem toggle_off_clears
    (people : list KnownPerson) (opts : RecognitionOptions)
    (before evs : list Event) :
  let s := run (mount num people opts) before in
  let s1 := step s (ClickAnalyze num) in
  let s2 := run s1 evs in
  isAnalyzing s = true ->
  noToggle evs = true ->
  (isAnalyzing s1 = false /\ detectedFaces s1 = [] /\
   personCount s1 = 0%Z) /\
  (isAnalyzing s2 = false /\ detectedFaces s2 = [] /\
   personCount s2 = 0%Z) /\
  timers s2 = [] /\
  invocations s2 = invocations s /\
  (forall r, detectedFaces (step s2 (Resolved r)) = []) /\
  (ticks before = 0 -> invocations s2 = []).
Proof.
  intros s s1 s2 Ha Hn.
  assert (HI : Inv s) by (apply Inv_run, Inv_mount).
  destruct (toggle_off HI Ha) as [HS1 E1]. fold s1 in HS1, E1.
  destruct (stopped_run evs HS1 Hn) as [HS2 E2]. fold s2 in HS2, E2.
  split; [destruct HS1; auto|].
  split; [destruct HS2; auto|].
  split; [apply (stopped_ref HS2)|].
  split; [congruence|].
  split.
  - intros r.
    assert (Hr : isClickAnalyze (Resolved r) = false) by reflexivity.
    destruct (stopped_step (Resolved r) HS2 Hr) as [[_ _ F _] _]. exact F.
  - intros Ht. rewrite E2, E1. unfold s.
    rewrite run_invocations_no_tick by assumption. reflexivity.
Qed.

(** C9: in no state the component can reach are recording and analysis on
    together; an event that starts a recording finds analysis off, and an
    event that switches analysis on finds no recording under way. *)
Theorem recording_excludes_analysis (s : State) :
  reachable s ->
  (isRecording s && isAnalyzing s)%bool = false /\
  (forall e, isRecording s = false -> isRecording (step s e) = true ->
             isAnalyzing s = false) /\
  (forall e, isAnalyzing s = false -> isAnalyzing (step s e) = true ->
             isRecording s = false).
Proof.
  intros Hr. pose proof (reachable_Inv Hr) as HI.
  split; [|split].
  - rewrite andb_comm. apply (inv_exclusive HI).
  - intros e Hoff Hon.
    assert (HI' : Inv (step s e)) by (apply Inv_step; assumption).
    destruct (isAnalyzing s) eqn:Ha; [|reflexivity].
    assert (He : isAnalyzing (step s e) = false).
    { pose proof (inv_exclusive HI') as X. rewrite Hon in X.
      rewrite andb_true_r in X. exact X. }
    (* analysis went off in the same step: the event was the toggle *)
    destruct e; simpl in *;
      try (rewrite Ha in He; discriminate).
    + destruct (in_dec Nat.eq_dec handle (timers s));
        [|congruence].
      destruct (analyzeRealtimeFrame_cases s)
        as [E | [E | (_ & frame & E)]];
        rewrite E in He; simpl in He; congruence.
    + destruct (inFlight s); [congruence|].
      unfold analyzeResolved in He. break_state s. simpl in *.
      destruct (truthyHandle ref0); simpl in He; congruence.
    + destruct (inFlight s); [congruence|]. simpl in He. congruence.
    + destruct (analyzeDisabled s); [congruence|].
      destruct (rerunEffect_frame (handleToggleAnalysis s))
        as (_ & Er & _).
      rewrite Er in Hon. unfold handleToggleAnalysis in Hon.
      rewrite Ha in Hon. simpl in Hon. congruence.
    + unfold recordDisabled in *. rewrite Ha in *.
      rewrite orb_true_r in *. congruence.
    + destruct (registerDisabled s); [congruence|].
      unfold handleRegisterClick in He.
      destruct (falsy (captureFrame browser (videoRef s)));
        simpl in He; congruence.
    + unfold handleMetadataLoaded in He.
      destruct (videoRef s); simpl in He; congruence.
    + destruct (rerunEffect_frame
                  (set_options opts (set_knownPeople people s)))
        as (Ea & _).
      rewrite Ea in He. simpl in He. congruence.
    + destruct (mediaRecorderRef s) as [[|]|]; simpl in He; congruence.
  - intros e Hoff Hon.
    assert (HI' : Inv (step s e)) by (apply Inv_step; assumption).
    destruct (isRecording s) eqn:Hrec; [|reflexivity].
    destruct e; simpl in *; try congruence.
    + destruct (in_dec Nat.eq_dec handle (timers s)); [|congruence].
      destruct (analyzeRealtimeFrame_cases s)
        as [E | [E | (_ & frame & E)]];
        rewrite E in Hon; simpl in Hon; congruence.
    + destruct (inFlight s); [congruence|].
      unfold analyzeResolved in Hon. break_state s. simpl in *.
      destruct (truthyHandle ref0); simpl in Hon; congruence.
    + destruct (inFlight s); [congruence|]. simpl in Hon. congruence.
    + unfold analyzeDisabled in Hon. rewrite Hrec in Hon.
      rewrite orb_true_r in Hon. congruence.
    + destruct (recordDisabled s); [congruence|].
      rewrite Hrec in Hon. unfold handleStopRecording in Hon.
      destruct (mediaRecorderRef s) as [[|]|]; simpl in Hon; congruence.
    + destruct (registerDisabled s); [congruence|].
      unfold handleRegisterClick in Hon.
      destruct (falsy (captureFrame browser (videoRef s)));
        simpl in Hon; congruence.
    + unfold handleMetadataLoaded in Hon.
      destruct (videoRef s); simpl in Hon; congruence.
    + destruct (rerunEffect_frame
                  (set_options opts (set_knownPeople people s)))
        as (Ea & _).
      rewrite Ea in Hon. simpl in Hon. congruence.
    + destruct (mediaRecorderRef s) as [[|]|]; simpl in Hon; congruence.
Qed.

End Loop.

(** ** Frame capture *)

(** C7 as amended: [captureFrame] never throws when the DOM calls
    [drawImage] and [toDataURL] do not, as they do not for a video fed by
    the camera, and throws nothing but what one of them throws; it returns
    [null] exactly when no video element is attached or its canvas yields
    no 2D context, and a tick of the live loop that gets [null] ends
    without a call, an error or a change of the loop's state (the count of
    captures apart), so that the next tick tries again; for an attached
    element without intrinsic dimensions it returns the data URL of an
    empty canvas, which is not [null]. *)
Theorem captureFrame_null_iff (num : Type) (b : Browser)
    (dom : DomExceptions) (videoRef : option HTMLVideoElement) :
  captureFrameCompletion b cameraDom videoRef
  = Returns (captureFrame b videoRef) /\
  (forall exn, captureFrameCompletion b dom videoRef = Throws exn ->
     exists video,
       let canvas := {| canvas_width := videoWidth video;
                        canvas_height := videoHeight video |} in
       videoRef = Some video /\ getContext2d b canvas = true /\
       (drawImage_throws dom video canvas = Some exn \/
        toDataURL_throws dom video canvas = Some exn)) /\
  (forall r, captureFrameCompletion b dom videoRef = Returns r ->
     r = captureFrame b videoRef) /\
  (captureFrame b videoRef = None <->
   videoRef = None \/
   exists video, videoRef = Some video /\
     getContext2d b {| canvas_width := videoWidth video;
                       canvas_height := videoHeight video |} = false) /\
  (forall s : State num,
     CameraView.videoRef s = videoRef ->
     captureFrame b videoRef = None ->
     let s' := analyzeRealtimeFrame b s in
     (s' = s \/ s' = set_captures (S (captures s)) s) /\
     invocations s' = invocations s /\
     isProcessingFrame s' = isProcessingFrame s /\
     error s' = error s /\ timers s' = timers s /\
     analysisIntervalRef s' = analysisIntervalRef s) /\
  (forall video, videoRef = Some video ->
     getContext2d b {| canvas_width := videoWidth video;
                       canvas_height := videoHeight video |} = true ->
     videoWidth video = 0%Z \/ videoHeight video = 0%Z ->
     captureFrame b videoRef = Some "data:,"%string /\
     falsy (captureFrame b videoRef) = false).
Proof.
  split; [|split; [|split; [|split; [|split]]]].
  - unfold captureFrameCompletion, captureFrame.
    destruct videoRef as [video|]; [|reflexivity].
    destruct (getContext2d b _); reflexivity.
  - intros exn. unfold captureFrameCompletion.
    destruct videoRef as [video|]; [|discriminate].
    destruct (getContext2d b _) eqn:Ec; [|discriminate].
    destruct (drawImage_throws dom video _) as [e1|] eqn:Ed.
    + intros [= <-]. exists video. cbv zeta. rewrite Ec, Ed. auto.
    + destruct (toDataURL_throws dom video _) as [e2|] eqn:Et;
        [|discriminate].
      intros [= <-]. exists video. cbv zeta. rewrite Ec, Et. auto.
  - intros r. unfold captureFrameCompletion, captureFrame.
    destruct videoRef as [video|]; [|intros [= <-]; reflexivity].
    destruct (getContext2d b _); [|intros [= <-]; reflexivity].
    destruct (drawImage_throws dom video _); [discriminate|].
    destruct (toDataURL_throws dom video _); [discriminate|].
    intros [= <-]. reflexivity.
  - unfold captureFrame. destruct videoRef as [video|].
    + destruct (getContext2d b _) eqn:E; split.
      * discriminate.
      * intros [H | (v & Hv & Hc)]; [discriminate|].
        inversion Hv; subst v. congruence.
      * intros _. right. exists video. split; [reflexivity | assumption].
      * reflexivity.
    + split; [left; reflexivity | reflexivity].
  - intros s Ev Hnull s'. unfold s', analyzeRealtimeFrame. rewrite Ev.
    destruct videoRef as [video|]; [|repeat split; auto].
    destruct (isProcessingFrame s || paused video || ended video)%bool;
      [repeat split; auto|].
    rewrite Hnull. repeat split; auto.
  - intros video -> Hc Hz. unfold captureFrame, toDataURL. rewrite Hc.
    cbn [canvas_width canvas_height].
    assert (((videoWidth video =? 0) || (videoHeight video =? 0))%Z = true)
      as ->.
    { apply orb_true_iff. destruct Hz as [Hz | Hz]; rewrite Hz; auto. }
    split; reflexivity.
Qed.

(** ** The traces of the examples *)

Definition demoBrowser : Browser :=
  {| getContext2d := fun _ => true;
     encodeJpeg := fun _ _ => "data:image/jpeg;base64,/9j/4AAQ"%string |}.

Definition demoVideo : HTMLVideoElement :=
  {| videoWidth := 640; videoHeight := 480;
     paused := false; ended := false |}.

(** An attached element whose metadata has not arrived. *)
Definition blankVideo : HTMLVideoElement :=
  {| videoWidth := 0; videoHeight := 0; paused := true; ended := false |}.

Definition demoOptions : RecognitionOptions :=
  {| recognizeGender := true; countPeople := true |}.

Definition demoResult : RecognitionResult Q :=
  {| faces :=
       [MediaDisplay.faceOfBox
          {| x := 1 # 4; y := 1 # 10; width := 3 # 10; height := 2 # 5 |}];
     Types.personCount := 1 |}.

(** Camera granted, video playing, "Analyze" pressed. *)
Definition armed : list (Event Q) :=
  [StreamGranted Q; VideoChanged Q (Some demoVideo); ClickAnalyze Q].

Definition demoMount : State Q := mount Q [] demoOptions.

(** C7 as it is stated fails: with the element attached but still 0 x 0,
    and a 2D context to be had, the element is not ready and yet
    [captureFrame] returns the string [data:,], which is not falsy; pressing
    "Register" at that moment opens the dialog with it as the snapshot. *)
Lemma captureFrame_blank_video_not_null :
  notReady demoBrowser (Some blankVideo) /\
  captureFrame demoBrowser (Some blankVideo) = Some "data:,"%string /\
  falsy (captureFrame demoBrowser (Some blankVideo)) = false /\
  (let s :=
     run demoBrowser demoMount
       [StreamGranted Q; VideoChanged Q (Some blankVideo);
        ClickRegister Q] in
   snapshot s = Some "data:,"%string /\ isRegistering s = true).
Proof.
  split; [left; reflexivity|]. repeat split; reflexivity.
Qed.

(** Three periods with a slow first call: the second tick is skipped. *)
Lemma live_loop_single_flight_witness :
  List.length
    (invocations
       (run demoBrowser (run demoBrowser demoMount armed)
          [Tick Q 1; Tick Q 1; Resolved demoResult; Tick Q 1]))
  <= 2.
Proof.
  assert (Hr : reachable demoBrowser (run demoBrowser demoMount armed)).
  { exists [], demoOptions, armed. reflexivity. }
  destruct (live_loop_single_flight Hr) as (_ & _ & _ & H3).
  apply (H3 [Tick Q 1] 1 [Resolved demoResult; Tick Q 1]).
  - vm_compute. lia.
  - reflexivity.
Defined.

(** In that trace the two calls are made; had the first call resolved
    before the second tick, there would be three. *)
Example slow_call_counts :
  List.length
    (invocations
       (run demoBrowser (run demoBrowser demoMount armed)
          [Tick Q 1; Tick Q 1; Resolved demoResult; Tick Q 1])) = 2 /\
  List.length
    (invocations
       (run demoBrowser (run demoBrowser demoMount armed)
          [Tick Q 1; Resolved demoResult; Tick Q 1;
           Resolved demoResult; Tick Q 1])) = 3.
Proof. split; reflexivity. Qed.

(** "Stop" pressed with a call pending: its result, delivered later, is
    not shown, and the one call made before the press stays the only
    one. *)
Lemma toggle_off_clears_witness :
  let s2 :=
    run demoBrowser
      (step demoBrowser
         (run demoBrowser demoMount (armed ++ [Tick Q 1])) (ClickAnalyze Q))
      [Resolved demoResult; Tick Q 1; MetadataLoaded Q] in
  detectedFaces s2 = [] /\ personCount s2 = 0%Z /\
  List.length (invocations s2) = 1.
Proof.
  intros s2.
  destruct (toggle_off_clears demoBrowser [] demoOptions
              (armed ++ [Tick Q 1])
              [Resolved demoResult; Tick Q 1; MetadataLoaded Q]
              eq_refl eq_refl)
    as (_ & (_ & F & C) & _ & E & _).
  split; [exact F|]. split; [exact C|].
  unfold s2. unfold demoMount. rewrite E. reflexivity.
Defined.

(** "Stop" pressed right after "Analyze", before any tick. *)
Example stop_before_first_tick :
  let s2 :=
    run demoBrowser demoMount
      (armed ++ [ClickAnalyze Q; Tick Q 1; Tick Q 1]) in
  invocations s2 = [] /\ detectedFaces s2 = [] /\ captures s2 = 0.
Proof. repeat split; reflexivity. Qed.

(** With a recording under way the "Analyze" button does nothing. *)
Lemma recording_excludes_analysis_witness :
  let s := run demoBrowser demoMount [StreamGranted Q; ClickRecord Q] in
  isRecording s = true /\ (isRecording s && isAnalyzing s)%bool = false /\
  isAnalyzing (step demoBrowser s (ClickAnalyze Q)) = false.
Proof.
  intros s.
  assert (Hr : reachable demoBrowser s).
  { exists [], demoOptions, [StreamGranted Q; ClickRecord Q]. reflexivity. }
  destruct (recording_excludes_analysis Hr) as (Hx & _ & Hon).
  split; [reflexivity|]. split; [exact Hx|].
  destruct (isAnalyzing (step demoBrowser s (ClickAnalyze Q))) eqn:E;
    [|reflexivity].
  assert (isRecording s = false) as Hf
    by (apply (Hon (ClickAnalyze Q)); [reflexivity | exact E]).
  vm_compute in Hf. discriminate Hf.
Defined.

End CameraFacts.

(* ===================================================================== *)
(** * The batch run *)
(* ===================================================================== *)

Module BatchFacts.
Import BatchAnalyzer.
Local Open Scope nat_scope.

Section Run.
Variable num : Type.
Variable createObjectURL : File -> string.

Abbreviation ImageFileState := (ImageFileState num).
Abbreviation State := (State num).
Abbreviation Event := (Event num).
Abbreviation step := (@step num createObjectURL).
Abbreviation run := (@run num createObjectURL).
Abbreviation settledCalls := (@settledCalls num createObjectURL).

(** ** Lists of entries and slots *)

Lemma updateById_ids (target : string)
    (change : ImageFileState -> ImageFileState) (l : list ImageFileState) :
  (forall f, id (change f) = id f) ->
  map (@id num) (updateById target change l) = map (@id num) l.
Proof.
  intros Hc. unfold updateById. rewrite map_map. apply map_ext.
  intros f. destruct (String.eqb (id f) target); [apply Hc | reflexivity].
Qed.

Lemma in_updateById (target : string)
    (change : ImageFileState -> ImageFileState) (l : list ImageFileState)
    (f' : ImageFileState) :
  In f' (updateById target change l) ->
  exists f, In f l /\
    ((id f = target /\ f' = change f) \/ (id f <> target /\ f' = f)).
Proof.
  unfold updateById. rewrite in_map_iff. intros (f & E & Hin).
  exists f. split; [assumption|].
  destruct (String.eqb_spec (id f) target); [left | right]; auto.
Qed.

Lemma setSlot_length (w : nat) (v : option ImageFileState)
    (l : list (option ImageFileState)) :
  List.length (setSlot w v l) = List.length l.
Proof.
  revert w. induction l as [|h t IH]; intros [|w]; simpl; auto.
Qed.

Lemma in_setSlot (w : nat) (v x : option ImageFileState)
    (l : list (option ImageFileState)) :
  In x (setSlot w v l) -> x = v \/ In x l.
Proof.
  revert w. induction l as [|h t IH]; intros [|w]; simpl; auto.
  - intros [E | Hin]; auto.
  - intros [E | Hin]; auto. destruct (IH w Hin); auto.
Qed.

Lemma setSlot_keeps (w : nat) (v x : option ImageFileState)
    (l : list (option ImageFileState)) :
  In x l -> In x (setSlot w v l) \/ nth_error l w = Some x.
Proof.
  revert w. induction l as [|h t IH]; intros [|w]; simpl; auto.
  - intros [E | Hin]; [right; congruence | left; auto].
  - intros [E | Hin]; [left; auto|].
    destruct (IH w Hin); auto.
Qed.

Lemma in_setSlot_new (w : nat) (v : option ImageFileState)
    (l : list (option ImageFileState)) :
  w < List.length l -> In v (setSlot w v l).
Proof.
  revert w. induction l as [|h t IH]; intros [|w]; simpl; try lia; auto.
  intros Hw. right. apply IH. lia.
Qed.

(** ** The run, seen from the click that started it *)

(** What holds from the click on: the list keeps its ids; the calls made
    followed by the queue are the calls made before the click followed by
    the files to process; there are three slots; and every entry to process
    is still queued, or held by a worker, or settled. *)
Record RunInv (ids0 : list string) (log0 todo : list ImageFileState)
    (s : State) : Prop := mkRunInv {
  ri_ids : map (@id num) (imageFiles s) = ids0;
  ri_log : invocations s ++ queue s = log0 ++ todo;
  ri_slots : List.length (workers s) = CONCURRENCY_LIMIT;
  ri_items :
    forall f, In f (imageFiles s) -> In (id f) (map (@id num) todo) ->
      In (id f) (map (@id num) (queue s)) \/
      (exists g, In (Some g) (workers s) /\ id g = id f) \/
      settled f
}.

(** No worker has ended while files are queued. *)
Definition allBusy (s : State) : Prop :=
  queue s <> [] -> forall o, In o (workers s) -> o <> None.

(** [isBatchLoading] is reset exactly when the last worker ends. *)
Definition loadingWhileBusy (s : State) : Prop :=
  isBatchLoading s = negb (forallb (@isNone num) (workers s)).

Lemma settled_done (f : ImageFileState) (r : RecognitionResult num) :
  settled (set_result (Some r) (set_status done f)).
Proof. left. split; [reflexivity | discriminate]. Qed.

Lemma settled_error (f : ImageFileState) : settled (set_status error f).
Proof. right. reflexivity. Qed.

Lemma RunInv_processEnd ids0 log0 todo (s : State)
    (g : ImageFileState) (outcome : option (RecognitionResult num)) :
  RunInv ids0 log0 todo s ->
  RunInv ids0 log0 todo (processEnd g outcome s) /\
  (forall f, In f (imageFiles (processEnd g outcome s)) ->
             id f = id g -> settled f).
Proof.
  intros [Hids Hlog Hslots Hitems].
  assert (Hshape : exists change,
            (forall f, id (change f) = id f) /\
            (forall f, settled (change f)) /\
            processEnd g outcome s
            = set_imageFiles
                (updateById (id g) change (imageFiles s)) s).
  { destruct outcome as [r|].
    - exists (fun f => set_result (Some r) (set_status done f)).
      repeat split; auto using settled_done.
    - exists (set_status error).
      repeat split; auto using settled_error. }
  destruct Hshape as (change & Hid & Hset & ->).
  split.
  - constructor; simpl; try assumption.
    + rewrite updateById_ids; assumption.
    + intros f' Hin Htodo.
      apply in_updateById in Hin.
      destruct Hin as (f & Hf & [[E ->] | [Hne ->]]).
      * right; right. apply Hset.
      * apply Hitems; assumption.
  - simpl. intros f' Hin Eid.
    apply in_updateById in Hin.
    destruct Hin as (f & Hf & [[E ->] | [Hne ->]]).
    + apply Hset.
    + congruence.
Qed.

Lemma RunInv_workerLoop ids0 log0 todo (s : State) (w : nat) :
  RunInv ids0 log0 todo s ->
  (forall g, nth_error (workers s) w = Some (Some g) ->
     forall f, In f (imageFiles s) -> id f = id g -> settled f) ->
  w < CONCURRENCY_LIMIT ->
  RunInv ids0 log0 todo (workerLoop w s).
Proof.
  intros [Hids Hlog Hslots Hitems] Hold Hw. unfold workerLoop.
  destruct (queue s) as [|h rest] eqn:Eq.
  - constructor; simpl; try assumption.
    + rewrite ?Eq. assumption.
    + rewrite setSlot_length. assumption.
    + intros f Hin Htodo.
      destruct (Hitems f Hin Htodo) as [Hq | [(g & Hg & Eg) | Hs]].
      * rewrite ?Eq in Hq. destruct Hq.
      * destruct (@setSlot_keeps w None _ _ Hg) as [Hk | Hnth].
        -- right; left. exists g. auto.
        -- right; right. apply (Hold g Hnth f Hin). congruence.
      * right; right. assumption.
  - constructor; simpl.
    + rewrite updateById_ids; [assumption | reflexivity].
    + rewrite <- Hlog, ?Eq, <- app_assoc. reflexivity.
    + rewrite setSlot_length. assumption.
    + intros f' Hin Htodo.
      apply in_updateById in Hin.
      destruct Hin as (f & Hf & [[E ->] | [Hne ->]]).
      * right; left. exists h. split; [|simpl; congruence].
        apply in_setSlot_new. rewrite Hslots. assumption.
      * destruct (Hitems f Hf Htodo) as [Hq | [(g & Hg & Eg) | Hs]].
        -- rewrite ?Eq in Hq. simpl in Hq. destruct Hq as [Hq | Hq];
             [congruence | left; assumption].
        -- destruct (@setSlot_keeps w (Some h) _ _ Hg) as [Hk | Hnth].
           ++ right; left. exists g. auto.
           ++ right; right. apply (Hold g Hnth f Hf). congruence.
        -- right; right. assumption.
Qed.

Lemma allBusy_workerLoop (s : State) (w : nat) :
  allBusy s -> allBusy (workerLoop w s).
Proof.
  unfold allBusy, workerLoop. intros Hb.
  destruct (queue s) as [|h rest] eqn:Eq; simpl.
  - intros Hne. congruence.
  - intros _ o Hin. apply in_setSlot in Hin.
    destruct Hin as [-> | Hin]; [discriminate|].
    apply Hb; [discriminate | assumption].
Qed.

Lemma workerLoop_loading (s : State) (w : nat) :
  isBatchLoading (workerLoop w s) = isBatchLoading s.
Proof. unfold workerLoop. destruct (queue s); reflexivity. Qed.

Lemma loadingWhileBusy_join (s : State) :
  isBatchLoading s = true -> loadingWhileBusy (join s).
Proof.
  unfold loadingWhileBusy, join. intros Hl.
  destruct (forallb (@isNone num) (workers s)) eqn:E; simpl; rewrite E;
    simpl; [reflexivity | assumption].
Qed.

Lemma join_frame ids0 log0 todo (s : State) :
  RunInv ids0 log0 todo s -> allBusy s ->
  RunInv ids0 log0 todo (join s) /\ allBusy (join s).
Proof.
  unfold join. destruct (forallb (@isNone num) (workers s)); auto.
  intros [A B C D] Hb. split; [constructor; assumption | exact Hb].
Qed.

Lemma in_forallb_isNone (l : list (option ImageFileState))
    (g : ImageFileState) :
  In (Some g) l -> forallb (@isNone num) l = false.
Proof.
  intros Hin. destruct (forallb (@isNone num) l) eqn:E; [|reflexivity].
  rewrite forallb_forall in E. specialize (E _ Hin). discriminate.
Qed.

(** The whole invariant of a run. *)
Definition Running ids0 log0 todo (s : State) : Prop :=
  RunInv ids0 log0 todo s /\ allBusy s /\ loadingWhileBusy s.

Lemma Running_settle ids0 log0 todo (s : State) (w : nat)
    (outcome : option (RecognitionResult num)) :
  Running ids0 log0 todo s -> Running ids0 log0 todo (settle w outcome s).
Proof.
  intros (HR & HB & HL). unfold settle.
  destruct (nth_error (workers s) w) as [[g|]|] eqn:En;
    try (split; [assumption | split; assumption]).
  assert (Hw : w < CONCURRENCY_LIMIT).
  { rewrite <- (ri_slots HR). apply nth_error_Some. congruence. }
  assert (Hload : isBatchLoading s = true).
  { rewrite HL. apply nth_error_In in En.
    rewrite (@in_forallb_isNone _ _ En). reflexivity. }
  destruct (RunInv_processEnd g outcome HR) as [HR1 Hset].
  assert (HB1 : allBusy (processEnd g outcome s))
    by (destruct outcome; exact HB).
  assert (En1 : nth_error (workers (processEnd g outcome s)) w
                = Some (Some g)) by (destruct outcome; exact En).
  assert (HR2 : RunInv ids0 log0 todo
                  (workerLoop w (processEnd g outcome s))).
  { apply RunInv_workerLoop; try assumption.
    intros g' Eg' f Hin Eid. rewrite En1 in Eg'. inversion Eg'; subst g'.
    apply Hset; assumption. }
  pose proof (allBusy_workerLoop w HB1) as HB2.
  destruct (join_frame HR2 HB2) as [HR3 HB3].
  split; [assumption | split; [assumption|]].
  apply loadingWhileBusy_join. rewrite workerLoop_loading.
  destruct outcome; exact Hload.
Qed.

Lemma Running_quiet ids0 log0 todo (s : State) (e : Event) :
  quiet e = true ->
  Running ids0 log0 todo s -> Running ids0 log0 todo (step s e).
Proof.
  destruct e; simpl; try discriminate; intros _.
  - (* ImageLoaded *)
    intros ([Hids Hlog Hslots Hitems] & HB & HL).
    split; [|split; assumption].
    constructor; simpl; try assumption.
    + rewrite updateById_ids; [assumption | reflexivity].
    + intros f' Hin Htodo. apply in_updateById in Hin.
      destruct Hin as (f & Hf & [[E ->] | [Hne ->]]).
      * destruct (Hitems f Hf Htodo) as [Hq | [Hg | Hs]]; auto.
      * apply Hitems; assumption.
  - (* Select *)
    intros ([Hids Hlog Hslots Hitems] & HB & HL).
    split; [constructor; assumption | split; assumption].
  - apply Running_settle.
Qed.

Lemma Running_run ids0 log0 todo (evs : list Event) (s : State) :
  forallb (@quiet num) evs = true ->
  Running ids0 log0 todo s -> Running ids0 log0 todo (run s evs).
Proof.
  revert s. induction evs as [|e evs IH]; intros s Hq HR; [assumption|].
  simpl in Hq. apply andb_true_iff in Hq. destruct Hq as [He Hq].
  simpl. apply IH; [assumption|]. apply Running_quiet; assumption.
Qed.

(** ** The click *)

Lemma workers_workerLoop (s : State) (w : nat) :
  workers (workerLoop w s) = setSlot w (hd_error (queue s)) (workers s) /\
  queue (workerLoop w s) = tl (queue s).
Proof.
  unfold workerLoop.
  destruct (queue s) eqn:E; simpl; rewrite ?E; split; reflexivity.
Qed.

(** The state in which the three workers are about to start. *)
Definition primed (s0 : State) : State :=
  set_workers (repeat None CONCURRENCY_LIMIT)
    (set_queue (filter (@toProcess num) (imageFiles s0))
       (set_isBatchLoading true s0)).

Lemma handleAnalyzeBatch_unfold (s0 : State) :
  handleAnalyzeBatch s0
  = join (workerLoop 2 (workerLoop 1 (workerLoop 0 (primed s0)))).
Proof. reflexivity. Qed.

Lemma started_workers (s0 : State) :
  let todo := filter (@toProcess num) (imageFiles s0) in
  let s4 := workerLoop 2 (workerLoop 1 (workerLoop 0 (primed s0))) in
  workers s4 = [hd_error todo; hd_error (tl todo); hd_error (tl (tl todo))] /\
  queue s4 = tl (tl (tl todo)).
Proof.
  intros todo s4. unfold s4.
  repeat match goal with
  | |- context [workers (workerLoop ?w ?s)] =>
      rewrite (proj1 (workers_workerLoop s w))
  | |- context [queue (workerLoop ?w ?s)] =>
      rewrite (proj2 (workers_workerLoop s w))
  end.
  split; reflexivity.
Qed.

Lemma Running_start (s0 : State) :
  Running (map (@id num) (imageFiles s0)) (invocations s0)
    (filter (@toProcess num) (imageFiles s0)) (handleAnalyzeBatch s0).
Proof.
  set (todo := filter (@toProcess num) (imageFiles s0)).
  set (ids0 := map (@id num) (imageFiles s0)).
  rewrite handleAnalyzeBatch_unfold.
  set (s1 := primed s0).
  assert (H1 : RunInv ids0 (invocations s0) todo s1).
  { constructor; simpl; try reflexivity. intros f _ Hin. left. exact Hin. }
  assert (W1 : workers s1 = [None; None; None]) by reflexivity.
  set (s2 := workerLoop 0 s1).
  assert (H2 : RunInv ids0 (invocations s0) todo s2).
  { apply RunInv_workerLoop; [assumption | | unfold CONCURRENCY_LIMIT; lia].
    rewrite W1. simpl. discriminate. }
  assert (W2 : workers s2 = [hd_error (queue s1); None; None]).
  { unfold s2. rewrite (proj1 (workers_workerLoop s1 0)), W1. reflexivity. }
  set (s3 := workerLoop 1 s2).
  assert (H3 : RunInv ids0 (invocations s0) todo s3).
  { apply RunInv_workerLoop; [assumption | | unfold CONCURRENCY_LIMIT; lia].
    rewrite W2. simpl. discriminate. }
  assert (W3 : workers s3 = [hd_error (queue s1); hd_error (queue s2); None]).
  { unfold s3. rewrite (proj1 (workers_workerLoop s2 1)), W2. reflexivity. }
  set (s4 := workerLoop 2 s3).
  assert (H4 : RunInv ids0 (invocations s0) todo s4).
  { apply RunInv_workerLoop; [assumption | | unfold CONCURRENCY_LIMIT; lia].
    rewrite W3. simpl. discriminate. }
  assert (B4 : allBusy s4).
  { destruct (started_workers s0) as [Ew Eq]. fold todo in Ew, Eq.
    unfold allBusy. fold s1 s2 s3 s4 in Ew, Eq. rewrite Ew, Eq.
    destruct todo as [|a [|b [|c rest]]]; simpl; try congruence.
    intros _ o [<- | [<- | [<- | []]]]; discriminate. }
  destruct (join_frame H4 B4) as [H5 B5].
  split; [assumption | split; [assumption|]].
  apply loadingWhileBusy_join.
  unfold s4, s3, s2. rewrite !workerLoop_loading. reflexivity.
Qed.

(** ** Completion *)

Lemma all_idle_no_busy (l : list (option ImageFileState))
    (g : ImageFileState) :
  forallb (@isNone num) l = true -> ~ In (Some g) l.
Proof.
  intros Hall Hin. rewrite (@in_forallb_isNone _ _ Hin) in Hall.
  discriminate.
Qed.

Lemma completed_queue_empty ids0 log0 todo (s : State) :
  Running ids0 log0 todo s -> isBatchLoading s = false ->
  queue s = [] /\ forallb (@isNone num) (workers s) = true.
Proof.
  intros (HR & HB & HL) Hdone.
  unfold loadingWhileBusy in HL. rewrite Hdone in HL.
  apply (f_equal negb) in HL. rewrite negb_involutive in HL. simpl in HL.
  symmetry in HL. split; [|assumption].
  destruct (queue s) as [|h rest] eqn:Eq; [reflexivity|].
  pose proof (ri_slots HR) as Hlen.
  destruct (workers s) as [|o l] eqn:Ew; [discriminate Hlen|].
  assert (o <> None) as Ho.
  { apply HB; [rewrite Eq; discriminate | rewrite Ew; left; reflexivity]. }
  simpl in HL. destruct o; [discriminate | congruence].
Qed.

Lemma completed_items ids0 log0 todo (s : State) :
  Running ids0 log0 todo s -> isBatchLoading s = false ->
  map (@id num) (imageFiles s) = ids0 /\
  invocations s = log0 ++ todo /\
  (forall f, In f (imageFiles s) -> In (id f) (map (@id num) todo) ->
             settled f).
Proof.
  intros HRun Hdone.
  destruct (completed_queue_empty HRun Hdone) as [Eq Eidle].
  destruct HRun as ([Hids Hlog Hslots Hitems] & _ & _).
  split; [assumption|]. split.
  - rewrite Eq, app_nil_r in Hlog. assumption.
  - intros f Hin Htodo.
    destruct (Hitems f Hin Htodo) as [Hq | [(g & Hg & _) | Hs]].
    + rewrite Eq in Hq. destruct Hq.
    + exfalso. exact (all_idle_no_busy _ g Eidle Hg).
    + assumption.
Qed.

Lemma settled_status (f : ImageFileState) :
  settled f -> status f <> pending /\ status f <> processing.
Proof. intros [[E _] | E]; rewrite E; split; discriminate. Qed.

Lemma NoDup_ids_filter (keep : ImageFileState -> bool)
    (l : list ImageFileState) :
  NoDup (map (@id num) l) -> NoDup (map (@id num) (filter keep l)).
Proof.
  induction l as [|f l IH]; simpl; intros Hnd; [constructor|].
  inversion Hnd as [|? ? Hnotin Hrest]; subst.
  destruct (keep f); simpl; [|auto].
  constructor; [|auto].
  intros Hin. apply Hnotin.
  rewrite in_map_iff in *. destruct Hin as (g & Eg & Hg).
  exists g. split; [assumption|]. apply filter_In in Hg. tauto.
Qed.

Lemma click_enabled (s0 : State) :
  processDisabled s0 = false -> step s0 (ClickProcess num)
                                = handleAnalyzeBatch s0.
Proof. intros Hd. simpl. rewrite Hd. reflexivity. Qed.


(** C10: choosing files replaces the list by one entry per chosen file,
    in order, each pending, without result and of size zero, and selects
    the first; nothing of the list before survives, whatever it held. *)
Theorem file_selection_replaces (s : State) (first : File)
    (rest : list File) :
  let files := first :: rest in
  let s' := step s (FilesChosen num (Some files)) in
  imageFiles s' = map (newFileState num createObjectURL) files /\
  map (@file num) (imageFiles s') = files /\
  (forall f, In f (imageFiles s') ->
     status f = pending /\ result f = None /\ naturalSize f = (0, 0)%Z) /\
  selectedImageId s' = Some (id (newFileState num createObjectURL first)) /\
  (forall t : State,
     imageFiles (step t (FilesChosen num (Some files))) = imageFiles s').
Proof.
  intros files s'. simpl.
  split; [reflexivity|].
  split.
  - unfold files. f_equal. rewrite map_map. simpl. apply map_id.
  - split; [|split; reflexivity].
    intros f [<- | Hin]; [repeat split|].
    rewrite in_map_iff in Hin. destruct Hin as (x & <- & _).
    repeat split.
Qed.

(** ** The run ends *)

(** Workers awaiting a call. *)
Definition busyCount (l : list (option ImageFileState)) : nat :=
  List.length (filter (fun o => negb (isNone o)) l).

(** Calls still to settle before the run completes: one per queued file
    and one per worker awaiting a call. *)
Definition remaining (s : State) : nat :=
  List.length (queue s) + busyCount (workers s).

(** A trace in which every event is the settling of a call that is
    pending. *)
Fixpoint settling (s : State) (evs : list Event) : Prop :=
  match evs with
  | [] => True
  | Settled w outcome :: rest =>
      (exists g, nth_error (workers s) w = Some (Some g)) /\
      settling (step s (Settled w outcome)) rest
  | _ => False
  end.

Lemma busyCount_setSlot (w : nat) (g : ImageFileState)
    (v : option ImageFileState) (l : list (option ImageFileState)) :
  nth_error l w = Some (Some g) ->
  busyCount (setSlot w v l) + 1
  = busyCount l + (if isNone v then 0 else 1).
Proof.
  unfold busyCount. revert w.
  induction l as [|h t IH]; intros [|w]; simpl; try discriminate.
  - intros [= ->]. simpl. destruct v; simpl; lia.
  - intros Hn. specialize (IH w Hn).
    destruct h; simpl; lia.
Qed.

Lemma join_remaining (s : State) : remaining (join s) = remaining s.
Proof.
  unfold join. destruct (forallb (@isNone num) (workers s)); reflexivity.
Qed.

Lemma settle_remaining (s : State) (w : nat) (g : ImageFileState)
    (outcome : option (RecognitionResult num)) :
  nth_error (workers s) w = Some (Some g) ->
  remaining (settle w outcome s) + 1 = remaining s.
Proof.
  intros En. unfold settle. rewrite En. rewrite join_remaining.
  set (s1 := processEnd g outcome s).
  assert (Eq : queue s1 = queue s) by (unfold s1; destruct outcome; reflexivity).
  assert (Ew : workers s1 = workers s)
    by (unfold s1; destruct outcome; reflexivity).
  unfold remaining.
  destruct (workers_workerLoop s1 w) as [-> ->]. rewrite Eq, Ew.
  pose proof (@busyCount_setSlot w g (hd_error (queue s)) _ En) as Hb.
  destruct (queue s); simpl in *; lia.
Qed.

Lemma start_remaining (s0 : State) :
  remaining (handleAnalyzeBatch s0)
  = List.length (filter (@toProcess num) (imageFiles s0)).
Proof.
  rewrite handleAnalyzeBatch_unfold, join_remaining. unfold remaining.
  destruct (started_workers s0) as [-> ->].
  destruct (filter (@toProcess num) (imageFiles s0)) as [|a [|b [|c rest]]];
    unfold busyCount; simpl; lia.
Qed.

Lemma settling_quiet (evs : list Event) (s : State) :
  settling s evs -> forallb (@quiet num) evs = true.
Proof.
  revert s. induction evs as [|e evs IH]; intros s; [reflexivity|].
  destruct e; simpl; try contradiction.
  intros [_ H]. apply (IH _ H).
Qed.

Lemma settling_remaining (evs : list Event) (s : State) :
  settling s evs -> remaining (run s evs) + List.length evs = remaining s.
Proof.
  revert s. induction evs as [|e evs IH]; intros s; [simpl; lia|].
  destruct e; simpl; try contradiction.
  intros [(g & En) H]. specialize (IH _ H).
  pose proof (@settle_remaining s w g outcome En) as Hs.
  change (run s (Settled w outcome :: evs))
    with (run (settle w outcome s) evs).
  change (step s (Settled w outcome)) with (settle w outcome s) in IH.
  simpl List.length. lia.
Qed.

Lemma busyCount_zero (l : list (option ImageFileState)) :
  busyCount l = 0 <-> forallb (@isNone num) l = true.
Proof.
  unfold busyCount. induction l as [|[g|] t IH]; simpl.
  - tauto.
  - split; [lia | discriminate].
  - exact IH.
Qed.

Lemma Running_loading ids0 log0 todo (s : State) :
  Running ids0 log0 todo s ->
  (isBatchLoading s = false <-> remaining s = 0) /\
  (isBatchLoading s = true ->
   exists w g, nth_error (workers s) w = Some (Some g)).
Proof.
  intros HRun. split; [split|].
  - intros Hdone.
    destruct (completed_queue_empty HRun Hdone) as [Eq Eidle].
    unfold remaining. rewrite Eq. simpl. apply busyCount_zero. assumption.
  - unfold remaining. intros Hz.
    destruct HRun as (_ & _ & HL). rewrite HL.
    assert (busyCount (workers s) = 0) as Hb by lia.
    apply busyCount_zero in Hb. rewrite Hb. reflexivity.
  - destruct HRun as (_ & _ & HL). rewrite HL. intros Hbusy.
    apply negb_true_iff in Hbusy.
    assert (exists o, In o (workers s) /\ isNone o = false)
      as ([g|] & Hin & Ho).
    { clear HL. induction (workers s) as [|o l IH]; [discriminate|].
      simpl in Hbusy. destruct (isNone o) eqn:E.
      - destruct (IH Hbusy) as (o' & Hin & Ho'). exists o'. simpl. auto.
      - exists o. simpl. auto. }
    + destruct (In_nth_error _ _ Hin) as (w & Hw). eauto.
    + discriminate.
Qed.

(** The run completes: after the click, as long as [isBatchLoading] holds
    some worker awaits a call, and once as many calls have settled as there
    were files to process, in whatever order and with whatever outcome,
    [isBatchLoading] is reset, and not before. *)
Lemma batch_run_completes (s0 : State) (evs : list Event) :
  processDisabled s0 = false ->
  settling (step s0 (ClickProcess num)) evs ->
  let todo := filter (@toProcess num) (imageFiles s0) in
  let s2 := run (step s0 (ClickProcess num)) evs in
  (isBatchLoading s2 = false <-> List.length evs = List.length todo) /\
  (isBatchLoading s2 = true ->
   exists w g, nth_error (workers s2) w = Some (Some g)).
Proof.
  intros Hen Hset todo s2.
  assert (R2 : Running (map (@id num) (imageFiles s0)) (invocations s0)
                 todo s2).
  { apply Running_run; [apply (@settling_quiet _ _ Hset)|].
    rewrite (click_enabled s0 Hen). apply Running_start. }
  destruct (Running_loading R2) as [Hiff Hpending].
  split; [|assumption].
  pose proof (@settling_remaining _ _ Hset) as Hrem. fold s2 in Hrem.
  rewrite (click_enabled s0 Hen), start_remaining in Hrem. fold todo in Hrem.
  rewrite Hiff. lia.
Qed.

(** ** The pool *)

Lemma busyCount_length (l : list (option ImageFileState)) :
  busyCount l <= List.length l.
Proof. unfold busyCount. apply filter_length_le. Qed.

Lemma busyCount_full (l : list (option ImageFileState)) :
  (forall o, In o l -> o <> None) -> busyCount l = List.length l.
Proof.
  unfold busyCount. induction l as [|o l IH]; intros Hall; [reflexivity|].
  simpl. destruct o as [g|].
  - simpl. f_equal. apply IH. intros o Ho. apply Hall. right. exact Ho.
  - exfalso. apply (Hall None); [left|]; reflexivity.
Qed.

(** Every call that settles takes one off what remains of the run; other
    events of the run take nothing. *)
Lemma quiet_remaining (evs : list Event) (s : State) :
  forallb (@quiet num) evs = true ->
  remaining (run s evs) + settledCalls s evs = remaining s.
Proof.
  revert s. induction evs as [|e evs IH]; intros s Hq; [simpl; lia|].
  simpl in Hq. apply andb_true_iff in Hq. destruct Hq as [He Hq].
  specialize (IH (step s e) Hq).
  change (run s (e :: evs)) with (run (step s e) evs).
  destruct e as [files|target size|target| |w outcome];
    try discriminate; cbn [BatchAnalyzer.settledCalls].
  - change (remaining (step s (ImageLoaded num target size)))
      with (remaining s) in IH. lia.
  - change (remaining (step s (Select num target)))
      with (remaining s) in IH. lia.
  - unfold awaiting.
    destruct (nth_error (workers s) w) as [[g|]|] eqn:En.
    + pose proof (@settle_remaining s w g outcome En) as Hs.
      change (step s (Settled w outcome)) with (settle w outcome s) in *.
      lia.
    + assert (E : step s (Settled w outcome) = s)
        by (simpl; unfold settle; rewrite En; reflexivity).
      rewrite E in *. lia.
    + assert (E : step s (Settled w outcome) = s)
        by (simpl; unfold settle; rewrite En; reflexivity).
      rewrite E in *. lia.
Qed.

(** The calls made and the workers awaiting one, in a run. *)
Lemma Running_pool ids0 log0 todo (s : State) :
  Running ids0 log0 todo s ->
  List.length (invocations s) + List.length (queue s)
  = List.length log0 + List.length todo /\
  busyCount (workers s) <= CONCURRENCY_LIMIT /\
  (queue s <> [] -> busyCount (workers s) = CONCURRENCY_LIMIT).
Proof.
  intros (HR & HB & _).
  pose proof (ri_log HR) as Hlog. apply (f_equal (@List.length _)) in Hlog.
  rewrite !length_app in Hlog.
  split; [exact Hlog|]. split.
  - rewrite <- (ri_slots HR). apply busyCount_length.
  - intros Hq. rewrite <- (ri_slots HR). apply busyCount_full.
    apply HB. exact Hq.
Qed.

(** C3 as amended: a run started by the button and not disturbed by a new
    selection of files works through the entries that were pending or
    failed at the click with a pool of three.  At every moment of the run
    the calls made are the first of those entries, in the order of the
    list, as many as three more than the calls that have settled (or all
    of them): three calls are in flight while three entries or more are
    unsettled, and never more.  Once the run has completed, the list still
    holds the same entries, each of those is done with a result or failed
    (none pending or processing), and the calls made by the run are exactly
    those entries, once each. *)
Theorem batch_run_drains (s0 : State) (evs : list Event) :
  processDisabled s0 = false ->
  forallb (@quiet num) evs = true ->
  let todo := filter (@toProcess num) (imageFiles s0) in
  let s1 := step s0 (ClickProcess num) in
  let s2 := run s1 evs in
  CONCURRENCY_LIMIT = 3 /\
  (forall before after, evs = before ++ after ->
     let s := run s1 before in
     invocations s
     = invocations s0
       ++ firstn (Nat.min (List.length todo) (settledCalls s1 before + 3))
            todo /\
     List.length (invocations s)
     = List.length (invocations s0) + settledCalls s1 before
       + Nat.min 3 (List.length todo - settledCalls s1 before) /\
     settledCalls s1 before <= List.length todo) /\
  (isBatchLoading s2 = false ->
   settledCalls s1 evs = List.length todo /\
   map (@id num) (imageFiles s2) = map (@id num) (imageFiles s0) /\
   (forall f, In f (imageFiles s2) -> In (id f) (map (@id num) todo) ->
      settled f /\ status f <> pending /\ status f <> processing) /\
   invocations s2 = invocations s0 ++ todo /\
   (NoDup (map (@id num) (imageFiles s0)) ->
    NoDup (map (@id num) (skipn (List.length (invocations s0))
                            (invocations s2))))).
Proof.
  intros Hen Hq todo s1 s2.
  assert (R1 : Running (map (@id num) (imageFiles s0)) (invocations s0)
                 todo s1).
  { unfold s1. rewrite (click_enabled s0 Hen). apply Running_start. }
  assert (Hstart : remaining s1 = List.length todo).
  { unfold s1. rewrite (click_enabled s0 Hen). apply start_remaining. }
  split; [reflexivity|]. split.
  - intros before after Eevs s.
    assert (Hqb : forallb (@quiet num) before = true).
    { rewrite Eevs, forallb_app in Hq. apply andb_true_iff in Hq. tauto. }
    assert (R : Running (map (@id num) (imageFiles s0)) (invocations s0)
                  todo s) by (apply Running_run; assumption).
    pose proof (quiet_remaining before s1 Hqb) as Hrem. fold s in Hrem.
    rewrite Hstart in Hrem. unfold remaining in Hrem.
    destruct (Running_pool R) as (Hlen & Hle & Hfull).
    pose proof (ri_log (proj1 R)) as Hlog.
    unfold CONCURRENCY_LIMIT in Hle, Hfull.
    assert (Hmade : List.length (invocations s)
                    = List.length (invocations s0)
                      + Nat.min (List.length todo)
                          (settledCalls s1 before + 3)).
    { destruct (queue s) as [|h rest] eqn:Eq.
      - simpl in Hlen, Hrem. lia.
      - assert (busyCount (workers s) = 3) by (apply Hfull; discriminate).
        simpl in Hlen, Hrem. lia. }
    split; [|split; [lia | lia]].
    assert (Hpre : invocations s
                   = firstn (List.length (invocations s))
                       (invocations s0 ++ todo)).
    { rewrite <- Hlog. rewrite firstn_app, Nat.sub_diag, firstn_all.
      simpl. rewrite app_nil_r. reflexivity. }
    rewrite Hpre at 1. rewrite Hmade, firstn_app.
    rewrite firstn_all2 by lia. f_equal. f_equal. lia.
  - intros Hdone.
    assert (R2 : Running (map (@id num) (imageFiles s0)) (invocations s0)
                   todo s2) by (apply Running_run; assumption).
    destruct (completed_items R2 Hdone) as (Hids & Hlog & Hitems).
    pose proof (quiet_remaining evs s1 Hq) as Hrem. fold s2 in Hrem.
    rewrite Hstart in Hrem.
    destruct (Running_loading R2) as [Hiff _].
    apply Hiff in Hdone. rewrite Hdone in Hrem.
    split; [lia|]. split; [assumption|].
    split; [|split; [assumption|]].
    + intros f Hin Htodo. pose proof (Hitems f Hin Htodo) as Hs.
      split; [assumption | apply settled_status; assumption].
    + intros Hnd. rewrite Hlog, skipn_app, Nat.sub_diag, skipn_all.
      simpl. apply NoDup_ids_filter. assumption.
Qed.

End Run.

(** ** The examples of the specification *)

Definition demoURL (f : File) : string := ("blob:" ++ file_name f)%string.

Definition demoFiles : list File :=
  [ {| file_name := "a.jpg"; lastModified := 1 |};
    {| file_name := "b.jpg"; lastModified := 2 |};
    {| file_name := "c.jpg"; lastModified := 3 |};
    {| file_name := "d.jpg"; lastModified := 4 |};
    {| file_name := "e.jpg"; lastModified := 5 |};
    {| file_name := "f.jpg"; lastModified := 6 |};
    {| file_name := "g.jpg"; lastModified := 7 |} ].

Definition demoResult : RecognitionResult Q :=
  {| faces := []; Types.personCount := 0 |}.

(** Seven files chosen, none processed yet. *)
Definition sevenPending : State Q :=
  run demoURL (mount Q) [FilesChosen Q (Some demoFiles)].

(** The seven calls of the first run settle; those for [a.jpg] and [f.jpg]
    fail. *)
Definition firstRun : list (Event Q) :=
  [ Settled 1 (Some demoResult); Settled 0 None;
    Settled 2 (Some demoResult); Settled 0 (Some demoResult);
    Settled 1 (Some demoResult); Settled 2 None;
    Settled 0 (Some demoResult) ].

(** Five entries done, two failed. *)
Definition fiveDoneTwoError : State Q :=
  run demoURL (step demoURL sevenPending (ClickProcess Q)) firstRun.

Definition names (l : list (ImageFileState Q)) : list string :=
  map (fun f => file_name (file f)) l.

(** Seven pending files through three workers: three calls at the click,
    five once two have settled, seven in all. *)
Lemma batch_run_drains_witness :
  let s1 := step demoURL sevenPending (ClickProcess Q) in
  names (invocations (run demoURL s1 []))
  = ["a.jpg"; "b.jpg"; "c.jpg"]%string /\
  names (invocations (run demoURL s1 (firstn 2 firstRun)))
  = ["a.jpg"; "b.jpg"; "c.jpg"; "d.jpg"; "e.jpg"]%string /\
  isBatchLoading fiveDoneTwoError = false /\
  map (@status Q) (imageFiles fiveDoneTwoError)
  = [error; done; done; done; done; error; done] /\
  names (invocations fiveDoneTwoError)
  = ["a.jpg"; "b.jpg"; "c.jpg"; "d.jpg"; "e.jpg"; "f.jpg"; "g.jpg"]%string.
Proof.
  intros s1.
  destruct (batch_run_drains demoURL sevenPending firstRun
              eq_refl eq_refl)
    as (_ & Hpool & Hdone).
  destruct (Hdone eq_refl) as (_ & _ & _ & Hlog & _).
  destruct (Hpool [] firstRun eq_refl) as (H0 & _).
  destruct (Hpool (firstn 2 firstRun) (skipn 2 firstRun) eq_refl)
    as (H2 & _).
  unfold s1.
  split; [rewrite H0; vm_compute; reflexivity|].
  split; [rewrite H2; vm_compute; reflexivity|].
  split; [reflexivity|]. split; [reflexivity|].
  unfold fiveDoneTwoError. rewrite Hlog. reflexivity.
Defined.

(** C3 as it is stated fails for a run during which the files are chosen
    anew ("Change Images" stays enabled): the seven files are chosen again
    after the first call has settled; the run goes on and completes, each
    file has been submitted once, and yet the entry of [b.jpg], whose call
    had settled into the list that was replaced, is still pending. *)
Lemma batch_run_disturbed_leaves_pending :
  let evs :=
    [ Settled 1 (Some demoResult); FilesChosen Q (Some demoFiles);
      Settled 0 None; Settled 2 (Some demoResult);
      Settled 0 (Some demoResult); Settled 1 (Some demoResult);
      Settled 2 None; Settled 0 (Some demoResult) ] in
  let s2 := run demoURL (step demoURL sevenPending (ClickProcess Q)) evs in
  processDisabled sevenPending = false /\
  map (@status Q) (imageFiles sevenPending)
  = [pending; pending; pending; pending; pending; pending; pending] /\
  isBatchLoading s2 = false /\
  names (invocations s2)
  = ["a.jpg"; "b.jpg"; "c.jpg"; "d.jpg"; "e.jpg"; "f.jpg"; "g.jpg"]%string /\
  map (@id Q) (imageFiles s2) = map (@id Q) (imageFiles sevenPending) /\
  map (@status Q) (imageFiles s2)
  = [error; pending; done; done; done; error; done].
Proof. vm_compute. repeat split; reflexivity. Qed.


(** "Change Images" after the first run: the seven entries and their
    results are gone, the two new files are pending. *)
Example change_images_discards :
  let s' :=
    step demoURL fiveDoneTwoError
      (FilesChosen Q (Some [ {| file_name := "h.jpg"; lastModified := 8 |};
                             {| file_name := "a.jpg"; lastModified := 9 |} ])) in
  map (fun f => (id f, status f, result f)) (imageFiles s')
  = [("h.jpg-8"%string, pending, None); ("a.jpg-9"%string, pending, None)] /\
  selectedImageId s' = Some "h.jpg-8"%string.
Proof. split; reflexivity. Qed.

End BatchFacts.

(* ===================================================================== *)
(** * The roster *)
(* ===================================================================== *)

Module RosterFacts.
Import App.

Lemma to_int_not_nil (z : Z) :
  Z.to_int z <> Decimal.Pos Decimal.Nil /\
  Z.to_int z <> Decimal.Neg Decimal.Nil.
Proof.
  destruct z as [|p|p]; simpl; split; try discriminate;
    intros [= E]; exact (DecimalPos.Unsigned.to_uint_nonnil p E).
Qed.

(** Distinct timestamps print differently. *)
Lemma personId_inj (t t' : Z) : personId t = personId t' -> t = t'.
Proof.
  unfold personId. intros E. simpl in E. injection E as E.
  apply DecimalZ.to_int_inj.
  destruct (to_int_not_nil t) as [Hp Hn].
  destruct (to_int_not_nil t') as [Hp' Hn'].
  pose proof (NilZero.isi (Z.to_int t) Hp Hn) as H1.
  pose proof (NilZero.isi (Z.to_int t') Hp' Hn') as H2.
  rewrite E in H1. congruence.
Qed.

Lemma in_removePerson (id : string) (s : State) (p : KnownPerson) :
  In p (knownPeople (removePerson id s)) <->
  In p (knownPeople s) /\ person_id p <> id.
Proof.
  simpl. rewrite filter_In.
  destruct (String.eqb_spec (person_id p) id); simpl; intuition congruence.
Qed.

Lemma addPerson_storage (s : State) (now : Z) (name image : string) :
  localStorage (addPerson now name image s)
  = if addPersonThrows now name image s then localStorage s
    else Some (knownPeople s ++ [newPerson now name image]).
Proof.
  unfold addPersonThrows, updateThrows, addPerson, updateKnownPeople.
  cbn [localStorage].
  destruct (storageAccepts s _); reflexivity.
Qed.

(** C8 as amended: for every roster, [addPerson] appends exactly one
    person, with the name and image given and the id [person_<Date.now()>];
    the new roster is stored when the storage takes it, and when [setItem]
    throws the roster in memory is the new one while the storage keeps
    what it held.  The id is new to the roster exactly when no entry
    carries it, as when every entry was made at another millisecond, and
    then ids that were distinct stay distinct.  [removePerson] keeps
    exactly the entries whose id differs from its argument, and stores the
    result likewise; adding to an empty roster and removing the id just
    made leaves it empty. *)
Theorem roster_add_remove (s : State) (now : Z) (name image : string) :
  let person := newPerson now name image in
  (person_id person = personId now /\ person_name person = name /\
   person_image person = image /\
   knownPeople (addPerson now name image s) = knownPeople s ++ [person]) /\
  (if addPersonThrows now name image s
   then localStorage (addPerson now name image s) = localStorage s
   else localStorage (addPerson now name image s)
        = Some (knownPeople s ++ [person])) /\
  (addsFreshPerson now name image s -> ~ In (personId now) (ids s)) /\
  (~ In (personId now) (ids s) -> addPersonThrows now name image s = false ->
   addsFreshPerson now name image s) /\
  ((forall id, In id (ids s) -> exists t, id = personId t /\ t <> now) ->
   ~ In (personId now) (ids s)) /\
  (~ In (personId now) (ids s) -> NoDup (ids s) ->
   NoDup (ids (addPerson now name image s))) /\
  (forall id,
     knownPeople (removePerson id s)
     = filter (fun p => negb (String.eqb (person_id p) id)) (knownPeople s) /\
     (forall p, In p (knownPeople (removePerson id s)) <->
                In p (knownPeople s) /\ person_id p <> id) /\
     (if removePersonThrows id s
      then localStorage (removePerson id s) = localStorage s
      else localStorage (removePerson id s)
           = Some (knownPeople (removePerson id s)))) /\
  (knownPeople s = [] ->
   knownPeople (removePerson (personId now) (addPerson now name image s))
   = []).
Proof.
  intros person.
  split; [repeat split|].
  split.
  { unfold addPersonThrows, updateThrows, addPerson, updateKnownPeople.
    cbn [localStorage]. fold person.
    destruct (storageAccepts s (knownPeople s ++ [person])); reflexivity. }
  split.
  { intros (p & Eadd & _ & _ & Hnew & _).
    cbn [addPerson updateKnownPeople knownPeople] in Eadd.
    apply app_inv_head in Eadd. inversion Eadd; subst p. exact Hnew. }
  split.
  { intros Hnew Ha. exists (newPerson now name image).
    unfold addPersonThrows, updateThrows in Ha. apply negb_false_iff in Ha.
    unfold addPerson, updateKnownPeople. cbn [knownPeople localStorage].
    rewrite Ha.
    split; [reflexivity|]. split; [reflexivity|]. split; [reflexivity|].
    split; [exact Hnew | reflexivity]. }
  split.
  { intros Hall Hin. destruct (Hall _ Hin) as (t & E & Hne).
    apply Hne. symmetry. apply personId_inj. exact E. }
  split.
  { intros Hfresh Hnd. unfold ids. cbn [addPerson updateKnownPeople knownPeople].
    rewrite map_app. simpl.
    apply NoDup_app; [assumption | repeat constructor; intros [] |].
    intros a Ha [<- | []]. exact (Hfresh Ha). }
  split.
  { intros id. split; [reflexivity|]. split; [apply in_removePerson|].
    unfold removePersonThrows, updateThrows, removePerson, updateKnownPeople.
    cbn [localStorage knownPeople].
    destruct (storageAccepts s _); reflexivity. }
  intros Hempty. cbn [removePerson addPerson updateKnownPeople knownPeople].
  rewrite Hempty. simpl. rewrite String.eqb_refl. reflexivity.
Qed.

Definition demoImage : string := "data:image/jpeg;base64,/9j/4AAQ"%string.

(** A storage with room for one person. *)
Definition roomForOne (people : list KnownPerson) : bool :=
  List.length people <=? 1.

(** Alice is added to the empty roster and removed again; in a storage
    with room for one person a second registration is shown but not
    stored. *)
Lemma roster_add_remove_witness :
  let s1 := addPerson 1700000000000%Z "Alice"%string demoImage (mount roomy) in
  let t1 :=
    addPerson 1700000000000%Z "Alice"%string demoImage (mount roomForOne) in
  let t2 := addPerson 1700000000001%Z "Bob"%string demoImage t1 in
  map person_name (list_people s1) = ["Alice"%string] /\
  ids s1 = ["person_1700000000000"%string] /\
  localStorage s1 = Some (list_people s1) /\
  list_people (removePerson "person_1700000000000"%string s1) = [] /\
  map person_name (list_people t2) = ["Alice"; "Bob"]%string /\
  localStorage t2 = localStorage t1.
Proof.
  intros s1 t1 t2.
  destruct (roster_add_remove (mount roomy) 1700000000000%Z "Alice"%string
              demoImage)
    as ((_ & _ & _ & Eadd) & _ & _ & _ & _ & _ & _ & Hempty).
  destruct (roster_add_remove t1 1700000000001%Z "Bob"%string demoImage)
    as (_ & Estore & _).
  split; [unfold s1, list_people; rewrite Eadd; reflexivity|].
  split; [reflexivity|]. split; [reflexivity|].
  split; [apply Hempty; reflexivity|].
  split; [reflexivity | exact Estore].
Defined.

(** C8 as it is stated fails: with an entry made at millisecond 1000 in the
    roster (a second registration within the same millisecond, or a stored
    roster holding that id), the person added at 1000 gets the id that
    entry has; removing by that id then removes both. *)
Lemma roster_add_reuses_id :
  let bob := {| person_id := "person_1000"%string; person_name := "Bob"%string;
                person_image := demoImage |} in
  let s := updateKnownPeople [bob] (mount roomy) in
  ~ addsFreshPerson 1000%Z "Alice"%string demoImage s /\
  ids (addPerson 1000%Z "Alice"%string demoImage s)
  = ["person_1000"; "person_1000"]%string /\
  list_people
    (removePerson "person_1000"%string (addPerson 1000%Z "Alice"%string demoImage s)) = [].
Proof.
  intros bob s. split; [|split; reflexivity].
  intros (p & Eadd & _ & _ & Hnew & _).
  apply Hnew. simpl in Eadd. injection Eadd as <-.
  left. reflexivity.
Qed.

End RosterFacts.

(* ===================================================================== *)
(** * More on the live view: when calls are made, failures, intervals *)
(* ===================================================================== *)

Module LiveLoopMore.
Import CameraView.
Import CameraFacts.
Local Open Scope nat_scope.

Section Loop.
Variable num : Type.
Variable browser : Browser.

Abbreviation State := (State num).
Abbreviation Event := (Event num).
Abbreviation step := (@step num browser).
Abbreviation run := (@run num browser).
Abbreviation reachable := (@reachable num browser).

(** No event but the button changes [isAnalyzing]. *)
Lemma step_isAnalyzing_other (s : State) (e : Event) :
  isClickAnalyze e = false -> isAnalyzing (step s e) = isAnalyzing s.
Proof.
  destruct e; simpl; try discriminate; intros _.
  - destruct (in_dec Nat.eq_dec handle (timers s)); [|reflexivity].
    destruct (analyzeRealtimeFrame_cases browser s)
      as [E | [E | (_ & frame & E)]]; rewrite E; reflexivity.
  - destruct (inFlight s); [reflexivity|].
    unfold analyzeResolved.
    destruct (truthyHandle (analysisIntervalRef (set_inFlight _ s)));
      reflexivity.
  - destruct (inFlight s); reflexivity.
  - destruct (recordDisabled s); [reflexivity|].
    destruct (isRecording s).
    + unfold handleStopRecording.
      destruct (mediaRecorderRef s) as [[|]|]; reflexivity.
    + unfold handleStartRecording. destruct (stream s); reflexivity.
  - destruct (registerDisabled s); [reflexivity|].
    unfold handleRegisterClick.
    destruct (falsy (captureFrame browser (videoRef s))); reflexivity.
  - reflexivity.
  - reflexivity.
  - unfold handleMetadataLoaded. destruct (videoRef s); reflexivity.
  - destruct (rerunEffect_frame (set_options opts (set_knownPeople people s)))
      as (E & _).
    rewrite E. reflexivity.
  - destruct (mediaRecorderRef s) as [[|]|]; reflexivity.
Qed.

(** A tick that submits a frame: what must have held before it. *)
Lemma tick_submits (s : State) :
  invocations (analyzeRealtimeFrame browser s) <> invocations s ->
  isProcessingFrame s = false /\
  exists video frame,
    videoRef s = Some video /\ paused video = false /\
    ended video = false /\
    captureFrame browser (Some video) = Some frame /\
    falsy (Some frame) = false /\
    invocations (analyzeRealtimeFrame browser s)
    = invocations s ++
      [{| inv_frame := frame; inv_knownPeople := knownPeople s;
          inv_options := options s |}].
Proof.
  unfold analyzeRealtimeFrame.
  destruct (videoRef s) as [video|]; [|congruence].
  destruct (isProcessingFrame s); [simpl; congruence|].
  destruct (paused video) eqn:Ep; [simpl; congruence|].
  destruct (ended video) eqn:Ee; [simpl; congruence|].
  cbn [orb].
  destruct (captureFrame browser (Some video)) as [frame|] eqn:Ec;
    [|simpl; congruence].
  destruct (falsy (Some frame)) eqn:Ef; [simpl; congruence|].
  intros _. split; [reflexivity|].
  exists video, frame. repeat split; try assumption; reflexivity.
Qed.

Lemma tick_submits_frame (s : State) (video : HTMLVideoElement)
    (frame : string) :
  videoRef s = Some video -> isProcessingFrame s = false ->
  paused video = false -> ended video = false ->
  captureFrame browser (Some video) = Some frame ->
  falsy (Some frame) = false ->
  invocations (analyzeRealtimeFrame browser s)
  = invocations s ++
    [{| inv_frame := frame; inv_knownPeople := knownPeople s;
        inv_options := options s |}].
Proof.
  intros Ev Hp Ep Ee Ec Ef. unfold analyzeRealtimeFrame.
  rewrite Ev, Hp, Ep, Ee. cbn [orb]. rewrite Ec, Ef. reflexivity.
Qed.

(** The collaborator is called only by a tick of the live interval, while
    analysis is on, no call is pending, and the video is attached and
    playing; the call carries the frame just captured and the props of
    the moment. *)
Theorem call_only_on_live_tick (s : State) (e : Event) :
  reachable s ->
  invocations (step s e) <> invocations s ->
  exists h video frame,
    e = Tick num h /\
    isAnalyzing s = true /\ analysisIntervalRef s = Some h /\
    isRecording s = false /\
    inFlight s = 0 /\
    videoRef s = Some video /\ paused video = false /\
    ended video = false /\
    captureFrame browser (Some video) = Some frame /\
    invocations (step s e)
    = invocations s ++
      [{| inv_frame := frame; inv_knownPeople := knownPeople s;
          inv_options := options s |}] /\
    inFlight (step s e) = 1.
Proof.
  intros Hr Hchg. pose proof (reachable_Inv Hr) as HI.
  destruct (isTick e) eqn:Et;
    [|exfalso; apply Hchg; apply step_invocations_other; assumption].
  destruct e as [h| | | | | | | | | |]; try discriminate. clear Et.
  simpl in Hchg.
  destruct (in_dec Nat.eq_dec h (timers s)) as [Hin|]; [|congruence].
  pose proof (inv_timers HI) as Ht. pose proof (inv_armed HI) as Ha.
  destruct (analysisIntervalRef s) as [h'|] eqn:Eref;
    [|rewrite Ht in Hin; destruct Hin].
  rewrite Ht in Hin. destruct Hin as [<- | []].
  destruct (tick_submits s Hchg)
    as (Hp & video & frame & Ev & Ep & Ee & Ec & Ef & Einv).
  assert (Hfl : inFlight s = 0)
    by (rewrite (inv_pending HI), Hp; reflexivity).
  assert (Hrec : isRecording s = false).
  { pose proof (inv_exclusive HI) as X. rewrite Ha in X. exact X. }
  exists h', video, frame.
  assert (Estep : step s (Tick num h') = analyzeRealtimeFrame browser s).
  { simpl. rewrite Ht. simpl.
    destruct (Nat.eq_dec h' h'); [reflexivity | congruence]. }
  rewrite Estep.
  repeat (split; [assumption || reflexivity|]).
  assert (HI' : Inv (analyzeRealtimeFrame browser s))
    by (rewrite <- Estep; apply Inv_step; assumption).
  rewrite (inv_pending HI').
  destruct (analyzeRealtimeFrame_cases browser s)
    as [E | [E | (_ & fr & E)]].
  - rewrite E in Hchg. congruence.
  - rewrite E in Hchg. simpl in Hchg. congruence.
  - rewrite E. reflexivity.
Qed.

(** A failed call: its message (or the default text) is shown, the guard
    is released, the faces on screen and the interval are left as they
    were, and the next tick on a playing video submits a new frame. *)
Theorem failed_call_keeps_loop (s : State) (message : option string) :
  reachable s -> 0 < inFlight s ->
  let s' := step s (Rejected num message) in
  error s' = Some (match message with
                   | Some m => m
                   | None => "An analysis error occurred."%string
                   end) /\
  isProcessingFrame s' = false /\ inFlight s' = 0 /\
  isAnalyzing s' = isAnalyzing s /\ timers s' = timers s /\
  detectedFaces s' = detectedFaces s /\ personCount s' = personCount s /\
  (forall h video frame,
     In h (timers s') -> videoRef s' = Some video ->
     paused video = false -> ended video = false ->
     captureFrame browser (Some video) = Some frame ->
     falsy (Some frame) = false ->
     invocations (step s' (Tick num h))
     = invocations s ++
       [{| inv_frame := frame; inv_knownPeople := knownPeople s;
           inv_options := options s |}]).
Proof.
  intros Hr Hf s'. pose proof (reachable_Inv Hr) as HI.
  pose proof (inv_pending HI) as Hp.
  assert (Es' : s' = analyzeRejected message s).
  { unfold s'. simpl. destruct (inFlight s); [lia | reflexivity]. }
  assert (Hfl : inFlight s = 1)
    by (destruct (isProcessingFrame s); lia).
  rewrite Es'. unfold analyzeRejected.
  split; [reflexivity|]. split; [reflexivity|].
  split; [simpl; rewrite Hfl; reflexivity|].
  split; [reflexivity|]. split; [reflexivity|].
  split; [reflexivity|]. split; [reflexivity|].
  intros h video frame Hin Ev Ep Ee Ec Ef.
  set (t := set_isProcessingFrame false
              (set_error
                 (Some match message with
                       | Some m => m
                       | None => "An analysis error occurred."%string
                       end)
                 (set_inFlight (Nat.pred (inFlight s)) s))) in *.
  assert (Et : step t (Tick num h) = analyzeRealtimeFrame browser t).
  { unfold CameraView.step. cbv beta iota.
    destruct (in_dec Nat.eq_dec h (timers t)); [reflexivity|].
    contradiction. }
  rewrite Et.
  rewrite (@tick_submits_frame t video frame Ev eq_refl Ep Ee Ec Ef).
  reflexivity.
Qed.

(** Faces and count are on screen only while analysis is on. *)
Definition quietWhenOff (s : State) : Prop :=
  isAnalyzing s = false ->
  detectedFaces s = [] /\ personCount s = 0%Z.

Lemma quietWhenOff_step (s : State) (e : Event) :
  Inv s -> quietWhenOff s -> quietWhenOff (step s e).
Proof.
  intros HI HQ Hoff.
  destruct (isClickAnalyze e) eqn:Ec.
  - destruct e; try discriminate.
    destruct (isAnalyzing s) eqn:Ha.
    + destruct (toggle_off browser HI Ha) as [[_ _ F C] _]. auto.
    + (* pressing the button while off switches analysis on *)
      assert (Estep : step s (ClickAnalyze num)
                      = if analyzeDisabled s then s
                        else rerunEffect (handleToggleAnalysis s))
        by reflexivity.
      rewrite Estep in *. destruct (analyzeDisabled s); [auto|].
      destruct (rerunEffect_frame (handleToggleAnalysis s)) as (E & _).
      rewrite E in Hoff. unfold handleToggleAnalysis in Hoff.
      rewrite Ha in Hoff. discriminate.
  - rewrite step_isAnalyzing_other in Hoff by assumption.
    destruct (HQ Hoff) as [F C].
    assert (HS : Stopped s) by (constructor; assumption).
    destruct (stopped_step browser e HS Ec) as [[_ _ F' C'] _]. auto.
Qed.

(** In every state the component can reach with analysis off, the face
    list is empty and the person count is zero: nothing detected lingers
    on screen, whatever came before. *)
Theorem no_faces_while_off (s : State) :
  reachable s -> isAnalyzing s = false ->
  detectedFaces s = [] /\ personCount s = 0%Z.
Proof.
  intros (people & opts & evs & ->).
  assert (H : Inv (run (mount num people opts) evs) /\
              quietWhenOff (run (mount num people opts) evs)).
  { generalize (Inv_mount num people opts).
    assert (HQ : quietWhenOff (mount num people opts))
      by (intros _; split; reflexivity).
    revert HQ. generalize (mount num people opts).
    induction evs as [|e evs IH]; intros s HQ HI; [split; assumption|].
    simpl. apply IH.
    - apply quietWhenOff_step; assumption.
    - apply Inv_step; assumption. }
  exact (proj2 H).
Qed.

(** ** Intervals *)

(** Handles in use were handed out before the next one. *)
Definition handlesBelowNext (s : State) : Prop :=
  forall h, In h (timers s) -> h < nextHandle s.

Lemma handlesBelowNext_rerunEffect (t : State) :
  handlesBelowNext t -> handlesBelowNext (rerunEffect t).
Proof.
  unfold handlesBelowNext.
  destruct t as [faces0 count0 err0 reg0 snap0 size0 ana0 rec0 vid0 ref0
                 proc0 mr0 str0 kp0 op0 tim0 next0 fl0 cap0 invs0].
  unfold rerunEffect, effectCleanup, effectBody, setInterval, clearInterval.
  simpl. intros Hb.
  assert (Hrem : forall a x, In x (remove Nat.eq_dec a tim0) -> x < next0).
  { intros a x Hin. apply in_remove in Hin. apply Hb. tauto. }
  destruct ref0 as [[|h]|], ana0; simpl; intros x Hin;
    repeat match goal with
    | H : _ \/ _ |- _ => destruct H
    | H : In _ (remove _ _ (remove _ _ _)) |- _ => apply in_remove in H;
                                                   destruct H
    end; subst; try lia; eauto using Nat.lt_lt_succ_r.
Qed.

Lemma step_timers (s : State) (e : Event) :
  (timers (step s e) = timers s /\ nextHandle (step s e) = nextHandle s) \/
  (exists t, step s e = rerunEffect t /\ timers t = timers s /\
             nextHandle t = nextHandle s).
Proof.
  destruct e; simpl.
  - left. destruct (in_dec Nat.eq_dec handle (timers s)); [|auto].
    destruct (analyzeRealtimeFrame_cases browser s)
      as [E | [E | (_ & frame & E)]]; rewrite E; auto.
  - left. destruct (inFlight s); [auto|]. unfold analyzeResolved.
    destruct (truthyHandle (analysisIntervalRef (set_inFlight _ s))); auto.
  - left. destruct (inFlight s); auto.
  - destruct (analyzeDisabled s); [left; auto|].
    right. exists (handleToggleAnalysis s). unfold handleToggleAnalysis.
    destruct (isAnalyzing s); auto.
  - left. destruct (recordDisabled s); [auto|].
    destruct (isRecording s).
    + unfold handleStopRecording.
      destruct (mediaRecorderRef s) as [[|]|]; auto.
    + unfold handleStartRecording. destruct (stream s); auto.
  - left. destruct (registerDisabled s); [auto|].
    unfold handleRegisterClick.
    destruct (falsy (captureFrame browser (videoRef s))); auto.
  - left; auto.
  - left; auto.
  - left. unfold handleMetadataLoaded. destruct (videoRef s); auto.
  - right. exists (set_options opts (set_knownPeople people s)). auto.
  - left. destruct (mediaRecorderRef s) as [[|]|]; auto.
Qed.

Lemma handlesBelowNext_step (s : State) (e : Event) :
  handlesBelowNext s -> handlesBelowNext (step s e).
Proof.
  intros Hb.
  destruct (step_timers s e) as [[Et En] | (t & -> & Et & En)].
  - unfold handlesBelowNext. rewrite Et, En. exact Hb.
  - apply handlesBelowNext_rerunEffect.
    unfold handlesBelowNext. rewrite Et, En. exact Hb.
Qed.

Lemma reachable_handlesBelowNext (s : State) :
  reachable s -> handlesBelowNext s.
Proof.
  intros (people & opts & evs & ->).
  assert (H0 : handlesBelowNext (mount num people opts))
    by (intros h []).
  revert H0. generalize (mount num people opts).
  induction evs as [|e evs IH]; intros s H0; [assumption|].
  simpl. apply IH. apply handlesBelowNext_step. assumption.
Qed.

Lemma rerunEffect_analyzing (t : State) (h : nat) :
  isAnalyzing t = true -> analysisIntervalRef t = Some h -> 1 <= h ->
  timers t = [h] ->
  timers (rerunEffect t) = [nextHandle t] /\
  analysisIntervalRef (rerunEffect t) = Some (nextHandle t).
Proof.
  destruct t as [faces0 count0 err0 reg0 snap0 size0 ana0 rec0 vid0 ref0
                 proc0 mr0 str0 kp0 op0 tim0 next0 fl0 cap0 invs0].
  simpl. intros -> -> Hh ->.
  unfold rerunEffect, effectCleanup, effectBody, setInterval, clearInterval.
  destruct h as [|h]; [lia|]. simpl.
  destruct (Nat.eq_dec h h); [|congruence]. split; reflexivity.
Qed.

(** In every state the component can reach exactly one interval is live
    while analysis is on, the one whose handle the ref holds, and none
    while it is off; a change of props during analysis clears that
    interval and arms one new interval in its place, so ticks of the old
    one no longer reach the component. *)
Theorem one_live_interval (s : State) :
  reachable s ->
  (isAnalyzing s = true ->
   exists h, 1 <= h /\ timers s = [h] /\ analysisIntervalRef s = Some h) /\
  (isAnalyzing s = false ->
   timers s = [] /\ analysisIntervalRef s = None) /\
  (forall people opts h,
     In h (timers s) ->
     let s' := step s (PropsChanged num people opts) in
     ~ In h (timers s') /\ List.length (timers s') = 1 /\
     isAnalyzing s' = true /\ step s' (Tick num h) = s').
Proof.
  intros Hr. pose proof (reachable_Inv Hr) as HI.
  pose proof (inv_timers HI) as Ht. pose proof (inv_armed HI) as Ha.
  pose proof (inv_handle HI) as [_ Hh].
  pose proof (reachable_handlesBelowNext Hr) as Hb.
  split; [|split].
  - intros Hon. rewrite Hon in Ha.
    destruct (analysisIntervalRef s) as [h|]; [|discriminate].
    exists h. auto.
  - intros Hoff. rewrite Hoff in Ha.
    destruct (analysisIntervalRef s); [discriminate | auto].
  - intros people opts h Hin s'.
    destruct (analysisIntervalRef s) as [h0|] eqn:Eref;
      [|rewrite Ht in Hin; destruct Hin].
    assert (h = h0) as -> by (rewrite Ht in Hin; destruct Hin as [-> | []];
                              reflexivity).
    set (t := set_options opts (set_knownPeople people s)).
    assert (Es' : s' = rerunEffect t) by reflexivity.
    destruct (@rerunEffect_analyzing t h0 Ha Eref (Hh h0 eq_refl) Ht)
      as [Et' Er'].
    assert (Hlt : h0 < nextHandle s) by (apply Hb; assumption).
    assert (Hnot : ~ In h0 (timers s')).
    { rewrite Es', Et'. simpl. intros [E | []]. lia. }
    split; [assumption|].
    split; [rewrite Es', Et'; reflexivity|].
    split.
    + rewrite Es'.
      destruct (rerunEffect_frame t) as (E & _). rewrite E. exact Ha.
    + unfold CameraView.step. cbv beta iota.
      destruct (in_dec Nat.eq_dec h0 (timers s')); [contradiction|].
      reflexivity.
Qed.

End Loop.

(** ** Examples *)

(** The first tick after "Analyze" submits the frame of the playing
    video. *)
Lemma call_only_on_live_tick_witness :
  let s := run demoBrowser demoMount armed in
  map inv_frame (invocations (step demoBrowser s (Tick Q 1)))
  = ["data:image/jpeg;base64,/9j/4AAQ"%string] /\
  isAnalyzing s = true.
Proof.
  intros s.
  assert (Hr : reachable demoBrowser s)
    by (exists [], demoOptions, armed; reflexivity).
  assert (Hchg : invocations (step demoBrowser s (Tick Q 1))
                 <> invocations s) by discriminate.
  destruct (call_only_on_live_tick (Tick Q 1) Hr Hchg)
    as (h & video & frame & _ & Ha & _ & _ & _ & _ & _ & _ & _ & _ & _).
  split; [reflexivity | exact Ha].
Defined.

(** The first call fails; the message is shown and the next tick submits
    again. *)
Lemma failed_call_keeps_loop_witness :
  let s := run demoBrowser demoMount (armed ++ [Tick Q 1]) in
  let s' := step demoBrowser s (Rejected Q (Some "quota exceeded"%string)) in
  error s' = Some "quota exceeded"%string /\
  isAnalyzing s' = true /\
  List.length (invocations (step demoBrowser s' (Tick Q 1))) = 2.
Proof.
  intros s s'.
  assert (Hr : reachable demoBrowser s)
    by (exists [], demoOptions, (armed ++ [Tick Q 1]); reflexivity).
  assert (Hf : 0 < inFlight s) by (vm_compute; lia).
  destruct (failed_call_keeps_loop (Some "quota exceeded"%string) Hr Hf)
    as (He & _ & _ & Ha & _ & _ & _ & Hnext).
  split; [exact He|]. split; [reflexivity|].
  fold s' in Hnext.
  rewrite (Hnext 1 demoVideo "data:image/jpeg;base64,/9j/4AAQ"%string);
    try reflexivity.
  left. reflexivity.
Defined.

(** Analysis switched on, a result shown, analysis switched off. *)
Lemma no_faces_while_off_witness :
  let s :=
    run demoBrowser demoMount
      (armed ++ [Tick Q 1; Resolved CameraFacts.demoResult; ClickAnalyze Q]) in
  List.length
    (detectedFaces
       (run demoBrowser demoMount
          (armed ++ [Tick Q 1; Resolved CameraFacts.demoResult]))) = 1 /\
  detectedFaces s = [] /\ personCount s = 0%Z.
Proof.
  intros s. split; [reflexivity|].
  apply (@no_faces_while_off Q demoBrowser).
  - exists [], demoOptions,
      (armed ++ [Tick Q 1; Resolved CameraFacts.demoResult; ClickAnalyze Q]).
    reflexivity.
  - reflexivity.
Defined.

(** A settings change during analysis: interval 1 is replaced by
    interval 2. *)
Lemma one_live_interval_witness :
  let s := run demoBrowser demoMount armed in
  let s' :=
    step demoBrowser s
      (PropsChanged Q [] {| recognizeGender := false; countPeople := true |}) in
  timers s = [1] /\ timers s' = [2] /\ ~ In 1 (timers s').
Proof.
  intros s s'.
  assert (Hr : reachable demoBrowser s)
    by (exists [], demoOptions, armed; reflexivity).
  destruct (one_live_interval Hr) as (_ & _ & Hprops).
  destruct (Hprops [] {| recognizeGender := false; countPeople := true |} 1)
    as (Hnot & _); [left; reflexivity|].
  split; [reflexivity|]. split; [reflexivity | exact Hnot].
Defined.

End LiveLoopMore.

(* ===================================================================== *)
(** * components/CameraView.tsx: the registration dialog *)
(* ===================================================================== *)

Module Registration.
Import CameraView.

(** A string is truthy unless it is empty. *)
Definition truthyString (s : string) : bool :=
  match s with
  | EmptyString => false
  | String _ _ => true
  end.

Section Dialog.
Variable num : Type.
Variable browser : Browser.
(** [String.prototype.trim]. *)
Variable trim : string -> string.

(** The live view with its dialog's text field, under the [App] that owns
    the roster and hands it down as [knownPeople]. *)
Record Page := mkPage {
  app : App.State;
  camera : State num;
  newPersonName : string
}.

(** [onChange] of the name field. *)
Definition handleNameChange (value : string) (p : Page) : Page :=
  {| app := app p; camera := camera p; newPersonName := value |}.

(** The Cancel button: [setIsRegistering(false)] and nothing else. *)
Definition handleCancel (p : Page) : Page :=
  {| app := app p; camera := set_isRegistering false (camera p);
     newPersonName := newPersonName p |}.

(** [handleConfirmRegistration]; [now] is the [Date.now()] that
    [addPerson] reads.  The new roster reaches the component as a change
    of its props in the same commit.  When [addPerson] throws (out of
    [setItem]) the three setters after it are not reached. *)
Definition handleConfirmRegistration (now : Z) (p : Page) : Page :=
  match snapshot (camera p) with
  | Some snap =>
      if (truthyString (trim (newPersonName p)) && truthyString snap)%bool
      then
        let name := trim (newPersonName p) in
        let app' := App.addPerson now name snap (app p) in
        if App.addPersonThrows now name snap (app p)
        then
          {| app := app';
             camera :=
               step browser (camera p)
                 (PropsChanged num (App.knownPeople app')
                    (options (camera p)));
             newPersonName := newPersonName p |}
        else
          {| app := app';
             camera :=
               step browser
                 (set_snapshot None (set_isRegistering false (camera p)))
                 (PropsChanged num (App.knownPeople app')
                    (options (camera p)));
             newPersonName := EmptyString |}
      else p
  | None => p
  end.

Inductive PageEvent :=
| Camera (e : Event num)
| TypeName (value : string)
| ClickSave (now : Z)
| ClickCancel.

(** The dialog exists while [isRegistering]; its Save button is disabled
    while the trimmed name is empty. *)
Definition saveDisabled (p : Page) : bool :=
  (negb (isRegistering (camera p))
   || negb (truthyString (trim (newPersonName p))))%bool.

Definition pageStep (p : Page) (e : PageEvent) : Page :=
  match e with
  | Camera e =>
      {| app := app p; camera := step browser (camera p) e;
         newPersonName := newPersonName p |}
  | TypeName value =>
      if isRegistering (camera p) then handleNameChange value p else p
  | ClickSave now =>
      if saveDisabled p then p else handleConfirmRegistration now p
  | ClickCancel =>
      if isRegistering (camera p) then handleCancel p else p
  end.

Definition pageRun (p : Page) (evs : list PageEvent) : Page :=
  fold_left pageStep evs p.

(** The interval effect leaves the props and the dialog's state alone. *)
Lemma rerunEffect_dialog (t : State num) :
  isRegistering (rerunEffect t) = isRegistering t /\
  snapshot (rerunEffect t) = snapshot t /\
  knownPeople (rerunEffect t) = knownPeople t.
Proof.
  destruct t as [faces0 count0 err0 reg0 snap0 size0 ana0 rec0 vid0 ref0
                 proc0 mr0 str0 kp0 op0 tim0 next0 fl0 cap0 invs0].
  unfold rerunEffect, effectCleanup, effectBody, setInterval, clearInterval.
  destruct ref0 as [[|h]|], ana0; simpl; repeat split; reflexivity.
Qed.

(** "Register", a name typed, "Save": the roster gains exactly one person,
    named by the trimmed text, whose image is the frame captured when
    "Register" was pressed, and the component receives the new roster as
    its [knownPeople].  When the storage takes the roster it is stored and
    the dialog is closed with its fields emptied.  When [setItem] throws,
    the storage keeps what it held and the dialog stays open with the name
    and the snapshot, "Save" enabled: the person is already in the roster
    shown.  With a blank name "Save" changes nothing. *)
Theorem registration_adds_captured_frame
    (p : Page) (now : Z) (value frame : string) :
  registerDisabled (camera p) = false ->
  captureFrame browser (videoRef (camera p)) = Some frame ->
  truthyString frame = true ->
  truthyString (trim value) = true ->
  let p3 :=
    pageRun p [Camera (ClickRegister num); TypeName value; ClickSave now] in
  let person := App.newPerson now (trim value) frame in
  App.knownPeople (app p3) = App.knownPeople (app p) ++ [person] /\
  knownPeople (camera p3) = App.knownPeople (app p) ++ [person] /\
  (if App.addPersonThrows now (trim value) frame (app p)
   then
     App.localStorage (app p3) = App.localStorage (app p) /\
     isRegistering (camera p3) = true /\
     snapshot (camera p3) = Some frame /\
     newPersonName p3 = value /\ saveDisabled p3 = false
   else
     App.localStorage (app p3) = Some (App.knownPeople (app p) ++ [person]) /\
     isRegistering (camera p3) = false /\ snapshot (camera p3) = None /\
     newPersonName p3 = EmptyString) /\
  (forall q t, truthyString (trim (newPersonName q)) = false ->
               pageStep q (ClickSave t) = q).
Proof.
  intros Hen Hcap Hframe Hname p3 person.
  assert (Hfalsy : falsy (Some frame) = false)
    by (destruct frame; [discriminate | reflexivity]).
  set (c1 := step browser (camera p) (ClickRegister num)).
  assert (Ec1 : c1 = set_isRegistering true
                       (set_snapshot (Some frame)
                          (set_captures (S (captures (camera p)))
                             (camera p)))).
  { unfold c1. simpl. rewrite Hen. unfold handleRegisterClick.
    rewrite Hcap, Hfalsy. reflexivity. }
  assert (Hreg : isRegistering c1 = true) by (rewrite Ec1; reflexivity).
  assert (Esnap : snapshot c1 = Some frame) by (rewrite Ec1; reflexivity).
  set (p2 := {| app := app p; camera := c1; newPersonName := value |}).
  assert (E2 : pageRun p [Camera (ClickRegister num); TypeName value] = p2).
  { unfold pageRun. cbn [fold_left].
    change (pageStep p (Camera (ClickRegister num)))
      with {| app := app p; camera := c1;
              newPersonName := newPersonName p |}.
    unfold pageStep. cbn [camera]. rewrite Hreg. reflexivity. }
  assert (E3 : p3 = handleConfirmRegistration now p2).
  { unfold p3.
    change (pageRun p [Camera (ClickRegister num); TypeName value;
                       ClickSave now])
      with (pageStep
              (pageRun p [Camera (ClickRegister num); TypeName value])
              (ClickSave now)).
    rewrite E2. unfold pageStep, saveDisabled. unfold p2 at 1 2.
    cbn [camera newPersonName]. rewrite Hreg, Hname. reflexivity. }
  set (app' := App.addPerson now (trim value) frame (app p)).
  pose proof (RosterFacts.addPerson_storage (app p) now (trim value) frame)
    as Estore.
  fold app' in Estore.
  assert (Hblank : forall q t,
            truthyString (trim (newPersonName q)) = false ->
            pageStep q (ClickSave t) = q).
  { intros q t0 Hq. simpl. unfold saveDisabled. rewrite Hq.
    rewrite orb_true_r. reflexivity. }
  destruct (App.addPersonThrows now (trim value) frame (app p)) eqn:Ethrow.
  - assert (E3' : p3 =
      {| app := app';
         camera :=
           step browser c1
             (PropsChanged num (App.knownPeople app') (options c1));
         newPersonName := value |}).
    { rewrite E3. unfold handleConfirmRegistration, p2.
      cbn [app camera newPersonName].
      rewrite Esnap, Hname, Hframe, Ethrow. reflexivity. }
    rewrite E3'. cbn [app camera newPersonName].
    set (t := set_options (options c1)
                (set_knownPeople (App.knownPeople app') c1)).
    change (step browser c1
              (PropsChanged num (App.knownPeople app') (options c1)))
      with (rerunEffect t).
    destruct (rerunEffect_dialog t) as (Er & Es & Ek).
    split; [reflexivity|]. split; [rewrite Ek; reflexivity|].
    split; [|exact Hblank].
    split; [exact Estore|].
    split; [rewrite Er; exact Hreg|].
    split; [rewrite Es; exact Esnap|].
    split; [reflexivity|].
    unfold saveDisabled. cbn [camera newPersonName].
    rewrite Er. change (isRegistering t) with (isRegistering c1).
    rewrite Hreg, Hname. reflexivity.
  - assert (E3' : p3 =
      {| app := app';
         camera :=
           step browser (set_snapshot None (set_isRegistering false c1))
             (PropsChanged num (App.knownPeople app') (options c1));
         newPersonName := EmptyString |}).
    { rewrite E3. unfold handleConfirmRegistration, p2.
      cbn [app camera newPersonName].
      rewrite Esnap, Hname, Hframe, Ethrow. reflexivity. }
    rewrite E3'. cbn [app camera newPersonName].
    set (t := set_options (options c1)
                (set_knownPeople (App.knownPeople app')
                   (set_snapshot None (set_isRegistering false c1)))).
    change (step browser (set_snapshot None (set_isRegistering false c1))
              (PropsChanged num (App.knownPeople app') (options c1)))
      with (rerunEffect t).
    destruct (rerunEffect_dialog t) as (Er & Es & Ek).
    split; [reflexivity|]. split; [rewrite Ek; reflexivity|].
    split; [|exact Hblank].
    split; [exact Estore|].
    split; [rewrite Er; reflexivity|].
    split; [rewrite Es; reflexivity | reflexivity].
Qed.

End Dialog.

(** ** An example *)

(** [String.prototype.trim] on ASCII text: of the white space and line
    terminators that [trim] strips, those below U+0080 are TAB, LF, VT,
    FF, CR and the space. *)
Definition isWhiteSpace (c : ascii) : bool :=
  let n := nat_of_ascii c in
  ((9 <=? n) && (n <=? 13) || (n =? 32))%nat%bool.

Fixpoint trimStart (s : string) : string :=
  match s with
  | String c t => if isWhiteSpace c then trimStart t else s
  | EmptyString => EmptyString
  end.

Fixpoint trimEnd (s : string) : string :=
  match s with
  | EmptyString => EmptyString
  | String c t =>
      match trimEnd t with
      | EmptyString => if isWhiteSpace c then EmptyString
                       else String c EmptyString
      | t' => String c t'
      end
  end.

Definition trimAscii (s : string) : string := trimEnd (trimStart s).

Definition livePage (accepts : list KnownPerson -> bool) : Page Q :=
  {| app := App.mount accepts;
     camera :=
       run CameraFacts.demoBrowser CameraFacts.demoMount
         [StreamGranted Q; VideoChanged Q (Some CameraFacts.demoVideo)];
     newPersonName := EmptyString |}.

(** A storage that is full. *)
Definition full (people : list KnownPerson) : bool := false.

(** Alice is registered from the live view; with the storage full she is
    shown in the roster and the dialog stays open. *)
Lemma registration_adds_captured_frame_witness :
  let trace :=
    [Camera (ClickRegister Q);
     TypeName Q (String (ascii_of_nat 9) " Alice ")%string;
     ClickSave Q 1700000000000%Z] in
  let alice :=
    {| person_id := "person_1700000000000"%string;
       person_name := "Alice"%string;
       person_image := "data:image/jpeg;base64,/9j/4AAQ"%string |} in
  let p3 :=
    pageRun CameraFacts.demoBrowser trimAscii (livePage App.roomy) trace in
  let q3 := pageRun CameraFacts.demoBrowser trimAscii (livePage full) trace in
  App.knownPeople (app p3) = [alice] /\
  App.localStorage (app p3) = Some [alice] /\
  isRegistering (camera p3) = false /\
  App.knownPeople (app q3) = [alice] /\
  App.localStorage (app q3) = None /\
  isRegistering (camera q3) = true.
Proof.
  intros trace alice p3 q3.
  destruct (@registration_adds_captured_frame Q CameraFacts.demoBrowser
              trimAscii (livePage App.roomy) 1700000000000%Z
              (String (ascii_of_nat 9) " Alice ")%string
              "data:image/jpeg;base64,/9j/4AAQ"%string
              eq_refl eq_refl eq_refl eq_refl)
    as (Eroster & _ & (Estore & Eclosed & _) & _).
  destruct (@registration_adds_captured_frame Q CameraFacts.demoBrowser
              trimAscii (livePage full) 1700000000000%Z
              (String (ascii_of_nat 9) " Alice ")%string
              "data:image/jpeg;base64,/9j/4AAQ"%string
              eq_refl eq_refl eq_refl eq_refl)
    as (Eroster' & _ & (Estore' & Eopen & _) & _).
  split; [exact Eroster|]. split; [exact Estore|]. split; [exact Eclosed|].
  split; [exact Eroster'|]. split; [exact Estore' | exact Eopen].
Defined.

End Registration.

(* ===================================================================== *)
(** * components/CameraView.tsx: what a recording downloads *)
(* ===================================================================== *)

Module Recording.
Import CameraView.
Local Open Scope nat_scope.

(** A [Blob]: its bytes and its type. *)
Record Blob := mkBlob {
  blob_data : string;
  blob_type : string
}.

Definition blob_size (b : Blob) : nat := String.length (blob_data b).

(** [new Blob(parts, { type })]: the parts' bytes, one after the other. *)
Definition newBlob (parts : list Blob) (type : string) : Blob :=
  {| blob_data := fold_right String.append EmptyString (map blob_data parts);
     blob_type := type |}.

(** The link clicked to save a recording. *)
Record Download := mkDownload {
  href : Blob;
  download : string
}.

(** [haystack.includes(needle)]. *)
Fixpoint includes (needle haystack : string) : bool :=
  (String.prefix needle haystack
   || match haystack with
      | EmptyString => false
      | String _ rest => includes needle rest
      end)%bool.

Definition vp9 : string := "video/webm; codecs=vp9".

Section Recorder.
Variable num : Type.
(** [MediaRecorder.isTypeSupported]. *)
Variable isTypeSupported : string -> bool.
(** The [mimeType] a [MediaRecorder] reports when constructed with the
    given [mimeType] option, or with none. *)
Variable recorderMimeType : option string -> string.

(** The component with [recordedChunksRef], the [mimeType] of the
    recorder in [mediaRecorderRef], and the files saved so far. *)
Record Recorder := mkRecorder {
  component : State num;
  recordedChunks : list Blob;
  currentMimeType : option string;
  downloads : list Download
}.

(** [handleStartRecording]: a fresh buffer and a fresh recorder. *)
Definition handleStartRecording (r : Recorder) : Recorder :=
  if stream (component r)
  then
    let options := if isTypeSupported vp9 then Some vp9 else None in
    {| component := CameraView.handleStartRecording (component r);
       recordedChunks := [];
       currentMimeType := Some (recorderMimeType options);
       downloads := downloads r |}
  else r.

(** [ondataavailable]. *)
Definition ondataavailable (data : Blob) (r : Recorder) : Recorder :=
  if 0 <? blob_size data
  then {| component := component r;
          recordedChunks := recordedChunks r ++ [data];
          currentMimeType := currentMimeType r;
          downloads := downloads r |}
  else r.

(** [onstop]; [iso] is [new Date().toISOString()]. *)
Definition onstop (iso : string) (r : Recorder) : Recorder :=
  let mimeType :=
    match currentMimeType r with
    | Some (String c t) => String c t
    | _ => "video/webm"%string
    end in
  let blob := newBlob (recordedChunks r) mimeType in
  let extension :=
    if includes "mp4" mimeType then "mp4"%string else "webm"%string in
  {| component := component r;
     recordedChunks := [];
     currentMimeType := currentMimeType r;
     downloads :=
       downloads r ++
       [{| href := blob;
           download :=
             ("FaceRec-recording-" ++ iso ++ "." ++ extension)%string |}] |}.

Definition deliver (r : Recorder) (chunks : list Blob) : Recorder :=
  fold_left (fun st data => ondataavailable data st) chunks r.

Lemma deliver_chunks (chunks : list Blob) (r : Recorder) :
  recordedChunks (deliver r chunks)
  = recordedChunks r ++ filter (fun b => 0 <? blob_size b) chunks /\
  downloads (deliver r chunks) = downloads r /\
  currentMimeType (deliver r chunks) = currentMimeType r /\
  component (deliver r chunks) = component r.
Proof.
  revert r. induction chunks as [|b chunks IH]; intros r; simpl.
  - rewrite app_nil_r. auto.
  - destruct (IH (ondataavailable b r)) as (Ec & Ed & Em & Ek).
    unfold deliver in *. rewrite Ec, Ed, Em, Ek.
    unfold ondataavailable. destruct (0 <? blob_size b); simpl.
    + rewrite <- app_assoc. auto.
    + auto.
Qed.

(** Empty chunks add nothing to a blob. *)
Lemma newBlob_nonempty_parts (chunks : list Blob) (type : string) :
  newBlob (filter (fun b => 0 <? blob_size b) chunks) type
  = newBlob chunks type.
Proof.
  unfold newBlob. f_equal.
  induction chunks as [|b chunks IH]; [reflexivity|].
  simpl. unfold blob_size at 1.
  destruct (blob_data b) as [|c t] eqn:Eb; simpl.
  - exact IH.
  - rewrite Eb, IH. reflexivity.
Qed.

(** From "Record" to the download: the recorder is made for VP9 when the
    browser supports it and without a type otherwise; the file saved holds
    the chunks delivered since the start, in order, and nothing buffered
    before it; empty chunks are never buffered; its type is the one the
    recorder reports, or [video/webm] when it reports none; its name ends
    in [mp4] when that type mentions mp4 and in [webm] otherwise; and the
    buffer is empty again afterwards. *)
Theorem recording_saves_chunks_since_start
    (r : Recorder) (chunks : list Blob) (iso : string) :
  stream (component r) = true ->
  let r2 := deliver (handleStartRecording r) chunks in
  let r3 := onstop iso r2 in
  let reported :=
    recorderMimeType (if isTypeSupported vp9 then Some vp9 else None) in
  let type :=
    if Registration.truthyString reported then reported
    else "video/webm"%string in
  currentMimeType r2 = Some reported /\
  recordedChunks r2 = filter (fun b => 0 <? blob_size b) chunks /\
  Forall (fun b => blob_data b <> EmptyString) (recordedChunks r2) /\
  recordedChunks r3 = [] /\
  downloads r3
  = downloads r ++
    [{| href :=
          {| blob_data :=
               fold_right String.append EmptyString (map blob_data chunks);
             blob_type := type |};
        download :=
          ("FaceRec-recording-" ++ iso ++ "."
           ++ (if includes "mp4" type then "mp4" else "webm"))%string |}] /\
  type <> EmptyString.
Proof.
  intros Hs r2 r3 reported type.
  assert (E1 : handleStartRecording r
               = {| component :=
                      CameraView.handleStartRecording (component r);
                    recordedChunks := [];
                    currentMimeType := Some reported;
                    downloads := downloads r |})
    by (unfold handleStartRecording; rewrite Hs; reflexivity).
  destruct (deliver_chunks chunks (handleStartRecording r))
    as (Ec & Ed & Em & _).
  fold r2 in Ec, Ed, Em. rewrite E1 in Ec, Ed, Em. simpl in Ec, Ed, Em.
  split; [assumption|]. split; [assumption|]. split.
  { rewrite Ec. apply Forall_forall. intros b Hb.
    apply filter_In in Hb. destruct Hb as [_ Hb]. unfold blob_size in Hb.
    destruct (blob_data b); [discriminate | discriminate]. }
  split; [reflexivity|].
  assert (Et : match reported with
               | EmptyString => "video/webm"%string
               | String c t => String c t
               end = type)
    by (unfold type; destruct reported; reflexivity).
  split.
  - unfold r3, onstop. cbn [downloads]. rewrite Ed, Ec, Em, Et.
    rewrite newBlob_nonempty_parts. unfold newBlob.
    destruct (includes "mp4" type); reflexivity.
  - unfold type. destruct reported; discriminate.
Qed.

End Recorder.

(** ** An example *)

(** A browser without VP9 whose recorder writes MP4. *)
Definition mp4Recorder (requested : option string) : string :=
  match requested with
  | Some m => m
  | None => "video/mp4"%string
  end.

Definition idleRecorder : Recorder Q :=
  {| component :=
       run CameraFacts.demoBrowser CameraFacts.demoMount [StreamGranted Q];
     recordedChunks := [{| blob_data := "stale"; blob_type := "" |}];
     currentMimeType := None;
     downloads := [] |}.

Lemma recording_saves_chunks_since_start_witness :
  let r3 :=
    onstop "2026-01-01T00:00:00.000Z"
      (deliver (handleStartRecording (fun _ => false) mp4Recorder idleRecorder)
         [ {| blob_data := "AB"; blob_type := "video/mp4" |};
           {| blob_data := ""; blob_type := "video/mp4" |};
           {| blob_data := "CD"; blob_type := "video/mp4" |} ]) in
  map (fun d => (blob_data (href d), blob_type (href d), download d))
    (downloads r3)
  = [("ABCD", "video/mp4",
      "FaceRec-recording-2026-01-01T00:00:00.000Z.mp4")%string] /\
  recordedChunks r3 = [].
Proof.
  intros r3.
  destruct (@recording_saves_chunks_since_start Q (fun _ => false)
              mp4Recorder idleRecorder
              [ {| blob_data := "AB"; blob_type := "video/mp4" |};
                {| blob_data := ""; blob_type := "video/mp4" |};
                {| blob_data := "CD"; blob_type := "video/mp4" |} ]
              "2026-01-01T00:00:00.000Z"%string eq_refl)
    as (_ & _ & _ & Eempty & Esaved & _).
  split; [unfold r3; rewrite Esaved; reflexivity | exact Eempty].
Defined.

End Recording.

(* ===================================================================== *)
(** * More on the batch view *)
(* ===================================================================== *)

Module BatchMore.
Import BatchAnalyzer.
Import BatchFacts.
Local Open Scope nat_scope.

Section View.
Variable num : Type.
Variable createObjectURL : File -> string.

Abbreviation ImageFileState := (ImageFileState num).
Abbreviation State := (State num).
Abbreviation Event := (Event num).
Abbreviation step := (@step num createObjectURL).
Abbreviation run := (@run num createObjectURL).
Abbreviation settledCalls := (@settledCalls num createObjectURL).

Definition reachable (s : State) : Prop :=
  exists evs, s = run (mount num) evs.

(** [`Process Batch (${imageFiles.filter(f => f.status !== 'done').length})`]:
    the number on the button. *)
Definition notDone (f : ImageFileState) : bool :=
  match status f with
  | done => false
  | _ => true
  end.

Definition buttonCount (s : State) : nat :=
  List.length (filter notDone (imageFiles s)).

(** The calls made and not yet settled after a trace from the mounted
    view: every call made is in the log [invocations], and a call settles
    with a [Settled] event that finds its worker awaiting one. *)
Definition inFlight (evs : list Event) : nat :=
  List.length (invocations (run (mount num) evs))
  - settledCalls (mount num) evs.

(** What every state of the view satisfies, whatever the user does:
    [isBatchLoading] tells whether a worker awaits a call, there are at
    most three slots, and an entry shown as processing is held by a
    worker. *)
Record ViewInv (s : State) : Prop := mkViewInv {
  vi_loading : loadingWhileBusy s;
  vi_slots : List.length (workers s) <= CONCURRENCY_LIMIT;
  vi_processing :
    forall f, In f (imageFiles s) -> status f = processing ->
      exists g, In (Some g) (workers s) /\ id g = id f
}.

Lemma ViewInv_mount : ViewInv (mount num).
Proof.
  constructor; simpl.
  - reflexivity.
  - unfold CONCURRENCY_LIMIT. lia.
  - intros f [].
Qed.

(** The part of [ViewInv] that a worker's loop keeps on its own. *)
Definition heldWhileProcessing (s : State) : Prop :=
  forall f, In f (imageFiles s) -> status f = processing ->
    exists g, In (Some g) (workers s) /\ id g = id f.

Lemma held_workerLoop (s : State) (w : nat) :
  heldWhileProcessing s ->
  (forall g, nth_error (workers s) w = Some (Some g) ->
     forall f, In f (imageFiles s) -> id f = id g ->
               status f <> processing) ->
  w < List.length (workers s) ->
  heldWhileProcessing (workerLoop w s).
Proof.
  unfold heldWhileProcessing, workerLoop. intros Hh Hold Hw.
  destruct (queue s) as [|h rest] eqn:Eq; simpl.
  - intros f Hin Hp.
    destruct (Hh f Hin Hp) as (g & Hg & Eg).
    destruct (@setSlot_keeps num w None _ _ Hg) as [Hk | Hnth].
    + exists g. auto.
    + exfalso. apply (Hold g Hnth f Hin); congruence.
  - intros f' Hin Hp.
    apply in_updateById in Hin.
    destruct Hin as (f & Hf & [[E ->] | [Hne ->]]).
    + exists h. split; [|simpl; congruence].
      apply in_setSlot_new. assumption.
    + destruct (Hh f Hf Hp) as (g & Hg & Eg).
      destruct (@setSlot_keeps num w (Some h) _ _ Hg) as [Hk | Hnth].
      * exists g. auto.
      * exfalso. apply (Hold g Hnth f Hf); congruence.
Qed.

Lemma workerLoop_slots (s : State) (w : nat) :
  List.length (workers (workerLoop w s)) = List.length (workers s).
Proof.
  rewrite (proj1 (workers_workerLoop s w)). apply setSlot_length.
Qed.

Lemma join_fields (s : State) :
  imageFiles (join s) = imageFiles s /\ workers (join s) = workers s /\
  queue (join s) = queue s.
Proof.
  unfold join. destruct (forallb (@isNone num) (workers s)); auto.
Qed.

Lemma busyCount_le (l : list (option ImageFileState)) :
  busyCount l <= List.length l.
Proof. unfold busyCount. apply filter_length_le. Qed.

Lemma ViewInv_click (s : State) :
  ViewInv s -> isBatchLoading s = false -> ViewInv (handleAnalyzeBatch s).
Proof.
  intros [HL Hslots Hproc] Hidle.
  assert (Hidle' : forallb (@isNone num) (workers s) = true).
  { unfold loadingWhileBusy in HL. rewrite Hidle in HL.
    destruct (forallb (@isNone num) (workers s)); [reflexivity|].
    discriminate. }
  assert (Hnone : forall f, In f (imageFiles s) -> status f <> processing).
  { intros f Hin Hp. destruct (Hproc f Hin Hp) as (g & Hg & _).
    exact (all_idle_no_busy _ g Hidle' Hg). }
  rewrite handleAnalyzeBatch_unfold.
  set (s1 := primed s).
  assert (H1 : heldWhileProcessing s1).
  { intros f Hin Hp. exfalso. exact (Hnone f Hin Hp). }
  assert (W1 : workers s1 = [None; None; None]) by reflexivity.
  set (s2 := workerLoop 0 s1).
  assert (H2 : heldWhileProcessing s2).
  { apply held_workerLoop; [assumption | | rewrite W1; simpl; lia].
    rewrite W1. simpl. discriminate. }
  assert (W2 : workers s2 = [hd_error (queue s1); None; None]).
  { unfold s2. rewrite (proj1 (workers_workerLoop s1 0)), W1. reflexivity. }
  set (s3 := workerLoop 1 s2).
  assert (H3 : heldWhileProcessing s3).
  { apply held_workerLoop; [assumption | | rewrite W2; simpl; lia].
    rewrite W2. simpl. discriminate. }
  assert (W3 : workers s3 = [hd_error (queue s1); hd_error (queue s2); None]).
  { unfold s3. rewrite (proj1 (workers_workerLoop s2 1)), W2. reflexivity. }
  set (s4 := workerLoop 2 s3).
  assert (H4 : heldWhileProcessing s4).
  { apply held_workerLoop; [assumption | | rewrite W3; simpl; lia].
    rewrite W3. simpl. discriminate. }
  destruct (join_fields s4) as (Ei & Ew & _).
  constructor.
  - apply loadingWhileBusy_join.
    unfold s4, s3, s2. rewrite !workerLoop_loading. reflexivity.
  - rewrite Ew. unfold s4. rewrite workerLoop_slots, W3. simpl.
    unfold CONCURRENCY_LIMIT. lia.
  - rewrite Ei, Ew. exact H4.
Qed.

Lemma ViewInv_settle (s : State) (w : nat)
    (outcome : option (RecognitionResult num)) :
  ViewInv s -> ViewInv (settle w outcome s).
Proof.
  intros [HL Hslots Hproc]. unfold settle.
  destruct (nth_error (workers s) w) as [[g|]|] eqn:En;
    try (constructor; assumption).
  assert (Hw : w < List.length (workers s))
    by (apply nth_error_Some; congruence).
  assert (Hload : isBatchLoading s = true).
  { rewrite HL. apply nth_error_In in En.
    rewrite (@in_forallb_isNone num _ _ En). reflexivity. }
  set (s1 := processEnd g outcome s).
  assert (Ew1 : workers s1 = workers s)
    by (unfold s1; destruct outcome; reflexivity).
  assert (El1 : isBatchLoading s1 = true)
    by (unfold s1; destruct outcome; exact Hload).
  assert (Hset : forall f, In f (imageFiles s1) -> id f = id g ->
                           status f <> processing).
  { unfold s1. intros f Hin Eid Hp.
    destruct outcome as [r|]; simpl in Hin;
      apply in_updateById in Hin;
      destruct Hin as (f0 & _ & [[_ ->] | [Hne ->]]);
      try discriminate Hp; congruence. }
  assert (H1 : heldWhileProcessing s1).
  { unfold heldWhileProcessing. rewrite Ew1. unfold s1.
    intros f Hin Hp.
    destruct outcome as [r|]; simpl in Hin;
      apply in_updateById in Hin;
      destruct Hin as (f0 & Hf0 & [[_ ->] | [Hne ->]]);
      try discriminate Hp; apply Hproc; assumption. }
  assert (H2 : heldWhileProcessing (workerLoop w s1)).
  { apply held_workerLoop; [assumption | | rewrite Ew1; assumption].
    intros g' Eg' f Hin Eid. rewrite Ew1, En in Eg'.
    inversion Eg'; subst g'. apply Hset; assumption. }
  destruct (join_fields (workerLoop w s1)) as (Ei & Ew & _).
  constructor.
  - apply loadingWhileBusy_join. rewrite workerLoop_loading. exact El1.
  - rewrite Ew, workerLoop_slots, Ew1. exact Hslots.
  - rewrite Ei, Ew. exact H2.
Qed.

Lemma ViewInv_step (s : State) (e : Event) : ViewInv s -> ViewInv (step s e).
Proof.
  intros HV. destruct e; simpl.
  - (* FilesChosen *)
    destruct HV as [HL Hslots Hproc]. unfold handleFileChange.
    destruct files as [[|first rest]|]; try (constructor; assumption).
    constructor; try assumption.
    cbn [imageFiles workers set_selectedImageId set_imageFiles].
    intros f Hin Hp. exfalso.
    rewrite in_map_iff in Hin. destruct Hin as (x & <- & _).
    discriminate Hp.
  - (* ImageLoaded *)
    destruct HV as [HL Hslots Hproc].
    constructor; try assumption. simpl.
    intros f' Hin Hp. apply in_updateById in Hin.
    destruct Hin as (f & Hf & [[_ ->] | [_ ->]]); apply (Hproc f Hf Hp).
  - destruct HV as [HL Hslots Hproc]. constructor; assumption.
  - (* ClickProcess *)
    destruct (processDisabled s) eqn:Ed; [assumption|].
    apply ViewInv_click; [assumption|].
    unfold processDisabled in Ed. destruct (imageFiles s); [discriminate|].
    exact Ed.
  - apply ViewInv_settle. assumption.
Qed.

Lemma reachable_ViewInv (s : State) : reachable s -> ViewInv s.
Proof.
  intros (evs & ->). generalize ViewInv_mount. generalize (mount num).
  induction evs as [|e evs IH]; intros s HV; [assumption|].
  simpl. apply IH. apply ViewInv_step. assumption.
Qed.

(** A settlement moves no call between the log and the queue but the one
    its worker takes up next. *)
Lemma settle_log (s : State) (w : nat)
    (outcome : option (RecognitionResult num)) :
  List.length (invocations (settle w outcome s))
  + List.length (queue (settle w outcome s))
  = List.length (invocations s) + List.length (queue s).
Proof.
  unfold settle. destruct (nth_error (workers s) w) as [[g|]|]; try reflexivity.
  set (s1 := processEnd g outcome s).
  assert (E1 : invocations s1 = invocations s /\ queue s1 = queue s)
    by (unfold s1; destruct outcome; split; reflexivity).
  destruct E1 as [Ei Eq]. rewrite <- Ei, <- Eq.
  assert (Ej : forall t : State, invocations (join t) = invocations t /\
                                 queue (join t) = queue t).
  { intros t. unfold join.
    destruct (forallb (@isNone num) (workers t)); split; reflexivity. }
  destruct (Ej (workerLoop w s1)) as [-> ->].
  unfold workerLoop. destruct (queue s1) as [|h rest] eqn:Eq1; simpl.
  - rewrite Eq1. reflexivity.
  - rewrite length_app. simpl. lia.
Qed.

(** One event: the calls made grow by the calls that came to be awaited
    and the call that settled. *)
Lemma step_calls (s : State) (e : Event) :
  ViewInv s ->
  List.length (invocations (step s e)) + busyCount (workers s)
  = List.length (invocations s) + busyCount (workers (step s e))
    + settledCalls s [e].
Proof.
  intros [HL Hslots Hproc].
  destruct e as [files|target size|target| |w outcome];
    cbn [BatchAnalyzer.settledCalls].
  - simpl. unfold handleFileChange.
    destruct files as [[|first rest]|]; simpl; lia.
  - simpl. lia.
  - simpl. lia.
  - simpl. destruct (processDisabled s) eqn:Hd; [lia|].
    assert (Hidle : isBatchLoading s = false).
    { unfold processDisabled in Hd. destruct (imageFiles s);
        [discriminate | exact Hd]. }
    assert (Hb : busyCount (workers s) = 0).
    { apply busyCount_zero. unfold loadingWhileBusy in HL.
      rewrite Hidle in HL.
      destruct (forallb (@isNone num) (workers s)); [reflexivity|].
      discriminate. }
    pose proof (@Running_start num s) as (HR & _).
    pose proof (ri_log HR) as Hlog.
    apply (f_equal (@List.length _)) in Hlog. rewrite !length_app in Hlog.
    pose proof (@start_remaining num s) as Hrem.
    unfold remaining in Hrem. lia.
  - unfold awaiting.
    destruct (nth_error (workers s) w) as [[g|]|] eqn:En.
    + pose proof (@settle_remaining num s w g outcome En) as Hs.
      pose proof (settle_log s w outcome) as Hl.
      unfold remaining in Hs.
      change (step s (Settled w outcome)) with (settle w outcome s). lia.
    + simpl. unfold settle. rewrite En. lia.
    + simpl. unfold settle. rewrite En. lia.
Qed.

Lemma run_calls (evs : list Event) (s : State) :
  ViewInv s ->
  List.length (invocations (run s evs)) + busyCount (workers s)
  = List.length (invocations s) + busyCount (workers (run s evs))
    + settledCalls s evs.
Proof.
  revert s. induction evs as [|e evs IH]; intros s HV; [simpl; lia|].
  pose proof (step_calls e HV) as H1.
  specialize (IH (step s e) (ViewInv_step e HV)).
  change (run s (e :: evs)) with (run (step s e) evs).
  cbn [BatchAnalyzer.settledCalls] in *. lia.
Qed.

(** Whatever the user does (selections, changes of images during a run,
    clicks) and however the calls settle, the calls made and not yet
    settled are at most three, and the spinner ([isBatchLoading]) shows
    exactly while there is one. *)
Theorem batch_never_exceeds_pool (evs : list Event) :
  let s := run (mount num) evs in
  List.length (invocations s) = settledCalls (mount num) evs + inFlight evs /\
  inFlight evs <= 3 /\
  (isBatchLoading s = true <-> 0 < inFlight evs).
Proof.
  intros s.
  assert (Hr : reachable s) by (exists evs; reflexivity).
  destruct (reachable_ViewInv Hr) as [HL Hslots _].
  pose proof (run_calls evs ViewInv_mount) as Hc. fold s in Hc.
  change (busyCount (workers (mount num))) with 0 in Hc.
  change (List.length (invocations (mount num))) with 0 in Hc.
  assert (Ef : inFlight evs = busyCount (workers s)).
  { unfold inFlight. fold s. lia. }
  split; [lia|]. rewrite Ef. split.
  - pose proof (busyCount_le (workers s)).
    unfold CONCURRENCY_LIMIT in Hslots. lia.
  - rewrite HL.
    pose proof (busyCount_zero (workers s)) as Hz.
    destruct (forallb (@isNone num) (workers s)); simpl; split;
      intros H; try discriminate; try reflexivity.
    + assert (busyCount (workers s) = 0) by (apply Hz; reflexivity). lia.
    + destruct (busyCount (workers s)) eqn:E; [|lia].
      destruct Hz as [Hz _]. specialize (Hz eq_refl). discriminate.
Qed.

(** While no run is in progress no entry is shown as processing, and the
    number on the "Process Batch" button is the number of files the next
    click submits. *)
Theorem button_counts_next_submission (s : State) :
  reachable s -> isBatchLoading s = false ->
  (forall f, In f (imageFiles s) -> status f <> processing) /\
  buttonCount s = List.length (filter (@toProcess num) (imageFiles s)) /\
  (processDisabled s = false ->
   List.length (invocations (step s (ClickProcess num)))
   + List.length (queue (step s (ClickProcess num)))
   = List.length (invocations s) + buttonCount s).
Proof.
  intros Hr Hidle. destruct (reachable_ViewInv Hr) as [HL Hslots Hproc].
  assert (Hidle' : forallb (@isNone num) (workers s) = true).
  { unfold loadingWhileBusy in HL. rewrite Hidle in HL.
    destruct (forallb (@isNone num) (workers s)); [reflexivity|].
    discriminate. }
  assert (Hnone : forall f, In f (imageFiles s) -> status f <> processing).
  { intros f Hin Hp. destruct (Hproc f Hin Hp) as (g & Hg & _).
    exact (all_idle_no_busy _ g Hidle' Hg). }
  assert (Ecount : buttonCount s
                   = List.length (filter (@toProcess num) (imageFiles s))).
  { unfold buttonCount. f_equal. apply filter_ext_in.
    intros f Hin. specialize (Hnone f Hin).
    unfold notDone, toProcess. destruct (status f); congruence. }
  split; [assumption|]. split; [assumption|].
  intros Hen. rewrite (click_enabled createObjectURL s Hen).
  destruct (Running_start s) as (HR & _).
  pose proof (ri_log HR) as Hlog.
  apply (f_equal (@List.length _)) in Hlog.
  rewrite !length_app in Hlog. rewrite Ecount. exact Hlog.
Qed.

(** ** Selecting an entry *)

Definition isSelect (e : Event) : bool :=
  match e with
  | Select _ _ => true
  | _ => false
  end.

Definition withoutSelects (evs : list Event) : list Event :=
  filter (fun e => negb (isSelect e)) evs.

(** Everything of the state but the selection. *)
Definition pipeline (s : State) :=
  (imageFiles s, isBatchLoading s, queue s, workers s, invocations s).

Lemma pipeline_eq (a b : State) :
  pipeline a = pipeline b -> a = set_selectedImageId (selectedImageId a) b.
Proof.
  destruct a, b. unfold pipeline. simpl. intros [= -> -> -> -> ->].
  reflexivity.
Qed.

Lemma workerLoop_selected (x : option string) (s : State) (w : nat) :
  workerLoop w (set_selectedImageId x s)
  = set_selectedImageId x (workerLoop w s).
Proof.
  unfold workerLoop. simpl. destruct (queue s); reflexivity.
Qed.

Lemma join_selected (x : option string) (s : State) :
  join (set_selectedImageId x s) = set_selectedImageId x (join s).
Proof.
  unfold join. simpl.
  destruct (forallb (@isNone num) (workers s)); reflexivity.
Qed.

Lemma step_selected (x : option string) (s : State) (e : Event) :
  pipeline (step (set_selectedImageId x s) e) = pipeline (step s e).
Proof.
  destruct e; simpl.
  - unfold handleFileChange. destruct files as [[|first rest]|]; reflexivity.
  - reflexivity.
  - reflexivity.
  - unfold processDisabled. simpl.
    destruct (imageFiles s) eqn:Ei; [reflexivity|].
    destruct (isBatchLoading s); [reflexivity|].
    rewrite !handleAnalyzeBatch_unfold.
    change (primed (set_selectedImageId x s))
      with (set_selectedImageId x (primed s)).
    rewrite !workerLoop_selected, join_selected. reflexivity.
  - unfold settle. simpl.
    destruct (nth_error (workers s) w) as [[g|]|]; try reflexivity.
    assert (E : processEnd g outcome (set_selectedImageId x s)
                = set_selectedImageId x (processEnd g outcome s))
      by (destruct outcome; reflexivity).
    rewrite E, workerLoop_selected, join_selected. reflexivity.
Qed.

Lemma workerLoop_selection (s : State) (w : nat) :
  selectedImageId (workerLoop w s) = selectedImageId s.
Proof. unfold workerLoop. destruct (queue s); reflexivity. Qed.

Lemma join_selection (s : State) :
  selectedImageId (join s) = selectedImageId s.
Proof.
  unfold join. destruct (forallb (@isNone num) (workers s)); reflexivity.
Qed.

Lemma step_same_pipeline (a b : State) (e : Event) :
  pipeline a = pipeline b -> pipeline (step a e) = pipeline (step b e).
Proof.
  intros H. rewrite (@pipeline_eq a b H). apply step_selected.
Qed.

(** Selecting entries for the detail view neither blocks nor alters the
    run: a trace and the same trace with its selections removed leave the
    same list, queue, workers, calls and loading flag; a selection takes
    effect whatever the entry's status; and no step of the run moves the
    selection. *)
Theorem selection_independent_of_run (s : State) (evs : list Event) :
  pipeline (run s evs) = pipeline (run s (withoutSelects evs)) /\
  (forall target, pipeline (step s (Select num target)) = pipeline s /\
                  selectedImageId (step s (Select num target)) = Some target) /\
  (forall e, match e with
             | FilesChosen _ _ | Select _ _ => True
             | _ => selectedImageId (step s e) = selectedImageId s
             end).
Proof.
  split; [|split].
  - assert (H : forall a b, pipeline a = pipeline b ->
                  pipeline (run a evs) = pipeline (run b (withoutSelects evs))).
    { induction evs as [|e evs IH]; intros a b Hab; [assumption|].
      simpl. destruct (isSelect e) eqn:Es; simpl.
      - apply IH. destruct e; try discriminate. exact Hab.
      - apply IH. apply step_same_pipeline. assumption. }
    apply H. reflexivity.
  - intros target. split; reflexivity.
  - intros [files|target size|target| |w outcome]; try exact I.
    + reflexivity.
    + simpl. destruct (processDisabled s); [reflexivity|].
      rewrite handleAnalyzeBatch_unfold.
      rewrite join_selection, !workerLoop_selection. reflexivity.
    + simpl. unfold settle.
      destruct (nth_error (workers s) w) as [[g|]|]; try reflexivity.
      rewrite join_selection, workerLoop_selection.
      destruct outcome; reflexivity.
Qed.

End View.

(** ** Examples *)

Definition firstTrace : list (Event Q) :=
  FilesChosen Q (Some demoFiles) :: ClickProcess Q :: firstRun.

(** Right after the click three calls are in flight, still three once
    two have settled, and none after the run. *)
Lemma batch_never_exceeds_pool_witness :
  inFlight demoURL [FilesChosen Q (Some demoFiles); ClickProcess Q] = 3 /\
  inFlight demoURL (firstn 4 firstTrace) = 3 /\
  inFlight demoURL firstTrace = 0 /\
  isBatchLoading (run demoURL (mount Q) firstTrace) = false.
Proof.
  destruct (batch_never_exceeds_pool demoURL (firstn 4 firstTrace))
    as (Esum & Hle & _).
  split; [reflexivity|]. split; [|split; reflexivity].
  assert (Hge : 3 <= inFlight demoURL (firstn 4 firstTrace))
    by (vm_compute; lia).
  lia.
Defined.

(** After five done and two failed the button reads 2. *)
Lemma button_counts_next_submission_witness :
  buttonCount (run demoURL (mount Q) firstTrace) = 2 /\
  forall f, In f (imageFiles (run demoURL (mount Q) firstTrace)) ->
            status f <> processing.
Proof.
  assert (Hr : reachable demoURL (run demoURL (mount Q) firstTrace))
    by (exists firstTrace; reflexivity).
  destruct (button_counts_next_submission Hr eq_refl) as (Hnone & Ec & _).
  split; [rewrite Ec; reflexivity | exact Hnone].
Defined.

(** Seven files: the spinner is still on after six settlements and off
    after the seventh. *)
Lemma batch_run_completes_witness :
  let started := step demoURL sevenPending (ClickProcess Q) in
  isBatchLoading (run demoURL started firstRun) = false /\
  isBatchLoading (run demoURL started (firstn 6 firstRun)) = true.
Proof.
  intros started.
  assert (Hset : settling demoURL started firstRun).
  { simpl. repeat (split; [eexists; reflexivity|]). exact I. }
  destruct (@batch_run_completes Q demoURL sevenPending firstRun
              eq_refl Hset) as [Hiff _].
  split; [apply Hiff; reflexivity | reflexivity].
Defined.

End BatchMore.

(* ===================================================================== *)
(** * services/geminiService.ts *)
(* ===================================================================== *)

Module GeminiService.
Local Open Scope nat_scope.
#[local] Set Warnings "-register-all".

(** [s.split(sep)] for a one-character separator: never empty. *)
Fixpoint split (sep : ascii) (s : string) : list string :=
  match s with
  | EmptyString => [EmptyString]
  | String c t =>
      if Ascii.eqb c sep then EmptyString :: split sep t
      else
        match split sep t with
        | first :: rest => String c first :: rest
        | [] => [String c EmptyString]
        end
  end.

(** A part of the request's [contents]; [data] is [None] when it is
    [undefined]. *)
Inductive Part :=
| Text (text : string)
| InlineData (data : option string) (mimeType : string).

Definition defaultMimeType : string := "image/jpeg".

Definition base64ToGenerativePart (base64 mimeType : string) : Part :=
  InlineData (nth_error (split "," base64) 1) mimeType.

(** [mainImage]: a data URL already, or a [File], given by its [type] and
    by what [reader.result] holds when [onloadend] fires: the data URL, or
    [null] when the file could not be read. *)
Inductive MainImage :=
| ImageFile (result : option string) (type : string)
| ImageString (base64 : string).

(** [fileToGenerativePart]: [None] when its promise never settles.  With
    [reader.result] null the [onloadend] handler throws on [split] before
    it calls [resolve], and the promise has no [reject]. *)
Definition fileToGenerativePart (result : option string) (type : string)
    : option Part :=
  match result with
  | Some dataURL => Some (InlineData (nth_error (split "," dataURL) 1) type)
  | None => None
  end.

(** A roster entry as the service meets it at run time.  The roster is
    state of [App], which takes it as it comes out of [JSON.parse] of the
    stored item: [image] need not be a string.  [None]: a value on which
    [split] cannot be called. *)
Record RosterEntry := mkEntry {
  entry_name : string;
  entry_image : option string
}.

(** An entry made by [addPerson]. *)
Definition entryOf (person : KnownPerson) : RosterEntry :=
  {| entry_name := person_name person;
     entry_image := Some (person_image person) |}.

Inductive Schema :=
| OBJECT (properties : list (string * Schema))
| ARRAY (items : Schema)
| NUMBER
| STRING
| INTEGER.

Record Request := mkRequest {
  model : string;
  contents : list Part;
  responseMimeType : string;
  responseSchema : Schema
}.

Definition genderPrompt (options : RecognitionOptions) : string :=
  if recognizeGender options
  then "For each face, also determine the apparent gender (e.g., 'Male', 'Female')."
  else "".

Definition promptText (options : RecognitionOptions) : string :=
  ("
    Analyze the primary image. Your task is to perform face detection and recognition.
    1. Detect all human faces and provide their bounding box coordinates (x, y, width, height) as percentages of the image dimensions, from 0.0 to 1.0.
    2. Compare each detected face against the provided reference images of known people.
    3. If a face in the primary image strongly matches a reference image, label it with that person's name from the reference. Otherwise, label it as 'Unknown'.
    4. Provide a confidence score from 0.0 to 1.0 for each recognition. For 'Unknown' faces, this can be the detection confidence.
    " ++ genderPrompt options ++ "
    5. Provide a total count of all detected persons.
    6. Respond ONLY with a single JSON object. Do not include markdown formatting or any other text.
  ")%string.

Definition faceProperties (options : RecognitionOptions)
    : list (string * Schema) :=
  [("box"%string,
    OBJECT [("x"%string, NUMBER); ("y"%string, NUMBER);
            ("width"%string, NUMBER); ("height"%string, NUMBER)]);
   ("name"%string, STRING);
   ("confidence"%string, NUMBER)]
  ++ (if recognizeGender options then [("gender"%string, STRING)] else []).

Definition responseSchemaFor (options : RecognitionOptions) : Schema :=
  OBJECT [("faces"%string, ARRAY (OBJECT (faceProperties options)));
          ("personCount"%string, INTEGER)].

(** [None]: the [await] never returns. *)
Definition mainImagePart (mainImage : MainImage) : option Part :=
  match mainImage with
  | ImageString base64 => Some (base64ToGenerativePart base64 defaultMimeType)
  | ImageFile result type => fileToGenerativePart result type
  end.

(** The two parts sent for one known person; [None] when building them
    throws a [TypeError]. *)
Definition referenceParts (person : RosterEntry) : option (list Part) :=
  match entry_image person with
  | Some image =>
      Some [Text ("Reference image for " ++ entry_name person ++ ":")%string;
            base64ToGenerativePart image defaultMimeType]
  | None => None
  end.

(** [knownPeople.flatMap(...)]: it throws when its callback does. *)
Fixpoint referenceList (knownPeople : list RosterEntry)
    : option (list Part) :=
  match knownPeople with
  | [] => Some []
  | person :: rest =>
      match referenceParts person, referenceList rest with
      | Some parts, Some more => Some (parts ++ more)
      | _, _ => None
      end
  end.

(** The argument of [ai.models.generateContent]. *)
Definition buildRequest (mainImagePart : Part) (references : list Part)
    (options : RecognitionOptions) : Request :=
  {| model := "gemini-2.5-flash";
     contents :=
       [Text (promptText options);
        Text "Primary image to analyze:";
        mainImagePart]
       ++ references;
     responseMimeType := "application/json";
     responseSchema := responseSchemaFor options |}.

(** A parsed JSON text. *)
Inductive Json :=
| JNull
| JBool (b : bool)
| JNumber (q : Q)
| JString (s : string)
| JArray (elements : list Json)
| JObject (members : list (string * Json)).

(** [value.key]: [None] is [undefined]; the caller has excluded [null]. *)
Definition getProperty (key : string) (value : Json) : option Json :=
  match value with
  | JObject members =>
      match find (fun m => String.eqb (fst m) key) (rev members) with
      | Some m => Some (snd m)
      | None => None
      end
  | _ => None
  end.

(** The falsy values that a property of a parsed JSON text can take. *)
Definition falsyJson (v : option Json) : bool :=
  match v with
  | None => true
  | Some JNull => true
  | Some (JBool false) => true
  | Some (JNumber q) => Qeq_bool q 0
  | Some (JString EmptyString) => true
  | Some _ => false
  end.

(** [v || fallback]. *)
Definition orElse (v : option Json) (fallback : Json) : Json :=
  match v with
  | Some j => if falsyJson v then fallback else j
  | None => fallback
  end.

(** What the promise resolves to: the two members as they were parsed. *)
Record Detection := mkDetection {
  faces : Json;
  personCount : Json
}.

(** How [generateContent] ends: it throws, or it returns a response whose
    [text] may be [undefined]. *)
Inductive Reply :=
| RequestFails
| ResponseWithoutText
| ResponseText (text : string).

(** How the promise of [detectAndRecognizeFaces] ends: rejected with an
    [Error] of the given message, rejected with the [TypeError] thrown
    while the contents are built (before the [try]), resolved, or never
    settled. *)
Inductive Outcome :=
| Rejects (message : string)
| RejectsTypeError
| Resolves (result : Detection)
| NeverSettles.

Definition keyMissing : string := "API_KEY environment variable not set".
Definition analysisFailed : string :=
  "Failed to analyze image with Gemini API.".

Section Service.
(** [process.env.API_KEY]. *)
Variable API_KEY : option string.
(** The backend. *)
Variable generateContent : Request -> Reply.
(** [JSON.parse(text.trim())]: [None] when it throws. *)
Variable parseTrimmed : string -> option Json.

(** [detectAndRecognizeFaces]: how the promise ends, and the requests made
    on the way. *)
Definition detectAndRecognizeFaces (mainImage : MainImage)
    (knownPeople : list RosterEntry) (options : RecognitionOptions)
    : Outcome * list Request :=
  match API_KEY with
  | None | Some EmptyString => (Rejects keyMissing, [])
  | Some _ =>
      match mainImagePart mainImage with
      | None => (NeverSettles, [])
      | Some part =>
          match referenceList knownPeople with
          | None => (RejectsTypeError, [])
          | Some references =>
              let request := buildRequest part references options in
              let outcome :=
                match generateContent request with
                | ResponseText text =>
                    match parseTrimmed text with
                    | Some JNull => Rejects analysisFailed
                    | Some result =>
                        Resolves
                          {| faces :=
                               orElse (getProperty "faces" result)
                                 (JArray []);
                             personCount :=
                               orElse (getProperty "personCount" result)
                                 (JNumber 0) |}
                    | None => Rejects analysisFailed
                    end
                | _ => Rejects analysisFailed
                end in
              (outcome, [request])
          end
      end
  end.

End Service.

(** ** Facts *)

Fixpoint noComma (s : string) : bool :=
  match s with
  | EmptyString => true
  | String c t => (negb (Ascii.eqb c ",") && noComma t)%bool
  end.

Lemma split_no_comma (s : string) :
  noComma s = true -> split "," s = [s].
Proof.
  induction s as [|c t IH]; [reflexivity|]. simpl.
  destruct (Ascii.eqb c ","); [discriminate|]. simpl.
  intros Ht. rewrite (IH Ht). reflexivity.
Qed.

Lemma split_header (header rest : string) :
  noComma header = true ->
  split "," (header ++ String "," rest) = header :: split "," rest.
Proof.
  induction header as [|c t IH]; simpl.
  - reflexivity.
  - destruct (Ascii.eqb c ","); [discriminate|]. simpl.
    intros Ht. rewrite (IH Ht). reflexivity.
Qed.

(** The image data sent for a data URL is what stands between its first
    and its second comma: for [header,payload] without further commas the
    payload, for a header followed by a bare comma (the [data:,] of an empty
    canvas) the empty string, and [undefined] for a string without comma;
    the MIME type sent is the one given, never the one the header names. *)
Theorem inline_data_is_payload (header payload mimeType : string) :
  noComma header = true -> noComma payload = true ->
  base64ToGenerativePart (header ++ String "," payload) mimeType
  = InlineData (Some payload) mimeType /\
  base64ToGenerativePart (header ++ ",") mimeType
  = InlineData (Some EmptyString) mimeType /\
  base64ToGenerativePart header mimeType = InlineData None mimeType /\
  (forall more,
     base64ToGenerativePart (header ++ String "," payload ++ String "," more)
       mimeType
     = InlineData (Some payload) mimeType).
Proof.
  intros Hh Hp. unfold base64ToGenerativePart.
  split; [|split; [|split]].
  - rewrite (@split_header header _ Hh), (@split_no_comma payload Hp).
    reflexivity.
  - rewrite (@split_header header _ Hh). reflexivity.
  - rewrite (@split_no_comma header Hh). reflexivity.
  - intros more.
    change (String "," payload ++ String "," more)%string
      with (String "," (payload ++ String "," more))%string.
    rewrite (@split_header header _ Hh), (@split_header payload _ Hp).
    reflexivity.
Qed.

Lemma inline_data_is_payload_witness :
  base64ToGenerativePart "data:image/png;base64,iVBORw0KGgo" defaultMimeType
  = InlineData (Some "iVBORw0KGgo"%string) "image/jpeg" /\
  base64ToGenerativePart "data:," defaultMimeType
  = InlineData (Some EmptyString) "image/jpeg".
Proof.
  destruct (@inline_data_is_payload "data:image/png;base64" "iVBORw0KGgo"
              defaultMimeType eq_refl eq_refl) as (E1 & _).
  split; [exact E1 | reflexivity].
Defined.

(** The parts for a roster made by [addPerson]. *)
Lemma referenceList_typed (knownPeople : list KnownPerson) :
  exists references,
    referenceList (map entryOf knownPeople) = Some references /\
    List.length references = 2 * List.length knownPeople /\
    (forall k person,
       nth_error knownPeople k = Some person ->
       nth_error references (2 * k)
       = Some (Text ("Reference image for " ++ person_name person ++ ":")%string)
       /\
       nth_error references (S (2 * k))
       = Some (base64ToGenerativePart (person_image person)
                 defaultMimeType)).
Proof.
  induction knownPeople as [|p rest (more & Emore & Hlen & Hnth)].
  - exists []. split; [reflexivity|]. split; [reflexivity|].
    intros [|k] person; discriminate.
  - eexists. split; [simpl; rewrite Emore; reflexivity|].
    split; [simpl; rewrite Hlen; lia|].
    intros [|k] person Hk.
    + simpl in Hk. injection Hk as ->. split; reflexivity.
    + simpl in Hk. destruct (Hnth k person Hk) as [E1 E2].
      replace (2 * S k) with (S (S (2 * k))) by lia.
      split; simpl; assumption.
Qed.

Lemma referenceList_throws (knownPeople : list RosterEntry) :
  referenceList knownPeople = None <->
  exists person, In person knownPeople /\ entry_image person = None.
Proof.
  induction knownPeople as [|p rest IH]; simpl.
  - split; [discriminate | intros (person & [] & _)].
  - unfold referenceParts at 1.
    destruct (entry_image p) as [image|] eqn:Ei.
    + destruct (referenceList rest) as [more|].
      * split; [discriminate|].
        intros (person & [<- | Hin] & Hnone); [congruence|].
        destruct IH as [_ IH].
        assert (Hsome : exists q, In q rest /\ entry_image q = None)
          by (exists person; auto).
        specialize (IH Hsome). discriminate.
      * split; [|reflexivity]. intros _.
        destruct IH as [IH _]. destruct (IH eq_refl) as (person & Hin & Hn).
        exists person. auto.
    + split; [|reflexivity]. intros _. exists p. auto.
Qed.

(** The request for a roster made by [addPerson] is built without a throw
    and names the model [gemini-2.5-flash] and a JSON response with the
    schema for the options; its contents are the prompt for the options,
    the caption of the primary image and that image, then for every known
    person, in the order of the roster, a caption with the name followed
    by the reference image, always sent as [image/jpeg].  The
    [countPeople] option changes nothing in the request; [recognizeGender]
    decides whether the schema has a [gender] member and whether the prompt
    asks for it. *)
Theorem request_lists_roster_in_order (mainImagePart : Part)
    (knownPeople : list KnownPerson) (options : RecognitionOptions) :
  exists references,
    referenceList (map entryOf knownPeople) = Some references /\
    let request := buildRequest mainImagePart references options in
    model request = "gemini-2.5-flash"%string /\
    responseMimeType request = "application/json"%string /\
    responseSchema request = responseSchemaFor options /\
    List.length (contents request) = 3 + 2 * List.length knownPeople /\
    nth_error (contents request) 0 = Some (Text (promptText options)) /\
    nth_error (contents request) 1
    = Some (Text "Primary image to analyze:") /\
    nth_error (contents request) 2 = Some mainImagePart /\
    (forall k person,
       nth_error knownPeople k = Some person ->
       nth_error (contents request) (3 + 2 * k)
       = Some (Text ("Reference image for " ++ person_name person ++ ":")%string)
       /\
       nth_error (contents request) (4 + 2 * k)
       = Some (InlineData (nth_error (split "," (person_image person)) 1)
                 "image/jpeg")) /\
    (forall count,
       buildRequest mainImagePart references
         {| recognizeGender := recognizeGender options; countPeople := count |}
       = request) /\
    (In "gender"%string (map fst (faceProperties options)) <->
     recognizeGender options = true) /\
    (Recording.includes "gender" (promptText options)
     = recognizeGender options).
Proof.
  destruct (referenceList_typed knownPeople) as (references & Eref & Hlen & Hnth).
  exists references. split; [exact Eref|].
  intros request. unfold request, buildRequest.
  cbn [contents model responseMimeType responseSchema].
  split; [reflexivity|]. split; [reflexivity|]. split; [reflexivity|].
  split; [rewrite length_app, Hlen; reflexivity|].
  split; [reflexivity|]. split; [reflexivity|]. split; [reflexivity|].
  split; [|split; [|split]].
  - intros k person Hk.
    destruct (Hnth k person Hk) as [E1 E2].
    split.
    + change (3 + 2 * k) with (S (S (S (2 * k)))). simpl. exact E1.
    + change (4 + 2 * k) with (S (S (S (S (2 * k))))). simpl. exact E2.
  - intros count. reflexivity.
  - unfold faceProperties. destruct (recognizeGender options); simpl.
    + split; [reflexivity | intuition].
    + split; [|discriminate].
      intros [H | [H | [H | []]]]; discriminate.
  - unfold promptText, genderPrompt.
    destruct (recognizeGender options); vm_compute; reflexivity.
Qed.

Section Settling.
Variable API_KEY : option string.
Variable generateContent : Request -> Reply.
Variable parseTrimmed : string -> option Json.

Abbreviation detect :=
  (detectAndRecognizeFaces API_KEY generateContent parseTrimmed).

(** How a call ends.  Without an API key it rejects with the key message
    and sends nothing.  With a key: for a [File] that cannot be read the
    promise never settles and nothing is sent; for a readable image and a
    roster with an image that is no string it rejects with a [TypeError],
    not with the analysis message, and nothing is sent; otherwise exactly
    one request is sent, and the promise rejects with the one analysis
    message whenever the request fails, the response has no text, the text
    does not parse, or it parses to [null], and else resolves, with [faces]
    the parsed member as it is (of whatever shape) when that is truthy and
    the empty array when not, and [personCount] the parsed member or 0.
    A roster made by [addPerson] holds strings only. *)
Theorem service_settles (mainImage : MainImage)
    (knownPeople : list RosterEntry) (options : RecognitionOptions) :
  let outcome := fst (detect mainImage knownPeople options) in
  let requests := snd (detect mainImage knownPeople options) in
  let key :=
    Registration.truthyString
      (match API_KEY with Some k => k | None => EmptyString end) in
  (key = false -> outcome = Rejects keyMissing /\ requests = []) /\
  (key = true -> mainImagePart mainImage = None ->
   outcome = NeverSettles /\ requests = []) /\
  (key = true -> mainImagePart mainImage <> None ->
   referenceList knownPeople = None ->
   outcome = RejectsTypeError /\ requests = []) /\
  (forall part references,
     key = true -> mainImagePart mainImage = Some part ->
     referenceList knownPeople = Some references ->
     requests = [buildRequest part references options] /\
     (outcome = Rejects analysisFailed <->
      match generateContent (buildRequest part references options) with
      | ResponseText text =>
          parseTrimmed text = None \/ parseTrimmed text = Some JNull
      | _ => True
      end) /\
     ((exists result, outcome = Resolves result) \/
      outcome = Rejects analysisFailed)) /\
  (mainImagePart mainImage = None <->
   exists type, mainImage = ImageFile None type) /\
  (referenceList knownPeople = None <->
   exists person, In person knownPeople /\ entry_image person = None) /\
  (forall people, referenceList (map entryOf people) <> None) /\
  List.length requests <= 1 /\
  (forall message, outcome = Rejects message ->
     message = keyMissing \/ message = analysisFailed) /\
  (forall result, outcome = Resolves result ->
     exists part references text parsed,
       mainImagePart mainImage = Some part /\
       referenceList knownPeople = Some references /\
       generateContent (buildRequest part references options)
       = ResponseText text /\
       parseTrimmed text = Some parsed /\
       faces result = orElse (getProperty "faces" parsed) (JArray []) /\
       personCount result
       = orElse (getProperty "personCount" parsed) (JNumber 0) /\
       falsyJson (Some (faces result)) = false).
Proof.
  intros outcome requests key.
  assert (Hfaces : forall v,
            falsyJson (Some (orElse v (JArray []))) = false).
  { intros [j|]; [|reflexivity]. unfold orElse.
    destruct (falsyJson (Some j)) eqn:E; [reflexivity | exact E]. }
  assert (Himage : mainImagePart mainImage = None <->
                   exists type, mainImage = ImageFile None type).
  { destruct mainImage as [[dataURL|] type | base64]; simpl.
    - split; [discriminate | intros (t & [=])].
    - split; [eauto | reflexivity].
    - split; [discriminate | intros (t & [=])]. }
  assert (Htyped : forall people, referenceList (map entryOf people) <> None).
  { intros people. destruct (referenceList_typed people) as (r & -> & _).
    discriminate. }
  assert (Hsent : forall part references,
            mainImagePart mainImage = Some part ->
            referenceList knownPeople = Some references ->
            forall c k,
            detectAndRecognizeFaces (Some (String c k)) generateContent
              parseTrimmed mainImage knownPeople options
            = (match generateContent
                       (buildRequest part references options) with
               | ResponseText text =>
                   match parseTrimmed text with
                   | Some JNull => Rejects analysisFailed
                   | Some result =>
                       Resolves
                         {| faces :=
                              orElse (getProperty "faces" result)
                                (JArray []);
                            personCount :=
                              orElse (getProperty "personCount" result)
                                (JNumber 0) |}
                   | None => Rejects analysisFailed
                   end
               | _ => Rejects analysisFailed
               end, [buildRequest part references options])).
  { intros part references Ep Er c k. unfold detectAndRecognizeFaces.
    rewrite Ep, Er. reflexivity. }
  unfold outcome, requests, key.
  destruct API_KEY as [[|c k]|]; cbn [Registration.truthyString].
  - (* empty key *)
    cbn [detectAndRecognizeFaces fst snd].
    split; [auto|]. split; [discriminate|]. split; [discriminate|].
    split; [discriminate|]. split; [exact Himage|].
    split; [apply referenceList_throws|]. split; [exact Htyped|].
    split; [simpl; lia|].
    split; [intros m [= <-]; auto | discriminate].
  - split; [discriminate|].
    split.
    { intros _ Ep. unfold detectAndRecognizeFaces. rewrite Ep. auto. }
    split.
    { intros _ Ep Er. unfold detectAndRecognizeFaces.
      destruct (mainImagePart mainImage); [|congruence].
      rewrite Er. auto. }
    split.
    { intros part references _ Ep Er.
      rewrite (Hsent part references Ep Er). cbn [fst snd].
      set (request := buildRequest part references options).
      split; [reflexivity|].
      destruct (generateContent request) as [| |text];
        [split; [tauto | auto] | split; [tauto | auto] |].
      destruct (parseTrimmed text) as [[]|]; split;
        try (split; intros H; try reflexivity; try discriminate; auto;
             destruct H as [H | H]; discriminate);
        first [right; reflexivity | left; eexists; reflexivity]. }
    split; [exact Himage|].
    split; [apply referenceList_throws|]. split; [exact Htyped|].
    destruct (mainImagePart mainImage) as [part|] eqn:Ep;
      [|unfold detectAndRecognizeFaces; rewrite Ep; cbn [fst snd];
        split; [simpl; lia|]; split; discriminate].
    destruct (referenceList knownPeople) as [references|] eqn:Er;
      [|unfold detectAndRecognizeFaces; rewrite Ep, Er; cbn [fst snd];
        split; [simpl; lia|]; split; discriminate].
    rewrite (Hsent part references eq_refl eq_refl). cbn [fst snd].
    set (request := buildRequest part references options).
    split; [simpl; lia|]. split.
    + intros m. destruct (generateContent request) as [| |text];
        try (intros [= <-]; auto).
      destruct (parseTrimmed text) as [[]|]; intros [= <-]; auto.
    + intros result.
      destruct (generateContent request) as [| |text] eqn:Eg;
        try discriminate.
      destruct (parseTrimmed text) as [parsed|] eqn:Ept; [|discriminate].
      destruct parsed; try discriminate; intros [= <-];
        exists part, references, text; eexists;
        (split; [reflexivity|]); (split; [reflexivity|]);
        (split; [exact Eg|]);
        (split; [exact Ept|]); cbn [faces personCount];
        (split; [reflexivity|]); (split; [reflexivity|]);
        first [apply Hfaces | exact (Hfaces None)].
  - cbn [detectAndRecognizeFaces fst snd].
    split; [auto|]. split; [discriminate|]. split; [discriminate|].
    split; [discriminate|]. split; [exact Himage|].
    split; [apply referenceList_throws|]. split; [exact Htyped|].
    split; [simpl; lia|].
    split; [intros m [= <-]; auto | discriminate].
Qed.

End Settling.

(** ** Examples *)

Definition emptyObject (request : Request) : Reply := ResponseText "{}".

Definition parseObjects (text : string) : option Json :=
  if String.eqb text "{}" then Some (JObject []) else None.

(** With a key set: a file that cannot be read, a roster entry whose image
    is no string, and a call that goes through. *)
Lemma service_settles_witness :
  let detect :=
    detectAndRecognizeFaces (Some "key"%string) emptyObject parseObjects in
  let options := {| recognizeGender := true; countPeople := true |} in
  detect (ImageFile None "image/png") [] options = (NeverSettles, []) /\
  detect (ImageString "data:image/jpeg;base64,AAAA")
    [{| entry_name := "Bob"; entry_image := None |}] options
  = (RejectsTypeError, []) /\
  fst (detect (ImageString "data:image/jpeg;base64,AAAA") [] options)
  = Resolves {| faces := JArray []; personCount := JNumber 0 |}.
Proof.
  intros detect options.
  destruct (service_settles (Some "key"%string) emptyObject parseObjects
              (ImageFile None "image/png") [] options)
    as (_ & Hnever & _).
  destruct (Hnever eq_refl eq_refl) as [E1 E2].
  destruct (service_settles (Some "key"%string) emptyObject parseObjects
              (ImageString "data:image/jpeg;base64,AAAA")
              [{| entry_name := "Bob"; entry_image := None |}] options)
    as (_ & _ & Hthrows & _).
  destruct (Hthrows eq_refl) as [E3 E4]; [discriminate | reflexivity |].
  split; [apply injective_projections; [exact E1 | exact E2]|].
  split; [apply injective_projections; [exact E3 | exact E4]|].
  reflexivity.
Defined.

End GeminiService.

(* ===================================================================== *)
(** * hooks/useCamera.ts *)
(* ===================================================================== *)

Module UseCamera.
Local Open Scope nat_scope.

(** A [MediaStream], named by a number. *)
Definition MediaStream := nat.

(** What [getUserMedia] can throw. *)
Inductive Thrown :=
| DOMException (name message : string)
| OtherError.

(** How the promise of [getUserMedia] settles. *)
Inductive Settlement :=
| Granted (mediaStream : MediaStream)
| Refused (err : Thrown).

Definition notSupported : string := "Camera not supported by this browser.".
Definition permissionDenied : string :=
  "Camera permission denied. Please allow camera access in your browser settings.".
Definition unknownError : string :=
  "An unknown error occurred while accessing the camera.".
Definition accessError (message : string) : string :=
  ("Error accessing camera: " ++ message)%string.

(** The hook's two states, the [mediaStream] variable of its effect, the
    [srcObject] of the video element, whether the request is pending, and
    the streams whose tracks were stopped. *)
Record Hook := mkHook {
  stream : option MediaStream;
  error : option string;
  mediaStream : option MediaStream;
  srcObject : option MediaStream;
  pending : bool;
  stopped : list MediaStream
}.

Definition initial : Hook :=
  {| stream := None; error := None; mediaStream := None; srcObject := None;
     pending := false; stopped := [] |}.

(** The [catch] block.  The [Error] thrown for a browser without
    [mediaDevices] is no [DOMException]. *)
Definition handleError (err : Thrown) (h : Hook) : Hook :=
  let message :=
    match err with
    | DOMException name message =>
        if String.eqb name "NotAllowedError" then permissionDenied
        else accessError message
    | OtherError => unknownError
    end in
  {| stream := stream h; error := Some message;
     mediaStream := mediaStream h; srcObject := srcObject h;
     pending := false; stopped := stopped h |}.

(** The effect at mount: [getCameraStream] up to its [await]. *)
Definition getCameraStream (supported : bool) (h : Hook) : Hook :=
  if supported
  then {| stream := stream h; error := error h;
          mediaStream := mediaStream h; srcObject := srcObject h;
          pending := true; stopped := stopped h |}
  else handleError OtherError h.

(** [getCameraStream] after its [await]; [attached] tells whether
    [videoRef.current] is set. *)
Definition settled (attached : bool) (outcome : Settlement) (h : Hook)
    : Hook :=
  if pending h
  then
    match outcome with
    | Granted ms =>
        {| stream := Some ms; error := error h; mediaStream := Some ms;
           srcObject := if attached then Some ms else srcObject h;
           pending := false; stopped := stopped h |}
    | Refused err => handleError err h
    end
  else h.

(** The cleanup of the effect. *)
Definition cleanup (h : Hook) : Hook :=
  match mediaStream h with
  | Some ms =>
      {| stream := stream h; error := error h; mediaStream := mediaStream h;
         srcObject := srcObject h; pending := pending h;
         stopped := stopped h ++ [ms] |}
  | None => h
  end.

Inductive Event :=
| Mount (supported : bool)
| Settled (attached : bool) (outcome : Settlement)
| Unmount.

Definition step (h : Hook) (e : Event) : Hook :=
  match e with
  | Mount supported => getCameraStream supported h
  | Settled attached outcome => settled attached outcome h
  | Unmount => cleanup h
  end.

Definition run (h : Hook) (evs : list Event) : Hook := fold_left step evs h.

(** The hook after the request has settled. *)
Definition acquire (supported attached : bool) (outcome : Settlement)
    : Hook :=
  run initial [Mount supported; Settled attached outcome].

(** What the hook reports.  A stream is reported exactly when the browser
    supports capture and the request was granted, and then no error; a
    refusal is reported as permission denied exactly for a
    [NotAllowedError], with the exception's own message for any other
    [DOMException], and as an unknown error otherwise.  A browser without
    camera support is reported as an unknown error as well: the text
    "Camera not supported by this browser." is never shown. *)
Theorem camera_report (supported attached : bool) (outcome : Settlement) :
  let h := acquire supported attached outcome in
  (forall ms, stream h = Some ms <->
              supported = true /\ outcome = Granted ms) /\
  (stream h <> None -> error h = None) /\
  (supported = false -> error h = Some unknownError) /\
  (error h = Some permissionDenied <->
   supported = true /\
   exists message,
     outcome = Refused (DOMException "NotAllowedError" message)) /\
  (forall name message,
     supported = true -> outcome = Refused (DOMException name message) ->
     name <> "NotAllowedError"%string ->
     error h = Some (accessError message)) /\
  error h <> Some notSupported /\
  pending h = false.
Proof.
  intros h. unfold h, acquire, run. cbn [fold_left step].
  unfold getCameraStream, settled, handleError, initial.
  destruct supported; cbn [pending stream error].
  - destruct outcome as [ms | [name message|]]; cbn [pending stream error].
    + split; [|split; [|split; [|split; [|split; [|split]]]]].
      * intros ms'. split; [intros [= ->]; auto | intros [_ [= ->]]; auto].
      * reflexivity.
      * discriminate.
      * split; [discriminate | intros (_ & m & H); discriminate].
      * intros n m _ H. discriminate.
      * discriminate.
      * reflexivity.
    + split; [|split; [|split; [|split; [|split; [|split]]]]].
      * intros ms'. split; [discriminate | intros [_ H]; discriminate].
      * intros H. exfalso. apply H. reflexivity.
      * discriminate.
      * destruct (String.eqb_spec name "NotAllowedError") as [-> | Hne].
        -- split; [eauto | reflexivity].
        -- split; [discriminate|].
           intros (_ & m & [= E _]). congruence.
      * intros n m _ [= -> ->] Hn.
        destruct (String.eqb_spec n "NotAllowedError"); [congruence|].
        reflexivity.
      * destruct (String.eqb name "NotAllowedError"); discriminate.
      * reflexivity.
    + split; [|split; [|split; [|split; [|split; [|split]]]]].
      * intros ms'. split; [discriminate | intros [_ H]; discriminate].
      * intros H. exfalso. apply H. reflexivity.
      * discriminate.
      * split; [discriminate|].
        intros (_ & m & H). discriminate.
      * intros n m _ H. discriminate.
      * discriminate.
      * reflexivity.
  - split; [|split; [|split; [|split; [|split; [|split]]]]].
    + intros ms'. split; [discriminate | intros [H _]; discriminate].
    + intros H. exfalso. apply H. reflexivity.
    + reflexivity.
    + split; [discriminate | intros [H _]; discriminate].
    + intros n m H. discriminate.
    + discriminate.
    + reflexivity.
Qed.

(** Releasing the camera.  Unmounting after the grant stops the tracks of
    the stream granted.  Unmounting while the request is still pending
    stops nothing: the stream granted afterwards is assigned to the
    effect's variable, whose cleanup has already run, and the hook does
    not stop its tracks. *)
Theorem camera_release (attached : bool) (ms : MediaStream) :
  stopped (run initial [Mount true; Settled attached (Granted ms); Unmount])
  = [ms] /\
  let late :=
    run initial [Mount true; Unmount; Settled attached (Granted ms)] in
  stopped late = [] /\ mediaStream late = Some ms /\ pending late = false.
Proof.
  split; [reflexivity|]. cbn.
  split; [reflexivity|]. split; reflexivity.
Qed.

End UseCamera.

(* ===================================================================== *)
(** * components/PhotoAnalyzer.tsx *)
(* ===================================================================== *)

Module PhotoAnalyzer.
Import BatchAnalyzer.
Local Open Scope nat_scope.

(** One call of [detectAndRecognizeFaces]. *)
Record Invocation := mkInvocation {
  inv_file : File;
  inv_knownPeople : list KnownPerson;
  inv_options : RecognitionOptions
}.

Section Component.
Variable num : Type.
(** [URL.createObjectURL]. *)
Variable createObjectURL : File -> string.

Record State := mkState {
  (* useState *)
  imageFile : option File;
  imageUrl : option string;
  detectedFaces : list (DetectedFace num);
  personCount : Z;
  isLoading : bool;
  error : option string;
  naturalSize : Z * Z;
  (* props *)
  knownPeople : list KnownPerson;
  options : RecognitionOptions;
  (* calls pending, calls made *)
  inFlight : nat;
  invocations : list Invocation
}.

Definition mount (people : list KnownPerson) (opts : RecognitionOptions)
    : State :=
  {| imageFile := None; imageUrl := None; detectedFaces := [];
     personCount := 0%Z; isLoading := false; error := None;
     naturalSize := (0, 0)%Z; knownPeople := people; options := opts;
     inFlight := 0; invocations := [] |}.

(** [handleFileChange]: [file] is [event.target.files?.[0]].  The size is
    set later, by the [onload] of the image created here. *)
Definition handleFileChange (file : option File) (s : State) : State :=
  match file with
  | Some f =>
      {| imageFile := Some f; imageUrl := Some (createObjectURL f);
         detectedFaces := []; personCount := 0%Z;
         isLoading := isLoading s; error := None;
         naturalSize := naturalSize s;
         knownPeople := knownPeople s; options := options s;
         inFlight := inFlight s; invocations := invocations s |}
  | None => s
  end.

(** [img.onload]. *)
Definition imageLoaded (size : Z * Z) (s : State) : State :=
  {| imageFile := imageFile s; imageUrl := imageUrl s;
     detectedFaces := detectedFaces s; personCount := personCount s;
     isLoading := isLoading s; error := error s; naturalSize := size;
     knownPeople := knownPeople s; options := options s;
     inFlight := inFlight s; invocations := invocations s |}.

(** [handleAnalyze] up to its [await]. *)
Definition handleAnalyze (s : State) : State :=
  match imageFile s with
  | None => s
  | Some f =>
      {| imageFile := imageFile s; imageUrl := imageUrl s;
         detectedFaces := []; personCount := personCount s;
         isLoading := true; error := None; naturalSize := naturalSize s;
         knownPeople := knownPeople s; options := options s;
         inFlight := S (inFlight s);
         invocations :=
           invocations s ++
           [{| inv_file := f; inv_knownPeople := knownPeople s;
               inv_options := options s |}] |}
  end.

(** [handleAnalyze] after its [await], when the call resolved. *)
Definition analyzeResolved (r : RecognitionResult num) (s : State) : State :=
  {| imageFile := imageFile s; imageUrl := imageUrl s;
     detectedFaces := faces r; personCount := Types.personCount r;
     isLoading := false; error := error s; naturalSize := naturalSize s;
     knownPeople := knownPeople s; options := options s;
     inFlight := pred (inFlight s); invocations := invocations s |}.

(** The same when it rejected; [message] is [err.message] for an
    [Error]. *)
Definition analyzeRejected (message : option string) (s : State) : State :=
  {| imageFile := imageFile s; imageUrl := imageUrl s;
     detectedFaces := detectedFaces s; personCount := personCount s;
     isLoading := false;
     error := Some match message with
                   | Some m => m
                   | None => "An unknown error occurred."%string
                   end;
     naturalSize := naturalSize s;
     knownPeople := knownPeople s; options := options s;
     inFlight := pred (inFlight s); invocations := invocations s |}.

Definition setProps (people : list KnownPerson) (opts : RecognitionOptions)
    (s : State) : State :=
  {| imageFile := imageFile s; imageUrl := imageUrl s;
     detectedFaces := detectedFaces s; personCount := personCount s;
     isLoading := isLoading s; error := error s;
     naturalSize := naturalSize s;
     knownPeople := people; options := opts;
     inFlight := inFlight s; invocations := invocations s |}.

Inductive Event :=
| FileChosen (file : option File)
| ImageLoaded (size : Z * Z)
| ClickAnalyze
| Resolved (r : RecognitionResult num)
| Rejected (message : option string)
| PropsChanged (people : list KnownPerson) (opts : RecognitionOptions).

(** [disabled={!imageFile || isLoading}]. *)
Definition analyzeDisabled (s : State) : bool :=
  match imageFile s with
  | None => true
  | Some _ => isLoading s
  end.

Definition step (s : State) (e : Event) : State :=
  match e with
  | FileChosen file => handleFileChange file s
  | ImageLoaded size => imageLoaded size s
  | ClickAnalyze => if analyzeDisabled s then s else handleAnalyze s
  | Resolved r =>
      match inFlight s with
      | O => s
      | S _ => analyzeResolved r s
      end
  | Rejected message =>
      match inFlight s with
      | O => s
      | S _ => analyzeRejected message s
      end
  | PropsChanged people opts => setProps people opts s
  end.

Definition run (s : State) (evs : list Event) : State :=
  fold_left step evs s.

Definition reachable (s : State) : Prop :=
  exists people opts evs, s = run (mount people opts) evs.

(** ** Facts *)

(** The spinner tells whether a call is pending. *)
Definition loadingWhilePending (s : State) : Prop :=
  inFlight s = if isLoading s then 1 else 0.

Lemma photo_loading_step (s : State) (e : Event) :
  loadingWhilePending s -> loadingWhilePending (step s e).
Proof.
  unfold loadingWhilePending. intros H.
  destruct e as [chosen| | | | |]; simpl.
  - destruct chosen; assumption.
  - assumption.
  - unfold analyzeDisabled, handleAnalyze.
    destruct (imageFile s); [|assumption].
    destruct (isLoading s) eqn:El; simpl; [rewrite El; assumption|].
    rewrite H. reflexivity.
  - destruct (inFlight s) eqn:Ef; [rewrite Ef; assumption|].
    simpl. destruct (isLoading s); simpl in *; lia.
  - destruct (inFlight s) eqn:Ef; [rewrite Ef; assumption|].
    simpl. destruct (isLoading s); simpl in *; lia.
  - assumption.
Qed.

Lemma photo_reachable_loading (s : State) :
  reachable s -> loadingWhilePending s.
Proof.
  intros (people & opts & evs & ->).
  assert (H0 : loadingWhilePending (mount people opts)) by reflexivity.
  revert H0. generalize (mount people opts).
  induction evs as [|e evs IH]; intros s H0; [assumption|].
  simpl. apply IH. apply photo_loading_step. assumption.
Qed.

(** At most one analysis is pending, the spinner shows exactly while it
    is, and a call is made only by "Analyze" with a photo chosen and no
    call pending: it is for that photo, with the props of the moment. *)
Theorem photo_single_flight (s : State) (e : Event) :
  reachable s ->
  inFlight s <= 1 /\
  (isLoading s = true <-> inFlight s = 1) /\
  (invocations (step s e) <> invocations s ->
   e = ClickAnalyze /\ inFlight s = 0 /\
   exists f, imageFile s = Some f /\
     invocations (step s e)
     = invocations s ++
       [{| inv_file := f; inv_knownPeople := knownPeople s;
           inv_options := options s |}]).
Proof.
  intros Hr. pose proof (photo_reachable_loading Hr) as H.
  unfold loadingWhilePending in H.
  split; [rewrite H; destruct (isLoading s); lia|].
  split; [rewrite H; destruct (isLoading s); split; intros; lia
                                             || congruence|].
  destruct e as [chosen| | | | |]; simpl.
  - destruct chosen; simpl; congruence.
  - congruence.
  - unfold analyzeDisabled, handleAnalyze.
    destruct (imageFile s) as [f|]; [|congruence].
    destruct (isLoading s); [congruence|].
    intros _. split; [reflexivity|]. split; [assumption|].
    exists f. split; reflexivity.
  - destruct (inFlight s); simpl; congruence.
  - destruct (inFlight s); simpl; congruence.
  - congruence.
Qed.

(** A result is shown whenever it arrives: if the user changes the photo
    while the call for the previous one is pending, the faces and the
    count found in the previous photo are shown with the new one. *)
Theorem photo_late_result_shown (s : State) (f : File)
    (r : RecognitionResult num) :
  0 < inFlight s ->
  let s' := run s [FileChosen (Some f); Resolved r] in
  imageFile s' = Some f /\ imageUrl s' = Some (createObjectURL f) /\
  detectedFaces s' = faces r /\ personCount s' = Types.personCount r /\
  isLoading s' = false /\ invocations s' = invocations s.
Proof.
  intros Hf s'. unfold s'. simpl.
  destruct (inFlight s); [lia|]. repeat split; reflexivity.
Qed.

(** A failed analysis: the face list is emptied at the click, the message
    (or the default text) is shown, the button is enabled again; the
    person count is not touched and stays what it was before the click. *)
Theorem photo_failed_analysis (s : State) (message : option string) :
  analyzeDisabled s = false ->
  let s' := run s [ClickAnalyze; Rejected message] in
  detectedFaces s' = [] /\
  error s' = Some match message with
                  | Some m => m
                  | None => "An unknown error occurred."%string
                  end /\
  personCount s' = personCount s /\
  isLoading s' = false /\ analyzeDisabled s' = false /\
  inFlight s' = inFlight s /\
  List.length (invocations s') = S (List.length (invocations s)).
Proof.
  intros Hen s'. unfold s'. simpl. rewrite Hen.
  unfold analyzeDisabled in *. unfold handleAnalyze.
  destruct (imageFile s) as [f|] eqn:Ef; [|discriminate]. simpl.
  rewrite ?Ef. repeat split; try reflexivity.
  rewrite length_app. simpl. lia.
Qed.

End Component.

(** ** Examples *)

Definition photoA : File := {| file_name := "a.jpg"; lastModified := 1 |}.
Definition photoB : File := {| file_name := "b.jpg"; lastModified := 2 |}.

Definition oneFace : RecognitionResult Q :=
  {| faces :=
       [MediaDisplay.faceOfBox
          {| x := 1 # 4; y := 1 # 10; width := 3 # 10; height := 2 # 5 |}];
     Types.personCount := 1 |}.

Definition analysing : State Q :=
  run BatchFacts.demoURL (mount Q [] CameraFacts.demoOptions)
    [FileChosen Q (Some photoA); ClickAnalyze Q].

Lemma photo_single_flight_witness :
  inFlight analysing = 1 /\ isLoading analysing = true /\
  step BatchFacts.demoURL analysing (ClickAnalyze Q) = analysing.
Proof.
  assert (Hr : reachable BatchFacts.demoURL analysing).
  { exists [], CameraFacts.demoOptions,
      [FileChosen Q (Some photoA); ClickAnalyze Q]. reflexivity. }
  destruct (photo_single_flight (ClickAnalyze Q) Hr) as (_ & Hl & _).
  split; [reflexivity|]. split; [apply Hl; reflexivity | reflexivity].
Defined.

Lemma photo_late_result_shown_witness :
  let s' :=
    run BatchFacts.demoURL analysing
      [FileChosen Q (Some photoB); Resolved oneFace] in
  imageFile s' = Some photoB /\ List.length (detectedFaces s') = 1 /\
  map inv_file (invocations s') = [photoA].
Proof.
  intros s'.
  assert (Hf : 0 < inFlight analysing) by (vm_compute; lia).
  destruct (@photo_late_result_shown Q BatchFacts.demoURL analysing photoB
              oneFace Hf)
    as (Efile & _ & Efaces & _).
  split; [exact Efile|]. split; [|reflexivity].
  fold s' in Efaces. rewrite Efaces. reflexivity.
Defined.

Lemma photo_failed_analysis_witness :
  let s :=
    run BatchFacts.demoURL analysing [Resolved oneFace] in
  let s' := run BatchFacts.demoURL s [ClickAnalyze Q; Rejected Q None] in
  personCount s = 1%Z /\ personCount s' = 1%Z /\ detectedFaces s' = [] /\
  error s' = Some "An unknown error occurred."%string.
Proof.
  intros s s'.
  destruct (@photo_failed_analysis Q BatchFacts.demoURL s None eq_refl)
    as (Efaces & Eerr & Ecount & _).
  split; [reflexivity|]. split; [exact Ecount|].
  split; [exact Efaces | exact Eerr].
Defined.

End PhotoAnalyzer.

(* ===================================================================== *)
(** * components/VideoAnalyzer.tsx *)
(* ===================================================================== *)

Module VideoAnalyzer.
Import BatchAnalyzer.
Import CameraView.
Local Open Scope nat_scope.

(** One call of [detectAndRecognizeFaces]. *)
Record Invocation := mkInvocation {
  inv_frame : string;
  inv_knownPeople : list KnownPerson;
  inv_options : RecognitionOptions
}.

Section Component.
Variable num : Type.
Variable browser : Browser.
(** [URL.createObjectURL]. *)
Variable createObjectURL : File -> string.

Record State := mkState {
  (* useState *)
  videoFile : option File;
  videoUrl : option string;
  detectedFaces : list (DetectedFace num);
  personCount : Z;
  isLoading : bool;
  error : option string;
  naturalSize : Z * Z;
  (* useRef *)
  videoRef : option HTMLVideoElement;
  (* props *)
  knownPeople : list KnownPerson;
  options : RecognitionOptions;
  (* calls pending, calls made *)
  inFlight : nat;
  invocations : list Invocation
}.

Definition mount (people : list KnownPerson) (opts : RecognitionOptions)
    : State :=
  {| videoFile := None; videoUrl := None; detectedFaces := [];
     personCount := 0%Z; isLoading := false; error := None;
     naturalSize := (0, 0)%Z; videoRef := None;
     knownPeople := people; options := opts;
     inFlight := 0; invocations := [] |}.

(** [handleFileChange]: [chosen] is [event.target.files?.[0]]. *)
Definition handleFileChange (chosen : option File) (s : State) : State :=
  match chosen with
  | Some f =>
      {| videoFile := Some f; videoUrl := Some (createObjectURL f);
         detectedFaces := []; personCount := 0%Z;
         isLoading := isLoading s; error := None;
         naturalSize := naturalSize s; videoRef := videoRef s;
         knownPeople := knownPeople s; options := options s;
         inFlight := inFlight s; invocations := invocations s |}
  | None => s
  end.

(** [handleMetadataLoaded]. *)
Definition handleMetadataLoaded (s : State) : State :=
  match videoRef s with
  | Some video =>
      {| videoFile := videoFile s; videoUrl := videoUrl s;
         detectedFaces := detectedFaces s; personCount := personCount s;
         isLoading := isLoading s; error := error s;
         naturalSize := (videoWidth video, videoHeight video);
         videoRef := videoRef s;
         knownPeople := knownPeople s; options := options s;
         inFlight := inFlight s; invocations := invocations s |}
  | None => s
  end.

(** The element behind [videoRef] is attached, detached, or what the
    component reads of it changes. *)
Definition setVideo (v : option HTMLVideoElement) (s : State) : State :=
  {| videoFile := videoFile s; videoUrl := videoUrl s;
     detectedFaces := detectedFaces s; personCount := personCount s;
     isLoading := isLoading s; error := error s;
     naturalSize := naturalSize s; videoRef := v;
     knownPeople := knownPeople s; options := options s;
     inFlight := inFlight s; invocations := invocations s |}.

Definition setProps (people : list KnownPerson) (opts : RecognitionOptions)
    (s : State) : State :=
  {| videoFile := videoFile s; videoUrl := videoUrl s;
     detectedFaces := detectedFaces s; personCount := personCount s;
     isLoading := isLoading s; error := error s;
     naturalSize := naturalSize s; videoRef := videoRef s;
     knownPeople := people; options := opts;
     inFlight := inFlight s; invocations := invocations s |}.

(** [handleAnalyzeFrame] up to its [await] (or to its early return). *)
Definition handleAnalyzeFrame (s : State) : State :=
  match videoRef s with
  | None => s
  | Some video =>
      let canvas := {| canvas_width := videoWidth video;
                       canvas_height := videoHeight video |} in
      if getContext2d browser canvas
      then
        {| videoFile := videoFile s; videoUrl := videoUrl s;
           detectedFaces := []; personCount := personCount s;
           isLoading := true; error := None;
           naturalSize := naturalSize s; videoRef := videoRef s;
           knownPeople := knownPeople s; options := options s;
           inFlight := S (inFlight s);
           invocations :=
             invocations s ++
             [{| inv_frame := toDataURL browser video canvas;
                 inv_knownPeople := knownPeople s;
                 inv_options := options s |}] |}
      else
        {| videoFile := videoFile s; videoUrl := videoUrl s;
           detectedFaces := []; personCount := personCount s;
           isLoading := false;
           error := Some "Could not get canvas context."%string;
           naturalSize := naturalSize s; videoRef := videoRef s;
           knownPeople := knownPeople s; options := options s;
           inFlight := inFlight s; invocations := invocations s |}
  end.

(** [handleAnalyzeFrame] after its [await], when the call resolved. *)
Definition analyzeResolved (r : RecognitionResult num) (s : State) : State :=
  {| videoFile := videoFile s; videoUrl := videoUrl s;
     detectedFaces := faces r; personCount := Types.personCount r;
     isLoading := false; error := error s;
     naturalSize := naturalSize s; videoRef := videoRef s;
     knownPeople := knownPeople s; options := options s;
     inFlight := pred (inFlight s); invocations := invocations s |}.

(** The same when it rejected; [message] is [err.message] for an
    [Error]. *)
Definition analyzeRejected (message : option string) (s : State) : State :=
  {| videoFile := videoFile s; videoUrl := videoUrl s;
     detectedFaces := detectedFaces s; personCount := personCount s;
     isLoading := false;
     error := Some match message with
                   | Some m => m
                   | None => "An unknown error occurred."%string
                   end;
     naturalSize := naturalSize s; videoRef := videoRef s;
     knownPeople := knownPeople s; options := options s;
     inFlight := pred (inFlight s); invocations := invocations s |}.

Inductive Event :=
| FileChosen (chosen : option File)
| VideoChanged (v : option HTMLVideoElement)
| MetadataLoaded
| ClickAnalyze
| Resolved (r : RecognitionResult num)
| Rejected (message : option string)
| PropsChanged (people : list KnownPerson) (opts : RecognitionOptions).

(** [disabled={!videoFile || isLoading}]. *)
Definition analyzeDisabled (s : State) : bool :=
  match videoFile s with
  | None => true
  | Some _ => isLoading s
  end.

Definition step (s : State) (e : Event) : State :=
  match e with
  | FileChosen chosen => handleFileChange chosen s
  | VideoChanged v => setVideo v s
  | MetadataLoaded => handleMetadataLoaded s
  | ClickAnalyze => if analyzeDisabled s then s else handleAnalyzeFrame s
  | Resolved r =>
      match inFlight s with
      | O => s
      | S _ => analyzeResolved r s
      end
  | Rejected message =>
      match inFlight s with
      | O => s
      | S _ => analyzeRejected message s
      end
  | PropsChanged people opts => setProps people opts s
  end.

Definition run (s : State) (evs : list Event) : State :=
  fold_left step evs s.

Definition reachable (s : State) : Prop :=
  exists people opts evs, s = run (mount people opts) evs.

(** ** Facts *)

(** The spinner tells whether a call is pending. *)
Definition loadingWhilePending (s : State) : Prop :=
  inFlight s = if isLoading s then 1 else 0.

Lemma video_loading_step (s : State) (e : Event) :
  loadingWhilePending s -> loadingWhilePending (step s e).
Proof.
  unfold loadingWhilePending. intros H.
  destruct e as [chosen|v| | |r|message|people opts]; simpl.
  - destruct chosen; assumption.
  - assumption.
  - unfold handleMetadataLoaded. destruct (videoRef s); assumption.
  - unfold analyzeDisabled, handleAnalyzeFrame.
    destruct (videoFile s); [|assumption].
    destruct (isLoading s) eqn:El; [rewrite El; assumption|].
    destruct (videoRef s) as [video|]; [|rewrite El; assumption].
    destruct (getContext2d browser _); simpl; [rewrite H; reflexivity|].
    assumption.
  - destruct (inFlight s) eqn:Ef; [rewrite Ef; assumption|].
    simpl. destruct (isLoading s); simpl in *; lia.
  - destruct (inFlight s) eqn:Ef; [rewrite Ef; assumption|].
    simpl. destruct (isLoading s); simpl in *; lia.
  - assumption.
Qed.

Lemma video_reachable_loading (s : State) :
  reachable s -> loadingWhilePending s.
Proof.
  intros (people & opts & evs & ->).
  assert (H0 : loadingWhilePending (mount people opts)) by reflexivity.
  revert H0. generalize (mount people opts).
  induction evs as [|e evs IH]; intros s H0; [assumption|].
  simpl. apply IH. apply video_loading_step. assumption.
Qed.

(** At most one frame analysis is pending and the spinner shows exactly
    while it is.  A call is made only by "Analyze Frame" with a video
    chosen, no call pending, the element attached and a 2D context to be
    had; the frame sent is the data URL of the element's current picture,
    with the props of the moment. *)
Theorem video_single_flight (s : State) (e : Event) :
  reachable s ->
  inFlight s <= 1 /\
  (isLoading s = true <-> inFlight s = 1) /\
  (invocations (step s e) <> invocations s ->
   e = ClickAnalyze /\ inFlight s = 0 /\ videoFile s <> None /\
   exists video,
     let canvas := {| canvas_width := videoWidth video;
                      canvas_height := videoHeight video |} in
     videoRef s = Some video /\ getContext2d browser canvas = true /\
     invocations (step s e)
     = invocations s ++
       [{| inv_frame := toDataURL browser video canvas;
           inv_knownPeople := knownPeople s;
           inv_options := options s |}]).
Proof.
  intros Hr. pose proof (video_reachable_loading Hr) as H.
  unfold loadingWhilePending in H.
  split; [rewrite H; destruct (isLoading s); lia|].
  split; [rewrite H; destruct (isLoading s); split; intros; lia
                                             || congruence|].
  destruct e as [chosen|v| | |r|message|people opts]; simpl.
  - destruct chosen; simpl; congruence.
  - congruence.
  - unfold handleMetadataLoaded. destruct (videoRef s); simpl; congruence.
  - unfold analyzeDisabled, handleAnalyzeFrame.
    destruct (videoFile s) as [f|]; [|congruence].
    destruct (isLoading s); [congruence|].
    destruct (videoRef s) as [video|]; [|congruence].
    destruct (getContext2d browser _) eqn:Ec; simpl; [|congruence].
    intros _. split; [reflexivity|]. split; [assumption|].
    split; [discriminate|].
    exists video. split; [reflexivity|]. split; [exact Ec | reflexivity].
  - destruct (inFlight s); simpl; congruence.
  - destruct (inFlight s); simpl; congruence.
  - congruence.
Qed.

(** The enabled button without a usable frame.  With no element attached
    the click changes nothing.  With no 2D context it makes no call, shows
    the canvas error and leaves the button enabled.  With an element that
    has no picture yet (a zero width or height) it is not held back: the
    empty-canvas data URL is sent for analysis. *)
Theorem video_click_without_frame (s : State) :
  analyzeDisabled s = false ->
  let s' := step s ClickAnalyze in
  (videoRef s = None -> s' = s) /\
  (forall video,
     videoRef s = Some video ->
     getContext2d browser {| canvas_width := videoWidth video;
                             canvas_height := videoHeight video |} = false ->
     invocations s' = invocations s /\ inFlight s' = inFlight s /\
     error s' = Some "Could not get canvas context."%string /\
     detectedFaces s' = [] /\ personCount s' = personCount s /\
     isLoading s' = false /\ analyzeDisabled s' = false) /\
  (forall video,
     videoRef s = Some video ->
     getContext2d browser {| canvas_width := videoWidth video;
                             canvas_height := videoHeight video |} = true ->
     (videoWidth video = 0 \/ videoHeight video = 0)%Z ->
     invocations s'
     = invocations s ++
       [{| inv_frame := "data:,"; inv_knownPeople := knownPeople s;
           inv_options := options s |}] /\
     isLoading s' = true).
Proof.
  intros Hen s'. unfold s'. simpl. rewrite Hen.
  unfold handleAnalyzeFrame.
  split; [intros ->; reflexivity|].
  split.
  - intros video -> ->. simpl.
    unfold analyzeDisabled in *. simpl.
    destruct (videoFile s); [|discriminate].
    repeat split; reflexivity.
  - intros video -> -> Hz. simpl. split; [|reflexivity].
    unfold toDataURL. simpl.
    replace ((videoWidth video =? 0)%Z || (videoHeight video =? 0)%Z)
      with true; [reflexivity|].
    symmetry. apply orb_true_iff.
    destruct Hz as [Hz|Hz]; [left|right]; apply Z.eqb_eq; exact Hz.
Qed.

End Component.

(** ** Examples *)

Definition clip : File := {| file_name := "clip.mp4"; lastModified := 7 |}.

(** A browser that hands out no 2D context. *)
Definition noContext : Browser :=
  {| getContext2d := fun _ => false;
     encodeJpeg := fun _ _ => "data:image/jpeg;base64,/9j/4AAQ"%string |}.

(** A video chosen and its element attached, metadata not yet loaded. *)
Definition chosen (b : Browser) : State Q :=
  run b BatchFacts.demoURL (mount Q [] CameraFacts.demoOptions)
    [FileChosen Q (Some clip); VideoChanged Q (Some CameraFacts.blankVideo)].

Lemma video_single_flight_witness :
  let s := step CameraFacts.demoBrowser BatchFacts.demoURL
             (chosen CameraFacts.demoBrowser) (ClickAnalyze Q) in
  inFlight s = 1 /\ isLoading s = true /\
  step CameraFacts.demoBrowser BatchFacts.demoURL s (ClickAnalyze Q) = s.
Proof.
  intros s.
  assert (Hr : reachable CameraFacts.demoBrowser BatchFacts.demoURL s).
  { exists [], CameraFacts.demoOptions,
      [FileChosen Q (Some clip); VideoChanged Q (Some CameraFacts.blankVideo);
       ClickAnalyze Q]. reflexivity. }
  destruct (video_single_flight (ClickAnalyze Q) Hr) as (_ & Hl & _).
  split; [reflexivity|]. split; [apply Hl; reflexivity | reflexivity].
Defined.

Lemma video_click_without_frame_witness :
  error (step noContext BatchFacts.demoURL (chosen noContext)
           (ClickAnalyze Q))
  = Some "Could not get canvas context."%string /\
  map inv_frame
    (invocations (step CameraFacts.demoBrowser BatchFacts.demoURL
                    (chosen CameraFacts.demoBrowser) (ClickAnalyze Q)))
  = ["data:,"%string].
Proof.
  split.
  - destruct (@video_click_without_frame Q noContext BatchFacts.demoURL
                (chosen noContext) eq_refl) as (_ & Hno & _).
    destruct (Hno CameraFacts.blankVideo eq_refl eq_refl)
      as (_ & _ & Eerr & _).
    exact Eerr.
  - destruct (@video_click_without_frame Q CameraFacts.demoBrowser
                BatchFacts.demoURL (chosen CameraFacts.demoBrowser) eq_refl)
      as (_ & _ & Hblank).
    destruct (Hblank CameraFacts.blankVideo eq_refl eq_refl
                (or_introl eq_refl)) as (Einv & _).
    rewrite Einv. reflexivity.
Defined.

End VideoAnalyzer.

(* ===================================================================== *)
(** * App.tsx: the roster across page loads *)
(* ===================================================================== *)

Module RosterMore.
Import App.
Local Open Scope nat_scope.

(** The effect run once at mount: the stored roster, if the item exists,
    becomes the state.  (An item that does not parse throws inside the
    [try] and leaves the state as it is; the stored text is identified
    with the roster it serialises, so such an item is not a value of
    [localStorage] here.) *)
Definition loadEffect (s : State) : State :=
  match localStorage s with
  | Some storedPeople =>
      {| knownPeople := storedPeople; localStorage := localStorage s;
         storageAccepts := storageAccepts s |}
  | None => s
  end.

(** A page load: the component state starts afresh, the storage is what
    the previous page left. *)
Definition pageLoad (accepts : list KnownPerson -> bool)
    (storage : option (list KnownPerson)) : State :=
  loadEffect {| knownPeople := knownPeople (mount accepts);
                localStorage := storage;
                storageAccepts := accepts |}.

Lemma filter_other_id (id : string) (people : list KnownPerson) :
  ~ In id (map person_id people) ->
  filter (fun p => negb (String.eqb (person_id p) id)) people = people.
Proof.
  induction people as [|p people IH]; intros Hid; [reflexivity|].
  simpl. destruct (String.eqb_spec (person_id p) id) as [E | _].
  - exfalso. apply Hid. left. exact E.
  - simpl. rewrite IH; [reflexivity|]. intros Hin. apply Hid. right.
    exact Hin.
Qed.

(** Removing an id the roster does not hold changes no entry; so a person
    registered under an id new to the roster and removed again leaves the
    roster as it was before, entries and order, and after a removal no
    entry carries the id removed. *)
Theorem remove_undoes_fresh_add (s : State) (now : Z) (name image : string) :
  ~ In (personId now) (ids s) ->
  knownPeople (removePerson (personId now) s) = knownPeople s /\
  knownPeople (removePerson (personId now) (addPerson now name image s))
  = knownPeople s /\
  (forall id, ~ In id (ids (removePerson id s))).
Proof.
  intros Hfresh. split; [|split].
  - simpl. apply filter_other_id. exact Hfresh.
  - simpl. rewrite filter_app. simpl. rewrite String.eqb_refl. simpl.
    rewrite app_nil_r. apply filter_other_id. exact Hfresh.
  - intros id Hin. unfold ids in Hin. apply in_map_iff in Hin.
    destruct Hin as (p & Eid & Hin). simpl in Hin.
    apply filter_In in Hin. destruct Hin as [_ Hne].
    rewrite Eid, String.eqb_refl in Hne. discriminate.
Qed.

(** ** Examples *)

Definition bob : KnownPerson :=
  {| person_id := "person_1000"%string; person_name := "Bob"%string;
     person_image := RosterFacts.demoImage |}.

Lemma remove_undoes_fresh_add_witness :
  let s := pageLoad roomy (Some [bob]) in
  list_people
    (removePerson "person_2000"%string
       (addPerson 2000%Z "Alice"%string RosterFacts.demoImage s))
  = [bob].
Proof.
  intros s.
  assert (Hfresh : ~ In (personId 2000%Z) (ids s)).
  { intros [E | []]. discriminate E. }
  destruct (@remove_undoes_fresh_add s 2000%Z "Alice"%string
              RosterFacts.demoImage Hfresh) as (_ & E & _).
  exact E.
Defined.

End RosterMore.

(* ===================================================================== *)
(** * components/MediaDisplay.tsx: more of the geometry *)
(* ===================================================================== *)

Module GeometryMore.
Import MediaDisplay.
Local Open Scope Q_scope.

(** Two laid-out overlays that are the same rectangle. *)
Definition rectEq (r r' : Rect Q) : Prop :=
  rect_left r == rect_left r' /\ rect_top r == rect_top r' /\
  rect_width r == rect_width r' /\ rect_height r == rect_height r'.

Lemma overlayRect_Q (sw sh : Q) (face : DetectedFace Q) :
  rect_left (overlayRect sw sh face) == x (box face) * sw /\
  rect_top (overlayRect sw sh face) == y (box face) * sh /\
  rect_width (overlayRect sw sh face) == width (box face) * sw /\
  rect_height (overlayRect sw sh face) == height (box face) * sh.
Proof.
  unfold overlayRect, overlayStyle, resolvePercent. simpl.
  repeat split; field.
Qed.

Lemma overlays_eq (sw sh sw' sh' : Q) (fs : list (DetectedFace Q)) :
  sw == sw' -> sh == sh' ->
  Forall2 rectEq (overlays sw sh fs) (overlays sw' sh' fs).
Proof.
  intros Ew Eh. induction fs as [|face fs IH]; simpl; constructor;
    [|exact IH].
  destruct (overlayRect_Q sw sh face) as (L & T & W & Hh).
  destruct (overlayRect_Q sw' sh' face) as (L' & T' & W' & Hh').
  unfold rectEq. rewrite L, T, W, Hh, L', T', W', Hh', Ew, Eh.
  repeat split; reflexivity.
Qed.

Lemma min_scaled (a b a' b' k : Q) :
  0 < k -> a' * k == a -> b' * k == b -> Qmin a' b' * k == Qmin a b.
Proof.
  intros Hk Ea Eb.
  destruct (Q.min_spec a' b') as [[Hlt' E'] | [Hle' E']];
    destruct (Q.min_spec a b) as [[Hlt E] | [Hle E]]; rewrite E', E.
  - exact Ea.
  - assert (a' * k < b' * k) by (apply Qmult_lt_compat_r; assumption).
    lra.
  - assert (b' * k <= a' * k) by (apply Qmult_le_compat_r; lra).
    lra.
  - exact Eb.
Qed.

(** The displayed size depends on the container and on the aspect ratio
    only: media of [k] times the resolution, [k > 0], gets the scale
    divided by [k], the same scaled width and height, and the same
    overlay rectangles for the same faces. *)
Theorem display_independent_of_resolution
    (c : Container Q) (naturalWidth naturalHeight k previous : Q)
    (fs : list (DetectedFace Q)) :
  0 < naturalWidth -> 0 < naturalHeight -> 0 < k ->
  let scale := calculateScale (Some c) naturalWidth naturalHeight previous in
  let scale' :=
    calculateScale (Some c) (k * naturalWidth) (k * naturalHeight) previous in
  scale' * k == scale /\
  scaledWidth (k * naturalWidth) scale' == scaledWidth naturalWidth scale /\
  scaledHeight (k * naturalHeight) scale'
  == scaledHeight naturalHeight scale /\
  Forall2 rectEq
    (overlays (scaledWidth (k * naturalWidth) scale')
       (scaledHeight (k * naturalHeight) scale') fs)
    (overlays (scaledWidth naturalWidth scale)
       (scaledHeight naturalHeight scale) fs).
Proof.
  intros Hw Hh Hk scale scale'.
  assert (Hkw : 0 < k * naturalWidth) by nra.
  assert (Hkh : 0 < k * naturalHeight) by nra.
  assert (Es : scale' * k == scale).
  { unfold scale, scale'.
    rewrite (GeometryFacts.calculateScale_Q c previous Hw Hh).
    rewrite (GeometryFacts.calculateScale_Q c previous Hkw Hkh).
    apply min_scaled; [assumption | field; lra | field; lra]. }
  assert (Ew : scaledWidth (k * naturalWidth) scale'
               == scaledWidth naturalWidth scale).
  { unfold scaledWidth. simpl. rewrite <- Es. ring. }
  assert (Eh : scaledHeight (k * naturalHeight) scale'
               == scaledHeight naturalHeight scale).
  { unfold scaledHeight. simpl. rewrite <- Es. ring. }
  split; [exact Es|]. split; [exact Ew|]. split; [exact Eh|].
  apply overlays_eq; assumption.
Qed.


(** A 1600 x 900 and a 3200 x 1800 picture in an 800 x 600 container. *)
Lemma display_independent_of_resolution_witness :
  let c := {| clientWidth := 800; clientHeight := 600 |} in
  let scale' := calculateScale (Some c) (2 * 1600) (2 * 900) initialScale in
  scale' == 1 # 4 /\
  scaledWidth (2 * 1600) scale' == 800 /\
  scaledHeight (2 * 900) scale' == 450.
Proof.
  intros c scale'.
  assert (Hw : 0 < 1600) by reflexivity.
  assert (Hh : 0 < 900) by reflexivity.
  assert (Hk : 0 < 2) by reflexivity.
  destruct (display_independent_of_resolution c initialScale [] Hw Hh Hk)
    as (_ & Ew & Eh & _).
  fold scale' in Ew, Eh.
  split; [reflexivity|]. split; [rewrite Ew | rewrite Eh]; reflexivity.
Defined.

End GeometryMore.
